(** * HPMC particles demo: the adaptive streaming particle pipeline

    A shallow embedding of [init] and [render] of
    [apps/particles/particles.cpp].  Floating-point values are IEEE 754
    values of the Standard Library's [SpecFloat] (binary32 for [float],
    binary64 for [double]); integers are [Z] with the C++ conversions and
    the unsigned wrap-around written out; the particle buffers are lists
    of particles written by a model of transform feedback. *)

From Stdlib Require Import ZArith Lia Bool SpecFloat.
From Stdlib Require QArith Qminmax.
From stdpp Require Import base list strings pretty.

Local Open Scope Z_scope.

(** ** IEEE 754 arithmetic as the C++ code uses it *)

Module IEEE.

(** [float] is binary32, [double] is binary64. *)
Definition prec32 : Z := 24.
Definition emax32 : Z := 128.
Definition prec64 : Z := 53.
Definition emax64 : Z := 1024.

(** Integer to floating-point conversion, rounded to nearest even. *)
Definition f32_of_Z (z : Z) : spec_float := binary_normalize prec32 emax32 z 0 false.
Definition f64_of_Z (z : Z) : spec_float := binary_normalize prec64 emax64 z 0 false.

Definition f32_add : spec_float -> spec_float -> spec_float := SFadd prec32 emax32.
Definition f32_mul : spec_float -> spec_float -> spec_float := SFmul prec32 emax32.
Definition f32_div : spec_float -> spec_float -> spec_float := SFdiv prec32 emax32.
Definition f64_mul : spec_float -> spec_float -> spec_float := SFmul prec64 emax64.

(** Conversion between the two formats: exact from [float] to [double],
    rounded to nearest even the other way. *)
Definition convert (prec emax : Z) (x : spec_float) : spec_float :=
  match x with
  | S754_finite s m e => binary_normalize prec emax (cond_Zopp s (Zpos m)) e false
  | _ => x
  end.
Definition f64_of_f32 : spec_float -> spec_float := convert prec64 emax64.
Definition f32_of_f64 : spec_float -> spec_float := convert prec32 emax32.

(** The integer part of a finite value, rounded toward zero. *)
Definition Ztrunc (x : spec_float) : option Z :=
  match x with
  | S754_zero _ => Some 0
  | S754_finite s m e => Some (cond_Zopp s (Z.shiftl (Zpos m) e))
  | S754_infinity _ | S754_nan => None
  end.

Definition INT_MIN : Z := - 2 ^ 31.
Definition INT_MAX : Z := 2 ^ 31 - 1.

(** [static_cast<int>(x)] and [(int)x]: truncation; the behaviour is
    undefined ([None]) when the truncated value is not an [int]. *)
Definition static_cast_int (x : spec_float) : option Z :=
  match Ztrunc x with
  | Some z => if (INT_MIN <=? z) && (z <=? INT_MAX) then Some z else None
  | None => None
  end.

(** [std::max(a,b)] is [(a < b) ? b : a]. *)
Definition std_max (a b : spec_float) : spec_float := if SFltb a b then b else a.

(** A literal [num/den] denotes the [prec]-digit value [m * 2^e] nearest
    to it. *)
Definition nearest_literal (prec : Z) (m : positive) (e : Z) (num den : Z) : bool :=
  (Zpos (digits2_pos m) =? prec) && (e <? 0) &&
  (Z.abs (2 * (Zpos m * den - num * 2 ^ (- e))) <=? den).

(** The literals of [render]. *)
Definition lit_1em6 : spec_float := S754_finite false 4722366482869645 (-72).  (* 1e-6 *)
Definition lit_10p1 : spec_float := S754_finite false 5685794529555251 (-49).  (* 10.1 *)
Definition lit_0p5 : spec_float := S754_finite false 4503599627370496 (-53).   (* 0.5 *)
Definition lit_1em5f : spec_float := S754_finite false 10995116 (-40).         (* 1e-5f *)
Definition lit_1p1f : spec_float := S754_finite false 9227469 (-23).           (* 1.1f *)
Definition lit_1p0f : spec_float := S754_finite false 8388608 (-23).           (* 1.0f *)
Definition lit_0p001f : spec_float := S754_finite false 8589935 (-33).         (* 0.001f *)

End IEEE.
Import IEEE.

(** ** The host-side arithmetic of [render] *)

(** [static int particle_flow = 4000]: never assigned in the program. *)
Definition particle_flow : Z := 4000.

(** The threshold a run starts from and a reset restores, the bound of
    the controller, and the seed of [srand]. *)
Definition threshold_default : Z := 500.
Definition threshold_max : Z := 100000.
Definition reset_seed : Z := 42.

(** [t < 1e-6], line 428: [t] is converted to [double]. *)
Definition reset_event (t : spec_float) : bool := SFltb (f64_of_f32 t) lit_1em6.

(** [(int)(threshold*(rand()/(RAND_MAX+1.0f)))], line 514, for the value
    [r] returned by [rand()].  [RAND_MAX] belongs to the C library. *)
Definition emitter_offset (RAND_MAX threshold r : Z) : option Z :=
  static_cast_int
    (f32_mul (f32_of_Z threshold)
             (f32_div (f32_of_Z r) (f32_add (f32_of_Z RAND_MAX) lit_1p0f))).

(** [emitter_result/max(1e-5f,dt)], line 543. *)
Definition particles_per_sec (emitter_result : Z) (dt : spec_float) : spec_float :=
  f32_div (f32_of_Z emitter_result) (std_max lit_1em5f dt).

(** The comparisons of lines 545 and 548. *)
Definition flow_low (pps : spec_float) : bool :=
  SFltb pps (f32_of_Z (particle_flow - 100)).
Definition flow_high (pps : spec_float) : bool :=
  SFltb (f32_of_Z (particle_flow + 100)) pps.

(** Lines 545-550: the new value of [threshold]. *)
Definition adjust_threshold (threshold : Z) (pps : spec_float) : option Z :=
  if flow_low pps then
    match static_cast_int (f64_mul lit_0p5 (f64_of_Z threshold)) with
    | Some c => Some (Z.max 1 c)
    | None => None
    end
  else if flow_high pps then
    match static_cast_int (f64_mul lit_10p1 (f64_of_Z threshold)) with
    | Some c => Some (Z.min threshold_max c)
    | None => None
    end
  else Some threshold.

(** [double iso = 0.001f], line 470, and the [float] that
    [glUniform1f( anim_loc_iso, iso )] passes on. *)
Definition iso : spec_float := f64_of_f32 lit_0p001f.
Definition iso_uniform : spec_float := f32_of_f64 iso.

(** Lines 480-481: the new value of [mc_tri_vbo_N] for [N] vertices. *)
Definition resize_mc_tri_vbo (mc_tri_vbo_N N : Z) : option Z :=
  if mc_tri_vbo_N <? N
  then static_cast_int (f32_mul lit_1p1f (f32_of_Z N))
  else Some mc_tri_vbo_N.

(** ** OpenGL objects the pipeline works on *)

Module GL.

(** [GLuint] and [size_t] arithmetic wraps around. *)
Definition GLuint (z : Z) : Z := z mod 2 ^ 32.
Definition size_t (z : Z) : Z := z mod 2 ^ 64.
Definition sizeof_GLfloat : Z := 4.

(** Transform feedback into [buf], bound from byte [offset] for [size]
    bytes, of the stream [out] of records of [stride] bytes: the records
    are stored one after the other while they fit in the bound range.
    The result is the buffer, the records stored, and the value of the
    query [GL_TRANSFORM_FEEDBACK_PRIMITIVES_WRITTEN]. *)
Definition capture {A : Type} (stride offset size : Z) (buf out : list A)
    : list A * list A * Z :=
  let first := Z.to_nat (offset / stride) in
  let written := take (Z.to_nat (size / stride)) out in
  (take first buf ++ written ++ drop (first + length written) buf,
   written,
   GLuint (Z.of_nat (length written))).

(** [glBindBufferBase] binds the whole buffer. *)
Definition whole {A : Type} (stride : Z) (buf : list A) : Z :=
  stride * Z.of_nat (length buf).

(** What is bound to the indexed target [GL_TRANSFORM_FEEDBACK_BUFFER]:
    the byte offset and the size of the range of the buffer. *)
Definition Binding : Type := Z * Z.

Definition BindBufferBase {A : Type} (stride : Z) (buf : list A) : Binding :=
  (0, whole stride buf).

(** [glBindBufferRange] of the buffer that is bound already: a size of
    0 is the error [GL_INVALID_VALUE], and a call that raises an error
    changes nothing, so the range bound before stays bound. *)
Definition BindBufferRange (bound : Binding) (offset size : Z) : Binding :=
  if size =? 0 then bound else (offset, size).

End GL.
Import GL.

Definition vec2 : Type := spec_float * spec_float.
Definition vec3 : Type := spec_float * spec_float * spec_float.
Definition matrix : Type := list spec_float.

(** The record captured from [onscreen_p] into [mc_tri_vbo]
    (varyings [normal_cs], [position_cs]). *)
Record Vertex := { normal_cs : vec3; position_cs : vec3 }.
Definition Triangle : Type := Vertex * Vertex * Vertex.

(** The record of the particle buffers (varyings [info], [vel], [pos]). *)
Record Particle := { info : vec2; vel : vec3; pos : vec3 }.

Definition particle_stride : Z := 8 * sizeof_GLfloat.

(** [glDrawArrays( GL_TRIANGLES, 0, N )] assembles consecutive triples. *)
Fixpoint triangles (vs : list Vertex) : list Triangle :=
  match vs with
  | a :: b :: c :: rest => (a, b, c) :: triangles rest
  | _ => []
  end.

(** The arguments of [render]. *)
Record FrameArgs := {
  arg_t : spec_float;
  arg_dt : spec_float;
  arg_fps : spec_float;
  arg_P : matrix;
  arg_MV : matrix;
  arg_PM : matrix;
  arg_NM : matrix;
  arg_MV_inv : matrix
}.

(** The globals [render] reads and writes, the [static] local
    [threshold], the contents of the buffers and the hidden state of the
    C library's generator. *)
Record State := {
  mc_tri_vbo_N : Z;
  mc_tri_vbo : list Vertex;
  particles_vbo : list (list Particle);
  particles_vbo_p : Z;
  particles_vbo_n : Z;
  particles_vbo_N : Z;
  threshold : Z;
  anim_result : Z;
  rand_state : Z
}.

(** What one call of [render] did. *)
Record FrameLog := {
  log_reset : bool;              (* the branch of line 428 was taken *)
  log_N : Z;                     (* vertices extracted *)
  log_threshold_used : Z;        (* uniform [threshold] of the emitter *)
  log_offset : Z;                (* uniform [offset] of the emitter *)
  log_write_slot : Z;            (* index of the buffer written *)
  log_read_slot : Z;             (* index of the buffer animated *)
  log_occupancy : Z;             (* particles drawn by the animation pass *)
  log_emitted : Z;               (* [emitter_result] *)
  log_new : list Particle;       (* the records the emitter pass stored *)
  log_survivor_offset : Z;       (* first element of the animation's range *)
  log_survivors : Z;             (* [anim_result] *)
  log_kept : list Particle;      (* the records the animation pass stored *)
  log_threshold : Z              (* [threshold] when [render] returns *)
}.

(** ** Collaborators *)

Record Env := {
  (** The C library: [RAND_MAX], and [rand] and [srand] acting on the
      hidden state of the generator. *)
  RAND_MAX : Z;
  libc_rand : Z -> Z * Z;
  libc_srand : Z -> Z;
  (** The interpolation of the shape coefficients [CC] from [t]
      (lines 443-466), undefined where a conversion to [int] is or where
      an index leaves the table [C]; the coefficients are only handed
      on. *)
  shape_at : spec_float -> option (list spec_float);
  (** HPMC: the vertices [HPMCbuildIsoSurface] and
      [HPMCextractVerticesTransformFeedback] produce through [onscreen_p]
      for the coefficients, the iso value and the matrices of the frame;
      their number is [HPMCacquireNumberOfVertices]. *)
  hpmc_extract : list spec_float -> spec_float -> FrameArgs -> list Vertex;
  (** The geometry shader of [emitter_p] ([particles_emitter_gs_150], not
      among the sources): the particles it emits, in order, for the
      uniforms [P], [threshold] and [offset] on the triangles drawn. *)
  emitter_gs : matrix -> Z -> Z -> list Triangle -> list Particle;
  (** What the animation does to one particle, given the coefficients,
      the arguments of the frame and the iso value: the particle one step
      later, or nothing when it dies. *)
  anim_gs : list spec_float -> FrameArgs -> spec_float -> Particle -> option Particle;
  (** The OpenGL implementation where OpenGL leaves the result of a draw
      undefined: the record it delivers for the vertex of index [i] of a
      buffer holding [buf], for [i] beyond the end of the buffer (an
      implementation that ends the program on such a draw is not
      modelled). *)
  gl_beyond : list Particle -> nat -> Particle
}.

(** ** The render loop *)

Section Pipeline.

Variable E : Env.

(** Modelled from the spec: the geometry shader of [anim_p]
    ([particles_anim_gs_150], not among the sources).  Each particle drawn
    is advanced by one step and either carried over or dropped, in the
    order of the buffer. *)
Definition animate (CC : list spec_float) (a : FrameArgs) (iso : spec_float)
    (ps : list Particle) : list Particle :=
  omap (anim_gs E CC a iso) ps.

(** [glDrawArrays( GL_POINTS, 0, n )] on a vertex array that reads the
    buffer [buf]: the [n] records fetched, those of the buffer and, when
    [n] exceeds what the buffer holds, those the implementation delivers
    beyond it. *)
Definition drawn (n : Z) (buf : list Particle) : list Particle :=
  take (Z.to_nat n) buf
  ++ map (gl_beyond E buf) (seq (length buf) (Z.to_nat n - length buf)).

(** *** [init], lines 362-405
    [glBufferData] with a null pointer leaves the contents of the two
    particle buffers undefined: they are the argument [mem].  A program
    that never called [srand] runs as after [srand(1)]. *)
Definition init (mem : list (list Particle)) : State :=
  {| mc_tri_vbo_N := 3 * 1000;
     mc_tri_vbo := [];
     particles_vbo := mem;
     particles_vbo_p := 0;
     particles_vbo_n := 0;
     particles_vbo_N := 20000;
     threshold := threshold_default;
     anim_result := 0;
     rand_state := libc_srand E 1 |}.

(** *** [render], lines 427-434: the reset block *)
Definition reset (s : State) : State :=
  {| mc_tri_vbo_N := mc_tri_vbo_N s;
     mc_tri_vbo := mc_tri_vbo s;
     particles_vbo := particles_vbo s;
     particles_vbo_p := 0;
     particles_vbo_n := 0;
     particles_vbo_N := particles_vbo_N s;
     threshold := threshold_default;
     anim_result := anim_result s;
     rand_state := libc_srand E reset_seed |}.

(** *** [render], lines 436-605: the frame proper
    The frame is undefined ([None]) where a conversion to [int] is and
    where a buffer index is out of range.  When the emitter filled the
    whole buffer it writes, line 571 asks for a range of size 0:
    [glBindBufferRange] fails, the binding of line 522 stays, and the
    animation pass writes from the start of the buffer, over the
    emitted particles. *)
Definition render_frame (was_reset : bool) (s : State) (a : FrameArgs)
    : option (State * FrameLog) :=
  match shape_at E (arg_t a) with
  | None => None
  | Some CC =>
  let verts := hpmc_extract E CC iso a in
  let N := Z.of_nat (length verts) in
  match resize_mc_tri_vbo (mc_tri_vbo_N s) N with
  | None => None
  | Some cap =>
    let tri_vbo := take (Z.to_nat cap) verts in
    let '(r, rs) := libc_rand E (rand_state s) in
    match emitter_offset (RAND_MAX E) (threshold s) r with
    | None => None
    | Some off =>
      let wr := GLuint (particles_vbo_p s + 1) mod 2 in
      let rd := particles_vbo_p s in
      match particles_vbo s !! Z.to_nat wr, particles_vbo s !! Z.to_nat rd with
      | Some wbuf, Some rbuf =>
        let bound := BindBufferBase particle_stride wbuf in
        let '(wbuf1, new, emitter_result) :=
          capture particle_stride (fst bound) (snd bound) wbuf
            (emitter_gs E (arg_P a) (threshold s) off
               (triangles (take (Z.to_nat N) tri_vbo))) in
        match adjust_threshold (threshold s)
                (particles_per_sec emitter_result (arg_dt a)) with
        | None => None
        | Some thr =>
          let offset := size_t (particle_stride * emitter_result) in
          let size :=
            size_t (particle_stride * GLuint (particles_vbo_N s - emitter_result)) in
          let bound := BindBufferRange bound offset size in
          let '(wbuf2, kept, anim) :=
            capture particle_stride (fst bound) (snd bound) wbuf1
              (animate CC a iso_uniform (drawn (particles_vbo_n s) rbuf)) in
          Some ({| mc_tri_vbo_N := cap;
                   mc_tri_vbo := tri_vbo;
                   particles_vbo := <[Z.to_nat wr := wbuf2]> (particles_vbo s);
                   particles_vbo_p := wr;
                   particles_vbo_n := GLuint (anim + emitter_result);
                   particles_vbo_N := particles_vbo_N s;
                   threshold := thr;
                   anim_result := anim;
                   rand_state := rs |},
                {| log_reset := was_reset;
                   log_N := N;
                   log_threshold_used := threshold s;
                   log_offset := off;
                   log_write_slot := wr;
                   log_read_slot := rd;
                   log_occupancy := particles_vbo_n s;
                   log_emitted := emitter_result;
                   log_new := new;
                   log_survivor_offset := fst bound / particle_stride;
                   log_survivors := anim;
                   log_kept := kept;
                   log_threshold := thr |})
        end
      | _, _ => None
      end
    end
  end
  end.

Definition render (s : State) (a : FrameArgs) : option (State * FrameLog) :=
  if reset_event (arg_t a) then render_frame true (reset s) a
  else render_frame false s a.

(** A run: [render] called on the frames in turn. *)
Fixpoint run (s : State) (frames : list FrameArgs) : option (State * list FrameLog) :=
  match frames with
  | [] => Some (s, [])
  | a :: rest =>
      match render s a with
      | None => None
      | Some (s1, l) =>
          match run s1 rest with
          | None => None
          | Some (s2, ls) => Some (s2, l :: ls)
          end
      end
  end.

(** The states [render] can be called in. *)
Inductive reachable : State -> Prop :=
  | reachable_init (mem : list (list Particle)) :
      length mem = 2%nat ->
      Forall (fun b => Z.of_nat (length b) = 20000) mem ->
      reachable (init mem)
  | reachable_render (s s1 : State) (a : FrameArgs) (l : FrameLog) :
      reachable s -> render s a = Some (s1, l) -> reachable s1.

End Pipeline.

(** The shape of the particle store: two buffers of [particles_vbo_N]
    particles, the occupancy [particles_vbo_n] of the buffer
    [particles_vbo_p] (the sum of two counts of at most
    [particles_vbo_N] each), and a threshold within its bounds. *)
Record wf (s : State) : Prop := {
  wf_slots : length (particles_vbo s) = 2%nat;
  wf_capacity : Forall (fun b => Z.of_nat (length b) = particles_vbo_N s) (particles_vbo s);
  wf_N : 0 <= particles_vbo_N s < 2 ^ 31;
  wf_n : 0 <= particles_vbo_n s <= 2 * particles_vbo_N s;
  wf_p : particles_vbo_p s = 0 \/ particles_vbo_p s = 1;
  wf_threshold : 1 <= threshold s <= threshold_max
}.


(** The buffer a frame leaves behind, from the buffer [wbuf] it found:
    the emitter's records [new] from the start, then the animation's
    records [kept] from element [off]. *)
Definition written (wbuf new kept : list Particle) (off : nat) : list Particle :=
  let wbuf1 := new ++ drop (length new) wbuf in
  take off wbuf1 ++ kept ++ drop (off + length kept) wbuf1.

(** What a frame does to a well-formed store, stage by stage: [CC] are
    the coefficients of the frame, [rbuf] is the buffer animated and
    [wbuf] the buffer written, as they were when the frame began. *)
Record frame_effect (E : Env) (was_reset : bool) (s : State) (a : FrameArgs)
    (CC : list spec_float) (rbuf wbuf : list Particle) (s1 : State) (l : FrameLog)
    : Prop := {
  fe_shape : shape_at E (arg_t a) = Some CC;
  fe_rbuf : particles_vbo s !! Z.to_nat (particles_vbo_p s) = Some rbuf;
  fe_wbuf : particles_vbo s !! Z.to_nat (1 - particles_vbo_p s) = Some wbuf;
  fe_offset :
    emitter_offset (RAND_MAX E) (threshold s) (fst (libc_rand E (rand_state s)))
    = Some (log_offset l);
  fe_new :
    log_new l =
    take (Z.to_nat (particles_vbo_N s))
      (emitter_gs E (arg_P a) (threshold s) (log_offset l)
         (triangles (hpmc_extract E CC iso a)));
  fe_emitted : log_emitted l = Z.of_nat (length (log_new l));
  fe_emitted_le : log_emitted l <= particles_vbo_N s;
  fe_survivor_offset :
    log_survivor_offset l =
    if log_emitted l <? particles_vbo_N s then log_emitted l else 0;
  fe_kept :
    log_kept l =
    take (Z.to_nat (particles_vbo_N s - log_survivor_offset l))
      (animate E CC a iso_uniform (drawn E (particles_vbo_n s) rbuf));
  fe_survivors : log_survivors l = Z.of_nat (length (log_kept l));
  fe_threshold :
    adjust_threshold (threshold s) (particles_per_sec (log_emitted l) (arg_dt a))
    = Some (log_threshold l);
  fe_N : log_N l = Z.of_nat (length (hpmc_extract E CC iso a));
  fe_resize : resize_mc_tri_vbo (mc_tri_vbo_N s) (log_N l) = Some (mc_tri_vbo_N s1);
  fe_reset : log_reset l = was_reset;
  fe_threshold_used : log_threshold_used l = threshold s;
  fe_write_slot : log_write_slot l = 1 - particles_vbo_p s;
  fe_read_slot : log_read_slot l = particles_vbo_p s;
  fe_occupancy : log_occupancy l = particles_vbo_n s;
  fe_vbo :
    particles_vbo s1 =
    <[Z.to_nat (1 - particles_vbo_p s) :=
        written wbuf (log_new l) (log_kept l) (Z.to_nat (log_survivor_offset l))]>
      (particles_vbo s);
  fe_p : particles_vbo_p s1 = 1 - particles_vbo_p s;
  fe_n : particles_vbo_n s1 = log_emitted l + log_survivors l;
  fe_capacity : particles_vbo_N s1 = particles_vbo_N s;
  fe_threshold1 : threshold s1 = log_threshold l;
  fe_rand : rand_state s1 = snd (libc_rand E (rand_state s))
}.


(** ** The arithmetic as the specification words it *)

(** [ceil(threshold * 10.1)] and [ceil(1.1 * N)], on exact numbers. *)
Definition spec_ceil_10p1 (threshold : Z) : Z := - ((- (101 * threshold)) / 10).
Definition spec_ceil_1p1 (N : Z) : Z := - ((- (11 * N)) / 10).

(** The rate on exact numbers: [emittedCount / max(dt, eps_time)] with
    [eps_time = 1e-5], a rational number for a finite [dt]. *)
Module Exact.
Import QArith_base Qminmax.

(** The number a finite float stands for. *)
Definition value (x : spec_float) : Q :=
  match x with
  | S754_finite s m e => Qmult (inject_Z (cond_Zopp s (Z.pos m))) (Qpower (Qmake 2 1) e)
  | _ => Qmake 0 1
  end.

Definition eps_time : Q := Qmake 1 100000.

Definition spec_rate (emittedCount : Z) (dt : spec_float) : Q :=
  Qdiv (inject_Z emittedCount) (Qmax eps_time (value dt)).

(** [rate < F - eps], where the threshold is to be halved. *)
Definition spec_rate_low (emittedCount : Z) (dt : spec_float) : Prop :=
  Qlt (spec_rate emittedCount dt) (inject_Z (particle_flow - 100)).

End Exact.

(** ** A concrete instance of the collaborators

    Used to run the pipeline on explicit inputs. *)

Module Demo.

(** A linear congruential generator with glibc's [RAND_MAX]. *)
Definition lcg_rand (s : Z) : Z * Z :=
  let s1 := (s * 1103515245 + 12345) mod 2 ^ 31 in (s1, s1).
Definition lcg_srand (seed : Z) : Z := seed.

Definition zero3 : vec3 := (S754_zero false, S754_zero false, S754_zero false).
Definition vertex0 : Vertex := {| normal_cs := zero3; position_cs := zero3 |}.

(** The contents of a fresh buffer, a new particle, an animated one. *)
Definition particle0 : Particle :=
  {| info := (S754_zero false, S754_zero false); vel := zero3; pos := zero3 |}.
Definition fresh : Particle :=
  {| info := (lit_1p0f, S754_zero false); vel := zero3; pos := zero3 |}.
Definition aged : Particle :=
  {| info := (S754_finite false 8388608 (-24), S754_zero false); vel := zero3; pos := zero3 |}.

(** The emitter as the specification describes it: the triangle of index
    [i] emits a particle iff [(i + offset) mod threshold == 0]. *)
Fixpoint stride_emitter (threshold offset i : Z) (ts : list Triangle) : list Particle :=
  match ts with
  | [] => []
  | _ :: rest =>
      (if (i + offset) mod threshold =? 0 then [fresh] else [])
      ++ stride_emitter threshold offset (i + 1) rest
  end.

(** A surface of 500 triangles in every frame, on which no particle
    ever dies. *)
Definition env : Env :=
  {| RAND_MAX := 2147483647;
     libc_rand := lcg_rand;
     libc_srand := lcg_srand;
     shape_at := fun _ => Some [];
     hpmc_extract := fun _ _ _ => replicate (Z.to_nat 1500) vertex0;
     emitter_gs := fun _ threshold offset ts => stride_emitter threshold offset 0 ts;
     anim_gs := fun _ _ _ _ => Some aged;
     gl_beyond := fun _ _ => particle0 |}.

(** The same collaborators with a generator that returns [RAND_MAX]. *)
Definition env_max : Env :=
  {| RAND_MAX := 2147483647;
     libc_rand := fun s => (2147483647, s);
     libc_srand := lcg_srand;
     shape_at := shape_at env;
     hpmc_extract := hpmc_extract env;
     emitter_gs := emitter_gs env;
     anim_gs := anim_gs env;
     gl_beyond := gl_beyond env |}.

(** A surface on which sixty particles are emitted in every frame. *)
Definition env_sixty : Env :=
  {| RAND_MAX := 2147483647;
     libc_rand := lcg_rand;
     libc_srand := lcg_srand;
     shape_at := shape_at env;
     hpmc_extract := hpmc_extract env;
     emitter_gs := fun _ _ _ _ => replicate 60 fresh;
     anim_gs := anim_gs env;
     gl_beyond := gl_beyond env |}.


(** The two buffers [init] allocates. *)
Definition mem : list (list Particle) :=
  [replicate (Z.to_nat 20000) particle0; replicate (Z.to_nat 20000) particle0].

(** [t = 0] and [t = 1]; [dt = 1/60], [dt = 1/2000] and [dt = 1e-5]. *)
Definition t0 : spec_float := S754_zero false.
Definition t1 : spec_float := lit_1p0f.
Definition dt60 : spec_float := S754_finite false 8947849 (-29).
Definition dt2000 : spec_float := S754_finite false 8589935 (-34).
Definition dt_tiny : spec_float := lit_1em5f.
(** [dt = 1/65], rounded to nearest. *)
Definition dt65 : spec_float := S754_finite false 16519105 (-30).

Definition frame (t dt : spec_float) : FrameArgs :=
  {| arg_t := t; arg_dt := dt; arg_fps := S754_zero false;
     arg_P := []; arg_MV := []; arg_PM := []; arg_NM := []; arg_MV_inv := [] |}.

(** The frames of the runs below. *)
Definition a_low : FrameArgs := frame t1 dt60.
Definition a_high : FrameArgs := frame t1 dt_tiny.
Definition a_mid : FrameArgs := frame t1 dt2000.
Definition a_reset : FrameArgs := frame t0 dt60.
Definition a_65 : FrameArgs := frame t1 dt65.


(** The logs of a run, empty when the run is undefined. *)
Definition logs (s : State) (frames : list FrameArgs) : list FrameLog :=
  match run env s frames with
  | Some (_, ls) => ls
  | None => []
  end.

(** A store with buffers of eight particles, one of them live. *)
Definition s0 : State :=
  {| mc_tri_vbo_N := 1000;
     mc_tri_vbo := [];
     particles_vbo := [replicate 8 particle0; replicate 8 particle0];
     particles_vbo_p := 1;
     particles_vbo_n := 1;
     particles_vbo_N := 8;
     threshold := 250;
     anim_result := 0;
     rand_state := 7 |}.


(** The result of a frame, for a frame that is defined. *)
Definition log0 : FrameLog :=
  {| log_reset := false; log_N := 0; log_threshold_used := 0; log_offset := 0;
     log_write_slot := 0; log_read_slot := 0; log_occupancy := 0; log_emitted := 0;
     log_new := []; log_survivor_offset := 0; log_survivors := 0; log_kept := [];
     log_threshold := 0 |}.
Definition after (s : State) (a : FrameArgs) : State * FrameLog :=
  match render env s a with
  | Some r => r
  | None => (s, log0)
  end.

(** What [render] returns in [s0] for a frame without reset at a low, a
    high and a medium rate, and for a reset frame. *)
Definition s_low : State := Eval vm_compute in fst (after s0 a_low).
Definition l_low : FrameLog := Eval vm_compute in snd (after s0 a_low).
Definition s_high : State := Eval vm_compute in fst (after s0 a_high).
Definition l_high : FrameLog := Eval vm_compute in snd (after s0 a_high).
Definition s_mid : State := Eval vm_compute in fst (after s0 a_mid).
Definition l_mid : FrameLog := Eval vm_compute in snd (after s0 a_mid).
Definition s_reset : State := Eval vm_compute in fst (after s0 a_reset).
Definition l_reset : FrameLog := Eval vm_compute in snd (after s0 a_reset).

(** A store whose threshold is 1: every one of the 500 triangles emits,
    and the buffer of eight is filled by the emitter. *)
Definition s_one : State :=
  {| mc_tri_vbo_N := 1500;
     mc_tri_vbo := [];
     particles_vbo := [replicate 8 particle0; replicate 8 particle0];
     particles_vbo_p := 1;
     particles_vbo_n := 1;
     particles_vbo_N := 8;
     threshold := 1;
     anim_result := 0;
     rand_state := 7 |}.
Definition s_full : State := Eval vm_compute in fst (after s_one a_low).
Definition l_full : FrameLog := Eval vm_compute in snd (after s_one a_low).

(** A store with the default threshold and buffers of 64 particles, and
    the frame of [env_sixty] in it with [dt = 1/65]. *)
Definition s_500 : State :=
  {| mc_tri_vbo_N := 1500;
     mc_tri_vbo := [];
     particles_vbo := [replicate 64 particle0; replicate 64 particle0];
     particles_vbo_p := 0;
     particles_vbo_n := 0;
     particles_vbo_N := 64;
     threshold := 500;
     anim_result := 0;
     rand_state := 7 |}.
Definition held : State * FrameLog := Eval vm_compute in
    match render env_sixty s_500 a_65 with
    | Some r => r
    | None => (s_500, log0)
    end.
Definition s_held : State := Eval vm_compute in fst held.
Definition l_held : FrameLog := Eval vm_compute in snd held.


Definition defined {A : Type} (o : option A) : bool :=
  match o with Some _ => true | None => false end.

End Demo.

(** ** Checking a property on a range of integers by evaluation *)

(** [all_in k lo f]: [f] holds on the [2^k] integers from [lo]. *)
Fixpoint all_in (k : nat) (lo : Z) (f : Z -> bool) : bool :=
  match k with
  | O => f lo
  | S k' => all_in k' lo f && all_in k' (lo + 2 ^ Z.of_nat k') f
  end.

(** On the range of the controller the two products of lines 546 and 549,
    truncated, are [threshold / 2] and [101 * threshold / 10] rounded
    down. *)
Definition halve_agrees (t : Z) : bool :=
  if (1 <=? t) && (t <=? threshold_max) then
    match static_cast_int (f64_mul lit_0p5 (f64_of_Z t)) with
    | Some c => c =? t / 2
    | None => false
    end
  else true.

Definition grow_agrees (t : Z) : bool :=
  if (1 <=? t) && (t <=? threshold_max) then
    match static_cast_int (f64_mul lit_10p1 (f64_of_Z t)) with
    | Some c => c =? 101 * t / 10
    | None => false
    end
  else true.

(** ** Classifying floating-point values *)

(** A value that is not NaN and whose sign bit is [s]. *)
Definition has_sign (s : bool) (x : spec_float) : bool :=
  match x with
  | S754_zero s' | S754_infinity s' | S754_finite s' _ _ => Bool.eqb s' s
  | S754_nan => false
  end.

(** The other operations of [float] and [double] the program uses. *)
Definition f32_sub : spec_float -> spec_float -> spec_float := SFsub prec32 emax32.
Definition f64_add : spec_float -> spec_float -> spec_float := SFadd prec64 emax64.
Definition f64_div : spec_float -> spec_float -> spec_float := SFdiv prec64 emax64.

(** A value [x] with [0 <= x < 2^k]; the zeros of both signs count. *)
Definition below_pow2 (k : Z) (x : spec_float) : bool :=
  match x with
  | S754_zero _ => true
  | S754_finite false m e => Zpos (digits2_pos m) + e <=? k
  | _ => false
  end.

(** What rounding returns for a value in [0, 2^B): a zero or a finite
    number of at most [2^B], unless the format ends below. *)
Definition upto_pow2 (prec emax B : Z) (s : bool) (x : spec_float) : Prop :=
  x = S754_zero s \/
  exists m e,
    x = (if e <=? emax - prec then S754_finite s m e else S754_infinity s) /\
    e <= B /\ Zpos m <= 2 ^ (B - e).

(** ** [render], lines 443-466: the coefficients of the shape *)

(** The C library's [fmodf]: the remainder [x - n*y] for the integer [n]
    nearest to zero from [x/y]; it is a [float] and has the sign of [x]. *)
Definition fmodf (x y : spec_float) : spec_float :=
  match x with
  | S754_nan | S754_infinity _ => S754_nan
  | S754_zero _ =>
      match y with
      | S754_nan | S754_zero _ => S754_nan
      | _ => x
      end
  | S754_finite sx mx ex =>
      match y with
      | S754_nan | S754_zero _ => S754_nan
      | S754_infinity _ => x
      | S754_finite _ my ey =>
          let e := Z.min ex ey in
          binary_normalize prec32 emax32
            (cond_Zopp sx (Z.rem (Zpos mx * 2 ^ (ex - e)) (Zpos my * 2 ^ (ey - e)))) e sx
      end
  end.

(** The literals of lines 461-465, and those of the table [C] as the
    [GLfloat] they initialize. *)
Definition lit_13p0f : spec_float := S754_finite false 13631488 (-20).          (* 13.0f *)
Definition lit_1p0 : spec_float := S754_finite false 4503599627370496 (-52).   (* 1.0 *)
Definition c_0 : spec_float := S754_zero false.
Definition c_0p5 (s : bool) : spec_float := S754_finite s 8388608 (-24).
Definition c_1 (s : bool) : spec_float := S754_finite s 8388608 (-23).
Definition c_2 (s : bool) : spec_float := S754_finite s 8388608 (-22).
Definition c_4 : spec_float := S754_finite false 8388608 (-21).
Definition c_6 (s : bool) : spec_float := S754_finite s 12582912 (-21).
Definition c_8 : spec_float := S754_finite false 8388608 (-20).
Definition c_16 : spec_float := S754_finite false 8388608 (-19).
Definition c_1p4 (s : bool) : spec_float := S754_finite s 11744051 (-23).
Definition c_0p3 : spec_float := S754_finite false 10066330 (-25).
Definition c_0p95 (s : bool) : spec_float := S754_finite s 15938355 (-24).
Definition c_1p01125 (s : bool) : spec_float := S754_finite s 8482980 (-23).
Definition c_0p94875 : spec_float := S754_finite false 15917384 (-24).
Definition c_0p225032 : spec_float := S754_finite false 15101642 (-26).

(** [static GLfloat C[7][12]]: the shapes the program morphs between,
    as coefficients of x^5, x^4, y^4, z^4, x^2y^2, x^2z^2, y^2z^2, xyz,
    x^2, y^2, z^2 and 1. *)
Definition C : list (list spec_float) :=
  [ (* helix *)
    [c_0; c_2 true; c_0; c_0; c_0; c_0; c_1 true; c_0; c_6 false; c_0; c_0; c_0];
    (* some in-between shapes *)
    [c_0; c_8; c_0p5 false; c_0p5 false; c_4; c_4; c_1p4 true; c_0; c_0; c_0; c_0; c_0];
    [c_0; c_16; c_1 false; c_1 false; c_8; c_8; c_2 true; c_0; c_6 true; c_0; c_0; c_0];
    (* daddel *)
    [c_0; c_0; c_0; c_0; c_0; c_0; c_0; c_0; c_1 false; c_1 false; c_0p3; c_0p95 true];
    (* torus *)
    [c_0; c_1 false; c_1 false; c_1 false; c_2 false; c_2 false; c_2 false; c_0;
     c_1p01125 true; c_1p01125 true; c_0p94875; c_0p225032];
    (* kiss *)
    [c_0p5 true; c_0p5 true; c_0; c_0; c_0; c_0; c_0; c_0; c_0; c_1 false; c_1 false; c_0];
    (* cayley *)
    [c_0; c_0; c_0; c_0; c_0; c_0; c_0; c_16; c_4; c_4; c_4; c_1 true] ].

(** [C[i]]: reading before or behind the table is undefined. *)
Definition C_row (i : Z) : option (list spec_float) :=
  if i <? 0 then None else C !! Z.to_nat i.

(** Lines 461-462: the two shapes of the frame.  In [(t+1.0)/13.0f] the
    sum and the quotient are [double]. *)
Definition shape1 (t : spec_float) : option Z :=
  match static_cast_int (f32_div t lit_13p0f) with
  | Some k => Some (Z.rem k 7)
  | None => None
  end.
Definition shape2 (t : spec_float) : option Z :=
  match static_cast_int (f64_div (f64_add (f64_of_f32 t) lit_1p0) (f64_of_f32 lit_13p0f)) with
  | Some k => Some (Z.rem k 7)
  | None => None
  end.

(** Line 463. *)
Definition blend (t : spec_float) : spec_float := fmodf (f32_add t lit_1p0f) lit_13p0f.

(** Lines 460-466: the coefficients [CC] of the frame. *)
Definition shape_coefficients (t : spec_float) : option (list spec_float) :=
  match shape1 t, shape2 t with
  | Some i1, Some i2 =>
      match C_row i1, C_row i2 with
      | Some r1, Some r2 =>
          let u := blend t in
          Some (zip_with (fun c1 c2 => f32_add (f32_mul (f32_sub lit_1p0f u) c1) (f32_mul u c2))
                  r1 r2)
      | _, _ => None
      end
  | _, _ => None
  end.

(** ** [init], lines 146-188: the arguments of the program *)

(** How a function that may call [exit( EXIT_FAILURE )] ends: it returns,
    or the program exits after the given line was written to [cerr]. *)
Inductive Outcome (A : Type) : Type :=
  | Returns (a : A)
  | Exits (cerr : string).
Arguments Returns {A} a.
Arguments Exits {A} cerr.

(** The globals [volume_size_x], [volume_size_y], [volume_size_z]. *)
Record Volume := {
  volume_size_x : Z;
  volume_size_y : Z;
  volume_size_z : Z
}.

(** Their initializers, lines 61-63. *)
Definition volume_initial : Volume :=
  {| volume_size_x := 64; volume_size_y := 64; volume_size_z := 64 |}.

(** The arguments [init] passes to [HPMCsetLatticeSize] and to
    [HPMCsetGridSize], lines 180-188. *)
Definition lattice_size (v : Volume) : Z * Z * Z :=
  (volume_size_x v, volume_size_y v, volume_size_z v).
Definition grid_size (v : Volume) : Z * Z * Z :=
  (volume_size_x v - 1, volume_size_y v - 1, volume_size_z v - 1).

Section Arguments.

(** The C library's [atoi], and the two values of the enumeration of
    targets that line 146 compares. *)
Variable atoi : string -> Z.
Variables hpmc_target HPMC_TARGET_GL32_GLSL150 : Z.

(** [argv[i]] for [i < argc], with [argc] the length of [argv]. *)
Definition argv_at (argv : list string) (i : nat) : string := nth i argv "".

(** Lines 146-173, from the globals [v]: the globals when [init] goes on
    to set up HPMC, or the line it writes before it exits. *)
Definition init_arguments (v : Volume) (argv : list string) : Outcome Volume :=
  let argc := Z.of_nat (length argv) in
  if hpmc_target <? HPMC_TARGET_GL32_GLSL150 then
    Exits "This sample requires OpenGL 3.2 or better."
  else
    let x := if 1 <? argc then atoi (argv_at argv 1) else volume_size_x v in
    let y := if 3 <? argc then atoi (argv_at argv 2) else x in
    let z := if 3 <? argc then atoi (argv_at argv 3) else x in
    if x <? 4 then Exits "Volume size x < 4"
    else if y <? 4 then Exits "Volume size y < 4"
    else if z <? 4 then Exits "Volume size z < 4"
    else Returns {| volume_size_x := x; volume_size_y := y; volume_size_z := z |}.

End Arguments.

(** ** [infoString], lines 607-621 *)

(** An [int] result: signed overflow is undefined ([None]). *)
Definition int_result (z : Z) : option Z :=
  if (INT_MIN <=? z) && (z <=? INT_MAX) then Some z else None.

(** [(volume_size_x-1)*(volume_size_y-1)*(volume_size_z-1)], in [int]. *)
Definition voxels (v : Volume) : option Z :=
  match int_result (volume_size_x v - 1), int_result (volume_size_y v - 1),
        int_result (volume_size_z v - 1) with
  | Some x, Some y, Some z =>
      match int_result (x * y) with
      | Some xy => int_result (xy * z)
      | None => None
      end
  | _, _, _ => None
  end.

Definition lit_1e6 : spec_float := S754_finite false 8589934592000000 (-33).  (* 1e6 *)

(** Line 615: the product is converted to [float] and multiplied by
    [fps], the quotient by [1e6] is a [double], and [(int)] truncates. *)
Definition MVPS (v : Volume) (fps : spec_float) : option Z :=
  match voxels v with
  | Some n =>
      static_cast_int
        (f64_div (f64_of_f32 (f32_mul (f32_of_Z n) fps)) lit_1e6)
  | None => None
  end.

(** Line 617, for the value [N] of [HPMCacquireNumberOfVertices]: the
    division of [int] truncates. *)
Definition info_triangles (N : Z) : Z := Z.quot N 3.

(** Line 619 prints the global [anim_result]. *)
Definition info_particles (s : State) : Z := anim_result s.

Section InfoString.

(** The text [operator<<] writes for a [float] at precision 5. *)
Variable show_float : spec_float -> string.

Definition infoString (v : Volume) (N : Z) (s : State) (fps : spec_float)
    : option string :=
  match MVPS v fps with
  | Some mvps =>
      Some (show_float fps +:+ " fps, "
            +:+ pretty (volume_size_x v) +:+ "x"
            +:+ pretty (volume_size_y v) +:+ "x"
            +:+ pretty (volume_size_z v) +:+ " samples, "
            +:+ pretty mvps +:+ " MVPS, "
            +:+ pretty (info_triangles N) +:+ " triangles, "
            +:+ pretty (info_particles s) +:+ " particles")
  | None => None
  end.

End InfoString.

(** ** Further runs of the pipeline *)

Module Trace.

(** A stand-in for [atoi] on unsigned decimal text. *)
Fixpoint digits_value (acc : Z) (s : string) : Z :=
  match s with
  | String c rest =>
      let n := Z.of_N (Ascii.N_of_ascii c) in
      if (48 <=? n) && (n <=? 57) then digits_value (10 * acc + (n - 48)) rest else acc
  | EmptyString => acc
  end.
Definition atoi (s : string) : Z := digits_value 0 s.

(** The program run as [particles 64 128 64], [particles 64 128] and
    [particles 3]. *)
Definition argv3 : list string := ["particles"; "64"; "128"; "64"].
Definition argv2 : list string := ["particles"; "64"; "128"].

(** Collaborators whose emitter stores two particles in every frame. *)
Definition env_steady : Env :=
  {| RAND_MAX := 2147483647;
     libc_rand := Demo.lcg_rand;
     libc_srand := Demo.lcg_srand;
     shape_at := fun _ => Some [];
     hpmc_extract := fun _ _ _ => replicate (Z.to_nat 1500) Demo.vertex0;
     emitter_gs := fun _ _ _ _ => [Demo.fresh; Demo.fresh];
     anim_gs := fun _ _ _ p => if SFltb (fst (info p)) lit_1p0f then None else Some Demo.aged;
     gl_beyond := fun _ _ => Demo.particle0 |}.

(** The result of a run, for a run that is defined. *)
Definition final (E : Env) (s : State) (frames : list FrameArgs) : State * list FrameLog :=
  match run E s frames with
  | Some r => r
  | None => (s, [])
  end.

(** Two frames of [Demo.s0] at a low rate. *)
Definition low2 : list FrameArgs := [Demo.a_low; Demo.a_low].
Definition s_low2 : State := Eval vm_compute in fst (final Demo.env Demo.s0 low2).
Definition ls_low2 : list FrameLog := Eval vm_compute in snd (final Demo.env Demo.s0 low2).

(** Five frames of [Demo.s0] at a high rate. *)
Definition high5 : list FrameArgs :=
  [Demo.a_high; Demo.a_high; Demo.a_high; Demo.a_high; Demo.a_high].
Definition s_high5 : State := Eval vm_compute in fst (final env_steady Demo.s0 high5).
Definition ls_high5 : list FrameLog := Eval vm_compute in snd (final env_steady Demo.s0 high5).

(** Collaborators whose emitter stores nothing. *)
Definition env_quiet : Env :=
  {| RAND_MAX := 2147483647;
     libc_rand := Demo.lcg_rand;
     libc_srand := Demo.lcg_srand;
     shape_at := fun _ => Some [];
     hpmc_extract := fun _ _ _ => replicate (Z.to_nat 1500) Demo.vertex0;
     emitter_gs := fun _ _ _ _ => [];
     anim_gs := fun _ _ _ _ => Some Demo.aged;
     gl_beyond := fun _ _ => Demo.particle0 |}.

(** A frame of [Demo.s0] in which nothing is emitted, with [dt = 1e-5]. *)
Definition s_quiet : State := Eval vm_compute in fst (final env_quiet Demo.s0 [Demo.a_high]).
Definition l_quiet : FrameLog := Eval vm_compute in hd Demo.log0 (snd (final env_quiet Demo.s0 [Demo.a_high])).

End Trace.

(** * Properties *)

(** ** The literals and the range checks *)

(** The literals are the correctly rounded values of their decimal text. *)
Lemma literals_nearest :
  nearest_literal prec64 4722366482869645 (-72) 1 1000000 = true /\
  nearest_literal prec64 5685794529555251 (-49) 101 10 = true /\
  nearest_literal prec64 4503599627370496 (-53) 1 2 = true /\
  nearest_literal prec32 10995116 (-40) 1 100000 = true /\
  nearest_literal prec32 9227469 (-23) 11 10 = true /\
  nearest_literal prec32 8388608 (-23) 1 1 = true /\
  nearest_literal prec32 8589935 (-33) 1 1000 = true.
Proof. repeat split; vm_compute; reflexivity. Qed.

Lemma all_in_spec (k : nat) (f : Z -> bool) :
  forall lo, all_in k lo f = true ->
  forall z, lo <= z < lo + 2 ^ Z.of_nat k -> f z = true.
Proof.
  induction k as [|k IH]; intros lo H z Hz.
  - simpl in *. replace z with lo by lia. exact H.
  - cbn [all_in] in H. apply andb_true_iff in H as [H1 H2].
    rewrite Nat2Z.inj_succ, Z.pow_succ_r in Hz by lia.
    destruct (Z_lt_le_dec z (lo + 2 ^ Z.of_nat k)).
    + apply (IH lo); [exact H1 | lia].
    + apply (IH (lo + 2 ^ Z.of_nat k)); [exact H2 | lia].
Qed.

Lemma halve_table : all_in 17 0 halve_agrees = true.
Proof. vm_compute. reflexivity. Qed.

Lemma grow_table : all_in 17 0 grow_agrees = true.
Proof. vm_compute. reflexivity. Qed.

(** Line 546 halves, rounding down. *)
Lemma halve_cast (t : Z) :
  1 <= t <= threshold_max ->
  static_cast_int (f64_mul lit_0p5 (f64_of_Z t)) = Some (t / 2).
Proof.
  intros Ht. pose proof (all_in_spec 17 halve_agrees 0 halve_table t) as H.
  unfold halve_agrees in H. unfold threshold_max in *.
  replace ((1 <=? t) && (t <=? 100000)) with true in H
    by (symmetry; apply andb_true_iff; split; apply Z.leb_le; lia).
  destruct (static_cast_int _) as [c|].
  - f_equal. apply Z.eqb_eq. apply H. change (2 ^ Z.of_nat 17) with 131072. lia.
  - discriminate H. change (2 ^ Z.of_nat 17) with 131072. lia.
Qed.

(** Line 549 multiplies by 101/10, rounding down. *)
Lemma grow_cast (t : Z) :
  1 <= t <= threshold_max ->
  static_cast_int (f64_mul lit_10p1 (f64_of_Z t)) = Some (101 * t / 10).
Proof.
  intros Ht. pose proof (all_in_spec 17 grow_agrees 0 grow_table t) as H.
  unfold grow_agrees in H. unfold threshold_max in *.
  replace ((1 <=? t) && (t <=? 100000)) with true in H
    by (symmetry; apply andb_true_iff; split; apply Z.leb_le; lia).
  destruct (static_cast_int _) as [c|].
  - f_equal. apply Z.eqb_eq. apply H. change (2 ^ Z.of_nat 17) with 131072. lia.
  - discriminate H. change (2 ^ Z.of_nat 17) with 131072. lia.
Qed.

(** ** Rounding to binary32 *)

Lemma digits2_bounds (p : positive) :
  2 ^ (Zpos (digits2_pos p) - 1) <= Zpos p < 2 ^ Zpos (digits2_pos p).
Proof.
  induction p as [p IH|p IH|]; cbn [digits2_pos]; try (rewrite Pos2Z.inj_succ).
  - replace (Z.succ (Zpos (digits2_pos p)) - 1) with (Z.succ (Zpos (digits2_pos p) - 1)) by lia.
    rewrite !Z.pow_succ_r by lia. lia.
  - replace (Z.succ (Zpos (digits2_pos p)) - 1) with (Z.succ (Zpos (digits2_pos p) - 1)) by lia.
    rewrite !Z.pow_succ_r by lia. lia.
  - simpl. lia.
Qed.

Lemma digits2_unique (p : positive) (n : Z) :
  2 ^ (n - 1) <= Zpos p < 2 ^ n -> Zpos (digits2_pos p) = n.
Proof.
  intros [Hlo Hhi]. pose proof (digits2_bounds p) as [Dlo Dhi].
  set (d := Zpos (digits2_pos p)) in *.
  assert (0 < d) by (subst d; lia).
  destruct (Z_lt_le_dec n 1) as [Hn|Hn].
  { assert (2 ^ n <= 2 ^ 0) by (destruct (Z_lt_le_dec n 0); [rewrite Z.pow_neg_r by lia; simpl; lia | apply Z.pow_le_mono_r; lia]).
    simpl in *. lia. }
  destruct (Z.lt_trichotomy d n) as [Hlt|[Heq|Hgt]]; [|exact Heq|].
  - assert (2 ^ d <= 2 ^ (n - 1)) by (apply Z.pow_le_mono_r; lia). lia.
  - assert (2 ^ n <= 2 ^ (d - 1)) by (apply Z.pow_le_mono_r; lia). lia.
Qed.

Lemma shr_1_half (r : shr_record) :
  0 <= shr_m r -> shr_m (shr_1 r) = shr_m r / 2.
Proof.
  destruct r as [m rb sb]. cbn [shr_m]. intros Hm.
  rewrite <- Z.div2_div.
  destruct m as [|[p|p|]|p]; try reflexivity; lia.
Qed.

Lemma shr_m_iter (p : positive) :
  forall r, 0 <= shr_m r -> shr_m (SpecFloat.iter_pos shr_1 p r) = shr_m r / 2 ^ Zpos p.
Proof.
  induction p as [p IH|p IH|]; intros r Hr; cbn [SpecFloat.iter_pos].
  - assert (H1 : 0 <= shr_m (shr_1 r)) by (rewrite shr_1_half by exact Hr; apply Z.div_pos; lia).
    assert (H2 : 0 <= shr_m (SpecFloat.iter_pos shr_1 p (shr_1 r))) by (rewrite IH by exact H1; apply Z.div_pos; lia).
    rewrite IH by exact H2. rewrite IH by exact H1. rewrite shr_1_half by exact Hr.
    rewrite !Z.div_div by lia. f_equal.
    rewrite Pos2Z.inj_xI, Z.pow_add_r, Z.pow_mul_r by lia.
    change (2 ^ 2) with 4. change (2 ^ 1) with 2.
    replace (4 ^ Zpos p) with (2 ^ Zpos p * 2 ^ Zpos p); [lia|].
    rewrite <- Z.pow_add_r by lia. replace (Zpos p + Zpos p) with (2 * Zpos p) by lia.
    rewrite Z.pow_mul_r by lia. reflexivity.
  - assert (H1 : 0 <= shr_m (SpecFloat.iter_pos shr_1 p r)) by (rewrite IH by exact Hr; apply Z.div_pos; lia).
    rewrite IH by exact H1. rewrite IH by exact Hr.
    rewrite Z.div_div by lia. f_equal.
    rewrite Pos2Z.inj_xO. rewrite <- Z.pow_add_r by lia. f_equal. lia.
  - rewrite shr_1_half by exact Hr. reflexivity.
Qed.

Lemma round_nearest_even_cases (m : Z) (l : location) :
  round_nearest_even m l = m \/ round_nearest_even m l = m + 1.
Proof.
  destruct l as [|[| |]]; cbn [round_nearest_even]; try destruct (Z.even m); auto.
Qed.


Lemma shr_m_of_loc (m : Z) (l : location) : shr_m (shr_record_of_loc m l) = m.
Proof. destruct l as [|[| |]]; reflexivity. Qed.

Lemma shr_fexp_normal (m : positive) (e : Z) (l : location) :
  24 <= Zpos (digits2_pos m) ->
  -149 <= Zpos (digits2_pos m) + e - 24 ->
  exists r, shr_fexp prec32 emax32 (Zpos m) e l = (r, e + (Zpos (digits2_pos m) - 24))
            /\ shr_m r = Zpos m / 2 ^ (Zpos (digits2_pos m) - 24).
Proof.
  intros Hd He. unfold shr_fexp, fexp, emin, prec32, emax32. cbn [Zdigits2].
  rewrite Z.max_l by lia.
  replace (Zpos (digits2_pos m) + e - 24 - e) with (Zpos (digits2_pos m) - 24) by lia.
  destruct (Zpos (digits2_pos m) - 24) as [|k|k] eqn:K; [| |lia]; cbn [shr].
  - eexists; split; [f_equal; lia|]. rewrite shr_m_of_loc, Z.pow_0_r, Z.div_1_r. reflexivity.
  - eexists; split; [reflexivity|].
    rewrite shr_m_iter by (rewrite shr_m_of_loc; lia). rewrite shr_m_of_loc. reflexivity.
Qed.

(** Rounding a mantissa of at least 24 digits above the subnormal
    range: unless it overflows, the result is a normal number within one
    part in [2^23] of the value. *)
Lemma f32_round_normal (s : bool) (m : positive) (e : Z) (l : location) :
  24 <= Zpos (digits2_pos m) ->
  -149 <= Zpos (digits2_pos m) + e - 24 ->
  exists m' e',
    binary_round_aux prec32 emax32 s (Zpos m) e l =
      (if e' <=? 104 then S754_finite s m' e' else S754_infinity s) /\
    e + (Zpos (digits2_pos m) - 24) <= e' <= e + (Zpos (digits2_pos m) - 24) + 1 /\
    2 ^ 23 <= Zpos m' < 2 ^ 24 /\
    (2 ^ 23 - 1) * Zpos m <= 2 ^ 23 * (Zpos m' * 2 ^ (e' - e)) <= (2 ^ 23 + 1) * Zpos m.
Proof.
  intros Hd He.
  destruct (shr_fexp_normal m e l Hd He) as (r & E & Hr).
  pose proof (digits2_bounds m) as [Dlo Dhi].
  set (k := Zpos (digits2_pos m) - 24) in *.
  assert (Hk : 0 <= k) by lia.
  replace (Zpos (digits2_pos m) - 1) with (23 + k) in Dlo by lia.
  replace (Zpos (digits2_pos m)) with (24 + k) in Dhi by lia.
  rewrite Z.pow_add_r in Dlo, Dhi by lia.
  assert (HP : 0 < 2 ^ k) by (apply Z.pow_pos_nonneg; lia).
  set (q := Zpos m / 2 ^ k) in *.
  assert (Hq1 : 2 ^ 23 <= q) by (apply Z.div_le_lower_bound; lia).
  assert (Hq2 : q < 2 ^ 24) by (apply Z.div_lt_upper_bound; lia).
  assert (Hq3 : 2 ^ k * q <= Zpos m) by (apply Z.mul_div_le; lia).
  assert (Hq4 : Zpos m < 2 ^ k * Z.succ q) by (apply Z.mul_succ_div_gt; lia).
  unfold binary_round_aux. rewrite E. rewrite Hr.
  set (m1 := round_nearest_even q (loc_of_shr_record r)).
  assert (Hm1 : m1 = q \/ m1 = q + 1) by apply round_nearest_even_cases.
  clearbody m1. clear E Hr r.
  assert (Hcase : m1 < 2 ^ 24 \/ m1 = 2 ^ 24) by lia.
  change (2 ^ 23) with 8388608 in *. change (2 ^ 24) with 16777216 in *.
  destruct Hcase as [Hlt|Heq].
  - destruct m1 as [|p1|p1]; try lia.
    assert (D1 : Zpos (digits2_pos p1) = 24)
      by (apply digits2_unique; change (2 ^ (24 - 1)) with 8388608;
          change (2 ^ 24) with 16777216; lia).
    destruct (shr_fexp_normal p1 (e + k) loc_Exact) as (r2 & E2 & Hr2); [lia|lia|].
    rewrite E2, Hr2, D1. change (24 - 24) with 0. rewrite Z.pow_0_r, Z.div_1_r.
    exists p1, (e + k + 0). split; [reflexivity|].
    replace (e + k + 0 - e) with k by lia.
    split; [lia|]. split; [lia|]. nia.
  - subst m1.
    destruct (shr_fexp_normal 16777216 (e + k) loc_Exact) as (r2 & E2 & Hr2);
      [cbn; lia|cbn; lia|].
    change (Zpos (digits2_pos 16777216)) with 25 in E2, Hr2.
    change (16777216 / 2 ^ (25 - 24)) with 8388608 in Hr2.
    rewrite E2, Hr2.
    exists 8388608%positive, (e + k + (25 - 24)). split; [reflexivity|].
    replace (e + k + (25 - 24) - e) with (k + 1) by lia.
    rewrite Z.pow_add_r by lia. change (2 ^ 1) with 2.
    split; [lia|]. split; [lia|]. nia.
Qed.

Lemma Zpos_iter_xO (n p : positive) : Zpos (Pos.iter xO n p) = Zpos n * 2 ^ Zpos p.
Proof.
  induction p as [|p IH] using Pos.peano_ind.
  - cbn [Pos.iter]. change (2 ^ 1) with 2. lia.
  - rewrite Pos.iter_succ, Pos2Z.inj_xO, IH, Pos2Z.inj_succ, Z.pow_succ_r by lia. lia.
Qed.

(** The conversion of a positive integer to [float]. *)
Lemma f32_of_Z_normal (n : positive) :
  exists mx ex,
    f32_of_Z (Zpos n) = (if ex <=? 104 then S754_finite false mx ex else S754_infinity false) /\
    -23 <= ex <= Zpos (digits2_pos n) - 23 /\
    2 ^ 23 <= Zpos mx < 2 ^ 24 /\
    (2 ^ 23 - 1) * Zpos n <= Zpos mx * 2 ^ (ex + 23) <= (2 ^ 23 + 1) * Zpos n.
Proof.
  unfold f32_of_Z, binary_normalize, binary_round, shl_align.
  unfold fexp at 1 2, emin, prec32, emax32.
  pose proof (digits2_bounds n) as Dn.
  set (d := Zpos (digits2_pos n)) in *.
  assert (0 < d) by (subst d; lia).
  rewrite Z.max_l by lia.
  destruct (d + 0 - 24 - 0) as [|k|k] eqn:K.
  - destruct (f32_round_normal false n 0 loc_Exact) as (mx & ex & E & He & Hm & Hb); [lia|lia|].
    exists mx, ex. split; [exact E|]. fold d in He. split; [lia|]. split; [exact Hm|].
    rewrite Z.sub_0_r in Hb. rewrite Z.pow_add_r by lia.
    change (2 ^ 23) with 8388608 in *. lia.
  - destruct (f32_round_normal false n 0 loc_Exact) as (mx & ex & E & He & Hm & Hb); [lia|lia|].
    exists mx, ex. split; [exact E|]. fold d in He. split; [lia|]. split; [exact Hm|].
    rewrite Z.sub_0_r in Hb. rewrite Z.pow_add_r by lia.
    change (2 ^ 23) with 8388608 in *. lia.
  - assert (Hk : Zpos k = 24 - d) by lia.
    assert (Hz : Zpos (Pos.iter xO n k) = Zpos n * 2 ^ (24 - d))
      by (rewrite Zpos_iter_xO, Hk; reflexivity).
    assert (HB : 0 < 2 ^ (d - 1)) by (apply Z.pow_pos_nonneg; lia).
    assert (HC : 2 ^ (24 - d) * 2 ^ (d - 1) = 2 ^ 23)
      by (rewrite <- Z.pow_add_r by lia; f_equal; lia).
    assert (D1 : Zpos (digits2_pos (Pos.iter xO n k)) = 24).
    { apply digits2_unique. rewrite Hz.
      assert (E1 : 2 ^ (24 - 1) = 2 ^ (d - 1) * 2 ^ (24 - d))
        by (rewrite <- Z.pow_add_r by lia; f_equal; lia).
      assert (E2 : 2 ^ 24 = 2 ^ d * 2 ^ (24 - d))
        by (rewrite <- Z.pow_add_r by lia; f_equal; lia).
      assert (0 < 2 ^ (24 - d)) by (apply Z.pow_pos_nonneg; lia).
      rewrite E1, E2.
      split; [apply Z.mul_le_mono_nonneg_r|apply Z.mul_lt_mono_pos_r]; lia. }
    destruct (f32_round_normal false (Pos.iter xO n k) (d + 0 - 24) loc_Exact)
      as (mx & ex & E & He & Hm & Hb); [rewrite D1; lia|rewrite D1; lia|].
    exists mx, ex. split; [exact E|]. rewrite D1 in He. split; [lia|]. split; [exact Hm|].
    rewrite Hz in Hb.
    replace (ex + 23) with ((ex - (d + 0 - 24)) + (d - 1)) by lia.
    rewrite Z.pow_add_r by lia.
    set (A := Zpos mx * 2 ^ (ex - (d + 0 - 24))) in *.
    rewrite Z.mul_assoc. fold A.
    change (2 ^ 23) with 8388608 in *. nia.
Qed.


(** Truncation of a positive finite value, against an integer. *)
Lemma shiftl_lower (m : positive) (e n : Z) :
  -23 <= e -> n * 2 ^ 23 <= Zpos m * 2 ^ (e + 23) -> n <= Z.shiftl (Zpos m) e.
Proof.
  intros He H.
  assert (HA : 0 < 2 ^ (e + 23)) by (apply Z.pow_pos_nonneg; lia).
  destruct (Z_lt_le_dec e 0) as [Hneg|Hpos].
  - rewrite Z.shiftl_div_pow2 by lia.
    assert (HB : 0 < 2 ^ (- e)) by (apply Z.pow_pos_nonneg; lia).
    assert (HAB : 2 ^ (e + 23) * 2 ^ (- e) = 2 ^ 23)
      by (rewrite <- Z.pow_add_r by lia; f_equal; lia).
    apply Z.div_le_lower_bound; [exact HB|].
    apply (Z.mul_le_mono_pos_r _ _ (2 ^ (e + 23))); [exact HA|].
    rewrite <- HAB in H. lia.
  - rewrite Z.shiftl_mul_pow2 by lia.
    rewrite Z.pow_add_r in H by lia.
    apply (Z.mul_le_mono_pos_r _ _ (2 ^ 23)); [reflexivity|]. lia.
Qed.


(** The product [1.1f * (float)N] of line 481 for a positive [N]. *)
Lemma mul_1p1f_normal (n : positive) :
  (exists mz ez,
     f32_mul lit_1p1f (f32_of_Z (Zpos n)) = S754_finite false mz ez /\
     -23 <= ez /\
     2 ^ 23 * Zpos n <= Zpos mz * 2 ^ (ez + 23) <= 9227472 * Zpos n) \/
  (f32_mul lit_1p1f (f32_of_Z (Zpos n)) = S754_infinity false /\
   125 < Zpos (digits2_pos n)).
Proof.
  destruct (f32_of_Z_normal n) as (mx & ex & E & Hex & Hmx & Hbx).
  rewrite E. destruct (ex <=? 104) eqn:L; [|right; split; [reflexivity|apply Z.leb_gt in L; lia]].
  unfold f32_mul, lit_1p1f. cbn [SFmul xorb].
  set (p := (9227469 * mx)%positive).
  assert (Hp : Zpos p = 9227469 * Zpos mx) by (subst p; apply Pos2Z.inj_mul).
  pose proof (digits2_bounds p) as [Dlo Dhi].
  change (2 ^ 23) with 8388608 in *. change (2 ^ 24) with 16777216 in *.
  assert (Hd : 47 <= Zpos (digits2_pos p) <= 48).
  { split.
    - destruct (Z_lt_le_dec (Zpos (digits2_pos p)) 47) as [C|C]; [|exact C].
      assert (2 ^ Zpos (digits2_pos p) <= 2 ^ 46) by (apply Z.pow_le_mono_r; lia).
      change (2 ^ 46) with 70368744177664 in *. lia.
    - destruct (Z_lt_le_dec 48 (Zpos (digits2_pos p))) as [C|C]; [|exact C].
      assert (2 ^ 48 <= 2 ^ (Zpos (digits2_pos p) - 1)) by (apply Z.pow_le_mono_r; lia).
      change (2 ^ 48) with 281474976710656 in *. lia. }
  destruct (f32_round_normal false p (-23 + ex) loc_Exact)
    as (mz & ez & E2 & Hez & Hmz & Hbz); [lia|lia|].
  fold prec32 emax32. rewrite E2.
  destruct (ez <=? 104) eqn:L2; [|right; split; [reflexivity|apply Z.leb_gt in L2; lia]].
  left. exists mz, ez. split; [reflexivity|]. split; [lia|].
  assert (HA : 0 <= 2 ^ (ex + 23)) by (apply Z.pow_nonneg; lia).
  assert (HW : Zpos mz * 2 ^ (ez - (-23 + ex)) * 2 ^ (ex + 23)
               = 8388608 * (Zpos mz * 2 ^ (ez + 23))).
  { rewrite <- Z.mul_assoc, <- Z.pow_add_r by lia.
    replace (ez - (-23 + ex) + (ex + 23)) with ((ez + 23) + 23) by lia.
    rewrite Z.pow_add_r by lia. change (2 ^ 23) with 8388608. lia. }
  change (2 ^ 23) with 8388608 in *.
  destruct Hbz as [Hb1 Hb2].
  apply (Z.mul_le_mono_nonneg_r _ _ _ HA) in Hb1.
  apply (Z.mul_le_mono_nonneg_r _ _ _ HA) in Hb2.
  rewrite Hp in Hb1, Hb2.
  set (X := Zpos mx * 2 ^ (ex + 23)) in *.
  set (V := Zpos mz * 2 ^ (ez + 23)) in *.
  set (W := Zpos mz * 2 ^ (ez - (-23 + ex)) * 2 ^ (ex + 23)) in *.
  replace (8388608 * (Zpos mz * 2 ^ (ez - (-23 + ex))) * 2 ^ (ex + 23))
    with (8388608 * W) in Hb1, Hb2 by (subst W; ring).
  replace ((8388608 - 1) * (9227469 * Zpos mx) * 2 ^ (ex + 23))
    with (8388607 * 9227469 * X) in Hb1 by (subst X; ring).
  replace ((8388608 + 1) * (9227469 * Zpos mx) * 2 ^ (ex + 23))
    with (8388609 * 9227469 * X) in Hb2 by (subst X; ring).
  lia.
Qed.

(** Line 481 never yields less than [N]. *)
Lemma resize_cast_grows (N c : Z) :
  0 < N -> static_cast_int (f32_mul lit_1p1f (f32_of_Z N)) = Some c -> N <= c.
Proof.
  intros HN. destruct N as [|n|n]; try lia.
  destruct (mul_1p1f_normal n) as [(mz & ez & E & Hez & Hlo & Hhi)|[E _]]; rewrite E.
  - unfold static_cast_int. cbn [Ztrunc cond_Zopp].
    destruct (_ && _); [|discriminate]. intros [= <-].
    apply shiftl_lower; [exact Hez|]. lia.
  - discriminate.
Qed.



(** ** Comparisons *)

Lemma SFcompare_antisym (x y : spec_float) :
  SFcompare y x = match SFcompare x y with Some c => Some (CompOpp c) | None => None end.
Proof.
  destruct x as [sx|sx| |sx mx ex], y as [sy|sy| |sy my ey]; cbn [SFcompare];
    try (destruct sx); try (destruct sy); try reflexivity.
  all: rewrite (Z.compare_antisym ex ey).
  all: assert (Hm : Pos.compare_cont Eq my mx = CompOpp (Pos.compare_cont Eq mx my))
         by (symmetry; apply (Pos.compare_cont_antisym mx my Eq)).
  all: rewrite Hm; destruct (ex ?= ey), (Pos.compare_cont Eq mx my); reflexivity.
Qed.

Lemma SFleb_not_ltb (x y : spec_float) : SFleb x y = true -> SFltb y x = false.
Proof.
  unfold SFleb, SFltb. rewrite (SFcompare_antisym x y).
  destruct (SFcompare x y) as [[| |]|]; cbn [CompOpp]; intros H; try reflexivity; discriminate H.
Qed.

(** ** The controller, lines 543-550 *)

(** A rate above 4100 is not below 3900. *)
Lemma flow_high_not_low (pps : spec_float) : flow_high pps = true -> flow_low pps = false.
Proof.
  unfold flow_high, flow_low.
  change (f32_of_Z (particle_flow + 100)) with (S754_finite false 8396800 (-11)).
  change (f32_of_Z (particle_flow - 100)) with (S754_finite false 15974400 (-12)).
  unfold SFltb.
  destruct pps as [s|s| |s m e]; cbn [SFcompare]; try (destruct s); try discriminate;
    try reflexivity.
  destruct (-11 ?= e) eqn:C1; try discriminate.
  - apply Z.compare_eq in C1. subst e. intros _. reflexivity.
  - intros _. rewrite Z.compare_lt_iff in C1.
    destruct (e ?= -12) eqn:C2; try reflexivity.
    + apply Z.compare_eq in C2. lia.
    + rewrite Z.compare_lt_iff in C2. lia.
Qed.

Lemma adjust_low (t : Z) (pps : spec_float) :
  1 <= t <= threshold_max -> flow_low pps = true ->
  adjust_threshold t pps = Some (Z.max 1 (t / 2)).
Proof. intros Ht H. unfold adjust_threshold. rewrite H, (halve_cast t Ht). reflexivity. Qed.

Lemma adjust_high (t : Z) (pps : spec_float) :
  1 <= t <= threshold_max -> flow_high pps = true ->
  adjust_threshold t pps = Some (Z.min threshold_max (101 * t / 10)).
Proof.
  intros Ht H. unfold adjust_threshold.
  rewrite (flow_high_not_low pps H), H, (grow_cast t Ht). reflexivity.
Qed.

Lemma adjust_mid (t : Z) (pps : spec_float) :
  flow_low pps = false -> flow_high pps = false -> adjust_threshold t pps = Some t.
Proof. intros H1 H2. unfold adjust_threshold. rewrite H1, H2. reflexivity. Qed.

Lemma adjust_bounds (t t1 : Z) (pps : spec_float) :
  1 <= t <= threshold_max -> adjust_threshold t pps = Some t1 -> 1 <= t1 <= threshold_max.
Proof.
  intros Ht H.
  destruct (flow_low pps) eqn:L.
  - rewrite (adjust_low t pps Ht L) in H. injection H as <-.
    assert (t / 2 <= t) by (apply Z.div_le_upper_bound; lia). lia.
  - destruct (flow_high pps) eqn:U.
    + rewrite (adjust_high t pps Ht U) in H. injection H as <-.
      assert (1 <= 101 * t / 10) by (apply Z.div_le_lower_bound; lia).
      unfold threshold_max in *. lia.
    + rewrite (adjust_mid t pps L U) in H. injection H as <-. exact Ht.
Qed.

(** ** The triangle buffer, lines 480-481 *)

Lemma resize_fits (cap0 N cap : Z) :
  0 <= N -> resize_mc_tri_vbo cap0 N = Some cap -> N <= cap /\ cap0 <= cap.
Proof.
  intros HN. unfold resize_mc_tri_vbo. destruct (cap0 <? N) eqn:C.
  - apply Z.ltb_lt in C. intros H.
    destruct (Z.eq_dec N 0) as [->|Hne].
    + vm_compute in H. injection H as <-. lia.
    + apply resize_cast_grows in H; lia.
  - apply Z.ltb_ge in C. intros [= <-]. lia.
Qed.

(** ** Transform feedback *)

Lemma capture_whole {A : Type} (buf out : list A) :
  Z.of_nat (length buf) < 2 ^ 32 ->
  capture particle_stride 0 (whole particle_stride buf) buf out =
  (take (length buf) out ++ drop (length (take (length buf) out)) buf,
   take (length buf) out,
   Z.of_nat (length (take (length buf) out))).
Proof.
  intros Hlen. unfold capture, whole, particle_stride, sizeof_GLfloat.
  change (8 * 4) with 32. change (0 / 32) with 0. change (Z.to_nat 0) with 0%nat.
  rewrite (Z.mul_comm 32), Z.div_mul, Nat2Z.id by lia.
  cbn [take app Nat.add]. f_equal.
  unfold GLuint. apply Z.mod_small. rewrite length_take. lia.
Qed.

(** Transform feedback into the elements from [o], [r] of them at
    most. *)
Lemma capture_range {A : Type} (o r : Z) (buf out : list A) :
  0 <= o -> 0 <= r -> Z.of_nat (length out) < 2 ^ 32 \/ r < 2 ^ 32 ->
  capture particle_stride (particle_stride * o) (particle_stride * r) buf out =
  (take (Z.to_nat o) buf ++ take (Z.to_nat r) out
     ++ drop (Z.to_nat o + length (take (Z.to_nat r) out)) buf,
   take (Z.to_nat r) out,
   Z.of_nat (length (take (Z.to_nat r) out))).
Proof.
  intros Ho Hr Hlen. unfold capture, particle_stride, sizeof_GLfloat.
  change (8 * 4) with 32. rewrite !(Z.mul_comm 32), !Z.div_mul by lia.
  f_equal. unfold GLuint. apply Z.mod_small. rewrite length_take.
  change (2 ^ 32) with 4294967296 in *. lia.
Qed.

(** Lines 568-571 after the emitter stored [e] records in a buffer of
    [Cp]: the range behind them, or the whole buffer when there is no
    room. *)
Lemma bind_range_after {A : Type} (wbuf : list A) (e Cp : Z) :
  Z.of_nat (length wbuf) = Cp -> 0 <= e <= Cp -> Cp < 2 ^ 31 ->
  BindBufferRange (BindBufferBase particle_stride wbuf)
    (size_t (particle_stride * e)) (size_t (particle_stride * GLuint (Cp - e)))
  = (particle_stride * (if e <? Cp then e else 0),
     particle_stride * (Cp - (if e <? Cp then e else 0))).
Proof.
  intros Hlen He HCp.
  unfold BindBufferRange, BindBufferBase, whole, particle_stride, sizeof_GLfloat,
    size_t, GLuint.
  change (8 * 4) with 32. change (2 ^ 31) with 2147483648 in HCp.
  change (2 ^ 32) with 4294967296. change (2 ^ 64) with 18446744073709551616.
  rewrite (Z.mod_small (Cp - e)) by lia. rewrite !Z.mod_small by lia.
  destruct (e <? Cp) eqn:C.
  - apply Z.ltb_lt in C.
    replace (32 * (Cp - e) =? 0) with false by (symmetry; apply Z.eqb_neq; lia).
    reflexivity.
  - apply Z.ltb_ge in C.
    replace (32 * (Cp - e) =? 0) with true by (symmetry; apply Z.eqb_eq; lia).
    rewrite Hlen, Z.sub_0_r. reflexivity.
Qed.

(** What a draw fetches. *)
Lemma length_drawn (E : Env) (n : Z) (buf : list Particle) :
  length (drawn E n buf) = Z.to_nat n.
Proof.
  unfold drawn. rewrite length_app, length_take, length_map, length_seq. lia.
Qed.

Lemma drawn_within (E : Env) (n : Z) (buf : list Particle) :
  n <= Z.of_nat (length buf) -> drawn E n buf = take (Z.to_nat n) buf.
Proof.
  intros H. unfold drawn.
  replace (Z.to_nat n - length buf)%nat with 0%nat by lia.
  cbn [seq map]. apply app_nil_r.
Qed.

Lemma drawn_0 (E : Env) (buf : list Particle) : drawn E 0 buf = [].
Proof. rewrite drawn_within by lia. reflexivity. Qed.

Lemma length_omap_le {A B : Type} (f : A -> option B) (ps : list A) :
  (length (omap f ps) <= length ps)%nat.
Proof.
  induction ps as [|p ps IH]; simpl; [lia|].
  unfold omap in IH. destruct (f p); simpl; lia.
Qed.

(** ** One frame *)

Ltac proj_simpl :=
  cbn [fst snd
       log_reset log_N log_threshold_used log_offset log_write_slot log_read_slot
       log_occupancy log_emitted log_new log_survivor_offset log_survivors log_kept
       log_threshold
       mc_tri_vbo_N mc_tri_vbo particles_vbo particles_vbo_p particles_vbo_n
       particles_vbo_N threshold anim_result rand_state].

Ltac frame_cases H :=
  repeat match type of H with
  | context [match ?x with _ => _ end] => destruct x eqn:?; try discriminate H
  end.

(** The controller and the counters of a frame, whatever the store. *)
Lemma render_frame_basic (E : Env) (b : bool) (s s1 : State) (a : FrameArgs) (l : FrameLog) :
  render_frame E b s a = Some (s1, l) ->
  log_reset l = b /\
  0 <= log_N l /\
  resize_mc_tri_vbo (mc_tri_vbo_N s) (log_N l) = Some (mc_tri_vbo_N s1) /\
  log_threshold_used l = threshold s /\
  emitter_offset (RAND_MAX E) (threshold s) (fst (libc_rand E (rand_state s)))
    = Some (log_offset l) /\
  adjust_threshold (threshold s) (particles_per_sec (log_emitted l) (arg_dt a))
    = Some (log_threshold l) /\
  threshold s1 = log_threshold l /\
  log_read_slot l = particles_vbo_p s /\
  log_write_slot l = GLuint (particles_vbo_p s + 1) mod 2 /\
  particles_vbo_p s1 = log_write_slot l /\
  log_occupancy l = particles_vbo_n s /\
  (particles_vbo_n s = 0 -> log_survivors l = 0).
Proof.
  unfold render_frame. intros H. frame_cases H.
  injection H as <- <-. proj_simpl.
  repeat split; try assumption; try reflexivity; try lia.
  intros Hn.
  match goal with Hc : capture _ _ _ _ (animate _ _ _ _ _) = _ |- _ =>
    rewrite Hn, drawn_0 in Hc;
    unfold capture, animate in Hc; simpl omap in Hc; rewrite take_nil in Hc;
    injection Hc as _ _ <- end.
  reflexivity.
Qed.

Lemma wf_buffers (s : State) :
  wf s ->
  exists b0 b1, particles_vbo s = [b0; b1] /\
    Z.of_nat (length b0) = particles_vbo_N s /\ Z.of_nat (length b1) = particles_vbo_N s.
Proof.
  intros [Hs Hc _ _ _ _].
  destruct (particles_vbo s) as [|b0 [|b1 [|b2 rest]]]; try discriminate Hs.
  exists b0, b1. split; [reflexivity|].
  inversion Hc as [|? ? H0 Hc1]; subst. inversion Hc1; subst. auto.
Qed.

Lemma write_slot_toggle (p : Z) : p = 0 \/ p = 1 -> GLuint (p + 1) mod 2 = 1 - p.
Proof. intros [-> | ->]; reflexivity. Qed.

Lemma wf_reset (E : Env) (s : State) : wf s -> wf (reset E s).
Proof.
  intros [Hs Hc HN Hn Hp Ht].
  split; cbn; try assumption; unfold threshold_default, threshold_max; lia.
Qed.

(** The buffer left by a frame in which the emitter left room, and by
    one in which it did not. *)
Lemma written_room (wbuf new kept : list Particle) :
  written wbuf new kept (length new)
  = new ++ kept ++ drop (length new + length kept) wbuf.
Proof.
  unfold written. rewrite take_app_length, drop_app_add, drop_drop. reflexivity.
Qed.

Lemma written_full (wbuf new kept : list Particle) :
  length new = length wbuf -> written wbuf new kept 0 = kept ++ drop (length kept) new.
Proof.
  intros H. unfold written. rewrite H, drop_all, app_nil_r. reflexivity.
Qed.

Lemma length_written (wbuf new kept : list Particle) (off : nat) :
  (length new <= length wbuf)%nat -> (off + length kept <= length wbuf)%nat ->
  length (written wbuf new kept off) = length wbuf.
Proof.
  intros H1 H2. unfold written.
  rewrite !length_app, length_take, length_drop, !length_app, length_drop. lia.
Qed.

(** The whole effect of a frame on a well-formed store. *)
Lemma render_frame_effect (E : Env) (b : bool) (s s1 : State) (a : FrameArgs) (l : FrameLog) :
  wf s -> render_frame E b s a = Some (s1, l) ->
  exists CC rbuf wbuf,
    frame_effect E b s a CC rbuf wbuf s1 l /\
    Z.of_nat (length rbuf) = particles_vbo_N s /\
    Z.of_nat (length wbuf) = particles_vbo_N s.
Proof.
  intros W H.
  destruct (wf_buffers s W) as (b0 & b1 & Hvbo & Hb0 & Hb1).
  pose proof (wf_N s W) as HN. pose proof (wf_p s W) as Hp.
  unfold render_frame in H. rewrite (write_slot_toggle _ Hp) in H.
  destruct (shape_at E (arg_t a)) as [CC|] eqn:Hshape; [|discriminate H].
  destruct (resize_mc_tri_vbo _ _) as [cap|] eqn:Hcap; [|discriminate H].
  destruct (libc_rand E (rand_state s)) as [r rs] eqn:Hrand.
  destruct (emitter_offset _ _ _) as [off|] eqn:Hoff; [|discriminate H].
  destruct (particles_vbo s !! Z.to_nat (1 - particles_vbo_p s)) as [wbuf|] eqn:Hw;
    [|discriminate H].
  destruct (particles_vbo s !! Z.to_nat (particles_vbo_p s)) as [rbuf|] eqn:Hr;
    [|discriminate H].
  assert (Hlw : Z.of_nat (length wbuf) = particles_vbo_N s)
    by (rewrite Hvbo in Hw; destruct Hp as [Hp|Hp]; rewrite Hp in Hw;
        injection Hw as <-; assumption).
  assert (Hlr : Z.of_nat (length rbuf) = particles_vbo_N s)
    by (rewrite Hvbo in Hr; destruct Hp as [Hp|Hp]; rewrite Hp in Hr;
        injection Hr as <-; assumption).
  pose proof (resize_fits _ _ _ (Nat2Z.is_nonneg _) Hcap) as [Hfit _].
  change (2 ^ 31) with 2147483648 in HN.
  rewrite Nat2Z.id in H.
  rewrite !(take_ge (hpmc_extract _ _ _ _)) in H by lia.
  cbv zeta in H.
  change (fst (BindBufferBase particle_stride wbuf)) with 0 in H.
  change (snd (BindBufferBase particle_stride wbuf)) with (whole particle_stride wbuf) in H.
  rewrite capture_whole in H by (change (2 ^ 32) with 4294967296; lia).
  cbv beta iota in H.
  destruct (adjust_threshold _ _) as [thr|] eqn:Hadj; [|discriminate H].
  set (new := take (length wbuf) _) in *.
  assert (Hnew : Z.of_nat (length new) <= particles_vbo_N s)
    by (subst new; rewrite length_take; lia).
  rewrite (bind_range_after wbuf (Z.of_nat (length new)) (particles_vbo_N s) Hlw) in H
    by (change (2 ^ 31) with 2147483648; lia).
  cbn [fst snd] in H.
  set (o := if Z.of_nat (length new) <? particles_vbo_N s then Z.of_nat (length new) else 0)
    in *.
  assert (Ho : 0 <= o <= particles_vbo_N s)
    by (subst o; destruct (_ <? _); lia).
  rewrite capture_range in H
    by (try lia; right; change (2 ^ 32) with 4294967296; lia).
  cbv beta iota in H. injection H as <- <-.
  exists CC, rbuf, wbuf.
  set (kept := take (Z.to_nat (particles_vbo_N s - o)) _) in *.
  assert (Hkept : (length kept <= Z.to_nat (particles_vbo_N s - o))%nat)
    by (subst kept; rewrite length_take; lia).
  assert (Hso : particle_stride * o / particle_stride = o)
    by (unfold particle_stride, sizeof_GLfloat; change (8 * 4) with 32;
        rewrite Z.mul_comm, Z.div_mul by lia; reflexivity).
  split; [|split; assumption].
  split; proj_simpl; rewrite ?Hso; try reflexivity; try assumption.
  - rewrite Hrand. exact Hoff.
  - subst new. f_equal. lia.
  - unfold GLuint. change (2 ^ 32) with 4294967296. rewrite Z.mod_small by lia. lia.
  - rewrite Hrand. reflexivity.
Qed.

Lemma render_effect (E : Env) (s s1 : State) (a : FrameArgs) (l : FrameLog) :
  wf s -> render E s a = Some (s1, l) ->
  exists CC rbuf wbuf,
    frame_effect E (reset_event (arg_t a))
      (if reset_event (arg_t a) then reset E s else s) a CC rbuf wbuf s1 l /\
    Z.of_nat (length rbuf) = particles_vbo_N s /\
    Z.of_nat (length wbuf) = particles_vbo_N s.
Proof.
  intros W. unfold render. destruct (reset_event (arg_t a)).
  - intros H. apply (render_frame_effect E true (reset E s)) in H; [exact H|].
    apply wf_reset. exact W.
  - apply render_frame_effect. exact W.
Qed.

(** The sizes of what a frame stores. *)
Lemma frame_effect_sizes (E : Env) (b : bool) (s s1 : State) (a : FrameArgs)
    (CC : list spec_float) (rbuf wbuf : list Particle) (l : FrameLog) :
  0 <= particles_vbo_N s -> frame_effect E b s a CC rbuf wbuf s1 l ->
  0 <= log_emitted l <= particles_vbo_N s /\
  0 <= log_survivor_offset l <= particles_vbo_N s /\
  0 <= log_survivors l <= particles_vbo_N s - log_survivor_offset l /\
  (log_emitted l < particles_vbo_N s -> log_survivor_offset l = log_emitted l) /\
  (log_emitted l = particles_vbo_N s -> log_survivor_offset l = 0).
Proof.
  intros HN F.
  pose proof (fe_emitted _ _ _ _ _ _ _ _ _ F) as Fe.
  pose proof (fe_emitted_le _ _ _ _ _ _ _ _ _ F) as Fle.
  pose proof (fe_survivor_offset _ _ _ _ _ _ _ _ _ F) as Fso.
  pose proof (fe_kept _ _ _ _ _ _ _ _ _ F) as Fkept.
  pose proof (fe_survivors _ _ _ _ _ _ _ _ _ F) as Fs.
  assert (Hk : (length (log_kept l)
                <= Z.to_nat (particles_vbo_N s - log_survivor_offset l))%nat)
    by (rewrite Fkept, length_take; lia).
  destruct (log_emitted l <? particles_vbo_N s) eqn:C;
    [apply Z.ltb_lt in C|apply Z.ltb_ge in C]; lia.
Qed.

(** A frame leaves the store well-formed. *)
Lemma frame_effect_wf (E : Env) (b : bool) (s s1 : State) (a : FrameArgs)
    (CC : list spec_float) (rbuf wbuf : list Particle) (l : FrameLog) :
  wf s -> Z.of_nat (length wbuf) = particles_vbo_N s ->
  frame_effect E b s a CC rbuf wbuf s1 l -> wf s1.
Proof.
  intros W Hlw F. destruct W as [Hs Hc HN Hn Hp Ht].
  destruct (frame_effect_sizes E b s s1 a CC rbuf wbuf l (proj1 HN) F)
    as (He & Ho & Hsv & _ & _).
  pose proof (fe_emitted _ _ _ _ _ _ _ _ _ F) as Fe.
  pose proof (fe_survivors _ _ _ _ _ _ _ _ _ F) as Fs.
  split.
  - rewrite (fe_vbo _ _ _ _ _ _ _ _ _ F), length_insert. exact Hs.
  - rewrite (fe_vbo _ _ _ _ _ _ _ _ _ F), (fe_capacity _ _ _ _ _ _ _ _ _ F).
    apply Forall_insert; [exact Hc|].
    rewrite length_written by lia. exact Hlw.
  - rewrite (fe_capacity _ _ _ _ _ _ _ _ _ F). exact HN.
  - rewrite (fe_n _ _ _ _ _ _ _ _ _ F), (fe_capacity _ _ _ _ _ _ _ _ _ F). lia.
  - rewrite (fe_p _ _ _ _ _ _ _ _ _ F). lia.
  - rewrite (fe_threshold1 _ _ _ _ _ _ _ _ _ F).
    exact (adjust_bounds _ _ _ Ht (fe_threshold _ _ _ _ _ _ _ _ _ F)).
Qed.

Lemma render_wf (E : Env) (s s1 : State) (a : FrameArgs) (l : FrameLog) :
  wf s -> render E s a = Some (s1, l) -> wf s1.
Proof.
  intros W H. destruct (render_effect E s s1 a l W H) as (CC & rbuf & wbuf & F & _ & Hlw).
  destruct (reset_event (arg_t a)).
  - apply (frame_effect_wf E _ _ _ _ _ _ _ _ (wf_reset E s W) Hlw F).
  - apply (frame_effect_wf E _ _ _ _ _ _ _ _ W Hlw F).
Qed.

Lemma init_wf (E : Env) (mem : list (list Particle)) :
  length mem = 2%nat -> Forall (fun b => Z.of_nat (length b) = 20000) mem ->
  wf (init E mem).
Proof.
  intros H2 Hall.
  split; cbn; try assumption; unfold threshold_default, threshold_max; lia.
Qed.

Lemma reachable_wf (E : Env) (s : State) : reachable E s -> wf s.
Proof.
  induction 1 as [mem H2 Hall|s s1 a l _ IH Hr].
  - apply init_wf; assumption.
  - exact (render_wf E s s1 a l IH Hr).
Qed.




(** ** The particle store across frames *)

(** C1 (as amended).  For every frame k run on a well-formed store: the
    occupancy stored for frame k+1 is emittedCount_k + survivorCount_k, and
    frame k+1 animates exactly that many particles unless the reset event
    fires in it, in which case it animates none; survivorCount_k is at
    most the occupancy n_k that frame k animated; and in a frame in which
    the emitter leaves room in the written (inactive) buffer, that is
    when emittedCount_k is below the capacity, the emitter's particles are
    at the head of that buffer and the survivors follow them from element
    offset emittedCount_k: they are the first that fit of the animation
    of the occupancy-many particles drawn from the buffer read. *)
Theorem occupancy_recurrence (E : Env) (s s1 : State) (a : FrameArgs) (l : FrameLog) :
  wf s -> render E s a = Some (s1, l) ->
  particles_vbo_n s1 = log_emitted l + log_survivors l /\
  (forall a2 s2 l2, render E s1 a2 = Some (s2, l2) ->
     log_occupancy l2 =
     if reset_event (arg_t a2) then 0 else log_emitted l + log_survivors l) /\
  log_write_slot l <> log_read_slot l /\
  log_emitted l = Z.of_nat (length (log_new l)) /\
  log_survivors l = Z.of_nat (length (log_kept l)) /\
  log_survivors l <= log_occupancy l /\
  (exists CC rbuf,
     shape_at E (arg_t a) = Some CC /\
     particles_vbo s !! Z.to_nat (log_read_slot l) = Some rbuf /\
     log_new l =
     take (Z.to_nat (particles_vbo_N s))
       (emitter_gs E (arg_P a) (log_threshold_used l) (log_offset l)
          (triangles (hpmc_extract E CC iso a))) /\
     (log_emitted l < particles_vbo_N s ->
      log_survivor_offset l = log_emitted l /\
      log_kept l =
      take (Z.to_nat (particles_vbo_N s) - length (log_new l))
        (animate E CC a iso_uniform (drawn E (log_occupancy l) rbuf)) /\
      exists buf, particles_vbo s1 !! Z.to_nat (log_write_slot l) = Some buf /\
        take (Z.to_nat (log_emitted l)) buf = log_new l /\
        take (Z.to_nat (log_survivors l)) (drop (Z.to_nat (log_emitted l)) buf)
        = log_kept l)).
Proof.
  intros W H.
  destruct (render_effect E s s1 a l W H) as (CC & rbuf & wbuf & F & Hlr & Hlw).
  set (su := if reset_event (arg_t a) then reset E s else s) in *.
  assert (Wu : wf su) by (subst su; destruct (reset_event _); [apply wf_reset|]; exact W).
  assert (Hvbo : particles_vbo su = particles_vbo s)
    by (subst su; destruct (reset_event _); reflexivity).
  assert (HN : particles_vbo_N su = particles_vbo_N s)
    by (subst su; destruct (reset_event _); reflexivity).
  destruct (frame_effect_sizes E _ su s1 a CC rbuf wbuf l (proj1 (wf_N su Wu)) F)
    as (He & Ho & Hsv & Hroom & _).
  destruct F as [Fshape Frb Fwb Foff Fnew Fem Fle Fso Fkept Fsu Fthr FN Frs Fres Ftu Fws Frd Focc
                   Fvbo Fp Fn Fcap Fthr1 Frand].
  pose proof (wf_p su Wu) as Hp. pose proof (wf_slots su Wu) as Hs.
  split; [exact Fn|]. split; [|split; [|split; [|split; [|split]]]].
  - intros a2 s2 l2 H2. unfold render in H2.
    destruct (reset_event (arg_t a2));
      apply render_frame_basic in H2;
      destruct H2 as (_ & _ & _ & _ & _ & _ & _ & _ & _ & _ & Hocc & _);
      rewrite Hocc; [reflexivity|exact Fn].
  - rewrite Fws, Frd. lia.
  - exact Fem.
  - exact Fsu.
  - rewrite Fsu, Fkept, Focc, length_take.
    pose proof (length_omap_le (anim_gs E CC a iso_uniform)
                  (drawn E (particles_vbo_n su) rbuf)) as Hle.
    unfold animate. rewrite length_drawn in Hle. pose proof (wf_n su Wu). lia.
  - exists CC, rbuf. split; [exact Fshape|]. split; [|split].
    + rewrite Frd, <- Hvbo. exact Frb.
    + rewrite Ftu, <- HN. exact Fnew.
    + rewrite <- HN. intros Hlt. specialize (Hroom Hlt).
      split; [exact Hroom|]. split.
      * rewrite Focc, Fkept, Hroom, Fem. f_equal. lia.
      * exists (log_new l ++ log_kept l
                ++ drop (length (log_new l) + length (log_kept l)) wbuf).
        split; [|split].
        -- rewrite Fvbo, Fws, Hroom, Fem, Nat2Z.id, written_room.
           apply list_lookup_insert_eq. rewrite Hs. lia.
        -- rewrite Fem, Nat2Z.id. apply take_app_length.
        -- rewrite Fem, Fsu, !Nat2Z.id, drop_app_length. apply take_app_length.
Qed.

(** C2 (as amended).  In every frame run on a well-formed store the
    buffer animated and the buffer written are distinct, both indices and
    the active index afterwards are in {0,1}, and the active index
    afterwards is the buffer written, the other one than the buffer read.
    The buffer read in a frame is the buffer written in the frame before
    unless the reset event fires in it; it is buffer 0 when it does. *)
Theorem double_buffer (E : Env) (s s1 : State) (a : FrameArgs) (l : FrameLog) :
  wf s -> render E s a = Some (s1, l) ->
  log_read_slot l <> log_write_slot l /\
  (log_read_slot l = 0 \/ log_read_slot l = 1) /\
  (log_write_slot l = 0 \/ log_write_slot l = 1) /\
  particles_vbo_p s1 = log_write_slot l /\
  particles_vbo_p s1 = 1 - log_read_slot l /\
  log_read_slot l = (if reset_event (arg_t a) then 0 else particles_vbo_p s) /\
  (forall a2 s2 l2, render E s1 a2 = Some (s2, l2) ->
     log_read_slot l2 = if reset_event (arg_t a2) then 0 else log_write_slot l).
Proof.
  intros W H.
  destruct (render_effect E s s1 a l W H) as (CC & rbuf & wbuf & F & _ & _).
  set (su := if reset_event (arg_t a) then reset E s else s) in *.
  assert (Wu : wf su) by (subst su; destruct (reset_event _); [apply wf_reset|]; exact W).
  pose proof (wf_p su Wu) as Hp.
  pose proof (fe_write_slot _ _ _ _ _ _ _ _ _ F) as Fws.
  pose proof (fe_read_slot _ _ _ _ _ _ _ _ _ F) as Frd.
  pose proof (fe_p _ _ _ _ _ _ _ _ _ F) as Fp.
  repeat split; try lia.
  - rewrite Frd. subst su. destruct (reset_event _); reflexivity.
  - intros a2 s2 l2 H2. unfold render in H2.
    destruct (reset_event (arg_t a2));
      apply render_frame_basic in H2;
      destruct H2 as (_ & _ & _ & _ & _ & _ & _ & Hr & _);
      rewrite Hr; [reflexivity|lia].
Qed.

(** ** The rate controller *)

Lemma render_threshold (E : Env) (s s1 : State) (a : FrameArgs) (l : FrameLog) :
  render E s a = Some (s1, l) ->
  log_threshold_used l = (if reset_event (arg_t a) then threshold_default else threshold s) /\
  adjust_threshold (log_threshold_used l) (particles_per_sec (log_emitted l) (arg_dt a))
    = Some (threshold s1) /\
  log_threshold l = threshold s1.
Proof.
  unfold render. intros H.
  destruct (reset_event (arg_t a));
    apply render_frame_basic in H;
    destruct H as (_ & _ & _ & Hu & _ & Hadj & H1 & _);
    rewrite Hu, H1; auto.
Qed.

Lemma threshold_used_bounds (E : Env) (s s1 : State) (a : FrameArgs) (l : FrameLog) :
  1 <= threshold s <= threshold_max -> render E s a = Some (s1, l) ->
  1 <= log_threshold_used l <= threshold_max.
Proof.
  intros Ht H. destruct (render_threshold E s s1 a l H) as (Hu & _ & _). rewrite Hu.
  destruct (reset_event _); [unfold threshold_default, threshold_max; lia|exact Ht].
Qed.

(** C3 (as amended).  For every frame in which the measured rate
    emittedCount / max(dt, 1e-5) exceeds F + eps = 4100, the next threshold
    equals min(thresholdMax, floor(threshold * 10.1)): the product is
    truncated, not rounded up.  From threshold = 250 with emittedCount =
    500 and dt = 1/60 the next threshold is 2525. *)
Theorem threshold_growth :
  (forall (E : Env) (s s1 : State) (a : FrameArgs) (l : FrameLog),
     wf s -> render E s a = Some (s1, l) ->
     flow_high (particles_per_sec (log_emitted l) (arg_dt a)) = true ->
     threshold s1 = Z.min threshold_max (101 * log_threshold_used l / 10)) /\
  adjust_threshold 250 (particles_per_sec 500 Demo.dt60) = Some 2525.
Proof.
  split; [|vm_compute; reflexivity].
  intros E s s1 a l W H Hhigh.
  pose proof (threshold_used_bounds E s s1 a l (wf_threshold s W) H) as Hb.
  destruct (render_threshold E s s1 a l H) as (_ & Hadj & _).
  rewrite (adjust_high _ _ Hb Hhigh) in Hadj. injection Hadj as <-. reflexivity.
Qed.

(** C4 (as amended).  For every frame, with rate the [float] the code
    computes for emittedCount / max(dt, 1e-5f), the quotient rounded to
    nearest: if rate < F - eps the next threshold is
    max(1, floor(threshold / 2)), and if F - eps <= rate <= F + eps the
    threshold is unchanged.  From threshold = 500 with dt = 1/60 and
    emittedCount = 10 the rate is below 3900 and the next threshold is
    250. *)
Theorem threshold_decay_and_hold :
  (forall (E : Env) (s s1 : State) (a : FrameArgs) (l : FrameLog),
     wf s -> render E s a = Some (s1, l) ->
     let rate := particles_per_sec (log_emitted l) (arg_dt a) in
     (SFltb rate (f32_of_Z (particle_flow - 100)) = true ->
      threshold s1 = Z.max 1 (log_threshold_used l / 2)) /\
     (SFleb (f32_of_Z (particle_flow - 100)) rate = true ->
      SFleb rate (f32_of_Z (particle_flow + 100)) = true ->
      threshold s1 = log_threshold_used l)) /\
  (flow_low (particles_per_sec 10 Demo.dt60) = true /\
   adjust_threshold 500 (particles_per_sec 10 Demo.dt60) = Some 250).
Proof.
  split; [|split; vm_compute; reflexivity].
  intros E s s1 a l W H rate.
  pose proof (threshold_used_bounds E s s1 a l (wf_threshold s W) H) as Hb.
  destruct (render_threshold E s s1 a l H) as (_ & Hadj & _). fold rate in Hadj.
  split.
  - intros Hlow. rewrite (adjust_low _ _ Hb Hlow) in Hadj. injection Hadj as <-. reflexivity.
  - intros H1 H2. apply SFleb_not_ltb in H1, H2.
    rewrite (adjust_mid _ _ H1 H2) in Hadj. injection Hadj as <-. reflexivity.
Qed.

Lemma run_threshold (E : Env) (frames : list FrameArgs) :
  forall (s s1 : State) (ls : list FrameLog),
    1 <= threshold s <= threshold_max -> run E s frames = Some (s1, ls) ->
    1 <= threshold s1 <= threshold_max /\
    Forall (fun l => 1 <= log_threshold_used l <= threshold_max /\
                     1 <= log_threshold l <= threshold_max) ls.
Proof.
  induction frames as [|a rest IH]; intros s s1 ls Ht H; cbn [run] in H.
  - injection H as <- <-. split; [exact Ht|constructor].
  - destruct (render E s a) as [[s2 l]|] eqn:Hr; [|discriminate H].
    destruct (run E s2 rest) as [[s3 ls3]|] eqn:Hrun; [|discriminate H].
    injection H as <- <-.
    pose proof (threshold_used_bounds E s s2 a l Ht Hr) as Hu.
    destruct (render_threshold E s s2 a l Hr) as (_ & Hadj & Hl).
    pose proof (adjust_bounds _ _ _ Hu Hadj) as H2.
    destruct (IH s2 s3 ls3 H2 Hrun) as [H3 Hall].
    split; [exact H3|]. constructor; [|exact Hall]. rewrite Hl. auto.
Qed.

(** C5.  In every run from [init], the threshold is within
    [1, thresholdMax = 100000] after initialization, after the reset block
    of every frame (the value the emitter uses), after the controller
    update of every frame, and when the run ends; and whatever the store,
    the reset block leaves it within these bounds. *)
Theorem threshold_invariant (E : Env) (mem : list (list Particle))
    (frames : list FrameArgs) (s : State) (ls : list FrameLog) :
  run E (init E mem) frames = Some (s, ls) ->
  1 <= threshold (init E mem) <= 100000 /\
  Forall (fun l => 1 <= log_threshold_used l <= 100000 /\
                   1 <= log_threshold l <= 100000) ls /\
  1 <= threshold s <= 100000 /\
  (forall s0, 1 <= threshold (reset E s0) <= 100000).
Proof.
  intros H.
  assert (H0 : 1 <= threshold (init E mem) <= threshold_max)
    by (cbn; unfold threshold_default, threshold_max; lia).
  destruct (run_threshold E frames _ _ _ H0 H) as [H1 Hall].
  unfold threshold_max in *. repeat split; try lia; try exact Hall.
  all: cbn; unfold threshold_default; lia.
Qed.

(** ** The triangle buffer *)

Lemma render_resize (E : Env) (s s1 : State) (a : FrameArgs) (l : FrameLog) :
  render E s a = Some (s1, l) ->
  0 <= log_N l /\ resize_mc_tri_vbo (mc_tri_vbo_N s) (log_N l) = Some (mc_tri_vbo_N s1).
Proof.
  unfold render. intros H.
  destruct (reset_event (arg_t a));
    apply render_frame_basic in H;
    destruct H as (_ & HN & Hres & _); (split; [exact HN|exact Hres]).
Qed.

Lemma run_capacity (E : Env) (frames : list FrameArgs) :
  forall (s s1 : State) (ls : list FrameLog),
    run E s frames = Some (s1, ls) -> mc_tri_vbo_N s <= mc_tri_vbo_N s1.
Proof.
  induction frames as [|a rest IH]; intros s s1 ls H; cbn [run] in H.
  - injection H as <- <-. lia.
  - destruct (render E s a) as [[s2 l]|] eqn:Hr; [|discriminate H].
    destruct (run E s2 rest) as [[s3 ls3]|] eqn:Hrun; [|discriminate H].
    injection H as <- <-.
    destruct (render_resize E s s2 a l Hr) as [HN Hres].
    destruct (resize_fits _ _ _ HN Hres) as [_ Hle].
    specialize (IH s2 s3 ls3 Hrun). lia.
Qed.

(** C6 (as amended).  For every frame, if the extracted vertex count N
    exceeds the capacity Ct of the triangle buffer, the capacity becomes
    the single-precision product 1.1f * (float)N truncated to an integer
    (not rounded up), and otherwise it is unchanged; the new capacity is
    at least N and at least Ct, so the capacity never decreases over a
    run; Ct = 3000 with N = 3500 yields 3850. *)
Theorem triangle_buffer_growth :
  (forall (E : Env) (s s1 : State) (a : FrameArgs) (l : FrameLog),
     render E s a = Some (s1, l) ->
     (mc_tri_vbo_N s < log_N l ->
      static_cast_int (f32_mul lit_1p1f (f32_of_Z (log_N l))) = Some (mc_tri_vbo_N s1)) /\
     (log_N l <= mc_tri_vbo_N s -> mc_tri_vbo_N s1 = mc_tri_vbo_N s) /\
     mc_tri_vbo_N s <= mc_tri_vbo_N s1 /\
     log_N l <= mc_tri_vbo_N s1) /\
  (forall (E : Env) (s s1 : State) (frames : list FrameArgs) (ls : list FrameLog),
     run E s frames = Some (s1, ls) -> mc_tri_vbo_N s <= mc_tri_vbo_N s1) /\
  resize_mc_tri_vbo 3000 3500 = Some 3850.
Proof.
  split; [|split; [|vm_compute; reflexivity]].
  - intros E s s1 a l H. destruct (render_resize E s s1 a l H) as [HN Hres].
    destruct (resize_fits _ _ _ HN Hres) as [Hfit Hle].
    repeat split; try assumption.
    + intros Hlt. unfold resize_mc_tri_vbo in Hres.
      replace (mc_tri_vbo_N s <? log_N l) with true in Hres
        by (symmetry; apply Z.ltb_lt; exact Hlt).
      exact Hres.
    + intros Hge. unfold resize_mc_tri_vbo in Hres.
      replace (mc_tri_vbo_N s <? log_N l) with false in Hres
        by (symmetry; apply Z.ltb_ge; exact Hge).
      injection Hres as <-. reflexivity.
  - intros E s s1 frames ls H. exact (run_capacity E frames s s1 ls H).
Qed.

(** ** The reset event *)

(** C7.  In every frame in which the reset event fires ([t < 1e-6]), the
    frame is the frame proper run on the store in which the occupancy is
    0, the threshold is its default 500 and the generator is reseeded with
    the fixed seed 42, all three at once: the emitter uses threshold 500
    and the offset drawn first after the reseeding, and the animation
    pass draws no particle and keeps none. *)
Theorem reset_event_resets_together (E : Env) (s : State) (a : FrameArgs) :
  reset_event (arg_t a) = true ->
  render E s a = render_frame E true (reset E s) a /\
  particles_vbo_n (reset E s) = 0 /\
  threshold (reset E s) = 500 /\
  rand_state (reset E s) = libc_srand E 42 /\
  (forall s1 l, render E s a = Some (s1, l) ->
     log_reset l = true /\
     log_occupancy l = 0 /\
     log_survivors l = 0 /\
     log_threshold_used l = 500 /\
     emitter_offset (RAND_MAX E) 500 (fst (libc_rand E (libc_srand E 42)))
       = Some (log_offset l)).
Proof.
  intros Ht. unfold render. rewrite Ht.
  split; [reflexivity|]. split; [reflexivity|]. split; [reflexivity|].
  split; [reflexivity|].
  intros s1 l H. apply render_frame_basic in H.
  destruct H as (Hr & _ & _ & Hu & Hoff & _ & _ & _ & _ & _ & Ho & Hs).
  split; [exact Hr|]. split; [exact Ho|]. split; [apply Hs; reflexivity|].
  split; [exact Hu|exact Hoff].
Qed.

(** C10.  In every frame in which the reset event fires, the reset block
    also sets the active buffer index to 0: the frame animates buffer 0
    and writes buffer 1, which is the active buffer afterwards. *)
Theorem reset_selects_slot_0 (E : Env) (s s1 : State) (a : FrameArgs) (l : FrameLog) :
  reset_event (arg_t a) = true -> render E s a = Some (s1, l) ->
  particles_vbo_p (reset E s) = 0 /\
  log_read_slot l = 0 /\
  log_write_slot l = 1 /\
  particles_vbo_p s1 = 1.
Proof.
  intros Ht H. unfold render in H. rewrite Ht in H.
  apply render_frame_basic in H.
  destruct H as (_ & _ & _ & _ & _ & _ & _ & Hr & Hw & Hp & _).
  cbn in Hr, Hw. rewrite Hp, Hw, Hr. repeat split.
Qed.

(** C9 (what the code does).  The claim is that the offset passed to the
    emitter satisfies 0 <= offset < threshold for every value [rand()]
    returns.  With glibc's [RAND_MAX = 2147483647], the quotient of line
    514 is exactly 1 when [rand()] returns 2147483584 or more, and the
    offset is then the threshold itself: 500 for threshold 500, and in a
    frame of a store whose threshold is 250 the emitter receives offset
    250. *)
Theorem emitter_offset_reaches_threshold :
  emitter_offset 2147483647 500 2147483647 = Some 500 /\
  emitter_offset 2147483647 500 2147483584 = Some 500 /\
  emitter_offset 2147483647 500 2147483583 = Some 499 /\
  match render Demo.env_max Demo.s0 Demo.a_low with
  | Some (_, l) => log_threshold_used l = 250 /\ log_offset l = 250
  | None => False
  end.
Proof.
  split; [vm_compute; reflexivity|]. split; [vm_compute; reflexivity|].
  split; [vm_compute; reflexivity|]. vm_compute. split; reflexivity.
Qed.

(** ** Determinism *)






(** * The theorems on explicit runs *)

Lemma demo_s0_wf : wf Demo.s0.
Proof.
  split.
  - reflexivity.
  - cbn. repeat constructor.
  - cbn. lia.
  - cbn. lia.
  - right. reflexivity.
  - cbn. unfold threshold_max. lia.
Qed.


Lemma demo_render_low : render Demo.env Demo.s0 Demo.a_low = Some (Demo.s_low, Demo.l_low).
Proof. vm_compute. reflexivity. Qed.

Lemma demo_render_high : render Demo.env Demo.s0 Demo.a_high = Some (Demo.s_high, Demo.l_high).
Proof. vm_compute. reflexivity. Qed.

Lemma demo_render_mid : render Demo.env Demo.s0 Demo.a_mid = Some (Demo.s_mid, Demo.l_mid).
Proof. vm_compute. reflexivity. Qed.

Lemma demo_render_reset :
  render Demo.env Demo.s0 Demo.a_reset = Some (Demo.s_reset, Demo.l_reset).
Proof. vm_compute. reflexivity. Qed.

Lemma demo_run_defined (s : State) (frames : list FrameArgs) :
  Demo.defined (run Demo.env s frames) = true ->
  exists s1 ls, run Demo.env s frames = Some (s1, ls).
Proof.
  destruct (run Demo.env s frames) as [[s1 ls]|]; [|discriminate].
  intros _. exists s1, ls. reflexivity.
Qed.

(** A frame of [s0] at a low rate: three particles are stored for the next
    frame, two new ones and one survivor of the one that was live, which
    is written after the two. *)
Lemma occupancy_recurrence_witness :
  wf Demo.s0 /\
  render Demo.env Demo.s0 Demo.a_low = Some (Demo.s_low, Demo.l_low) /\
  log_emitted Demo.l_low < particles_vbo_N Demo.s0 /\
  particles_vbo_n Demo.s_low = log_emitted Demo.l_low + log_survivors Demo.l_low /\
  log_survivors Demo.l_low <= log_occupancy Demo.l_low /\
  log_survivor_offset Demo.l_low = log_emitted Demo.l_low.
Proof.
  assert (Hlt : log_emitted Demo.l_low < particles_vbo_N Demo.s0) by (vm_compute; reflexivity).
  split; [exact demo_s0_wf|]. split; [exact demo_render_low|]. split; [exact Hlt|].
  destruct (occupancy_recurrence Demo.env Demo.s0 Demo.s_low Demo.a_low Demo.l_low
              demo_s0_wf demo_render_low)
    as (H1 & _ & _ & _ & _ & H6 & CC & rbuf & _ & _ & _ & Hroom).
  exact (conj H1 (conj H6 (proj1 (Hroom Hlt)))).
Defined.

(** Two reset frames in a row from [init]: the first stores one particle,
    the second animates none. *)
Lemma occupancy_recurrence_fails_at_reset :
  match Demo.logs (init Demo.env Demo.mem) [Demo.a_reset; Demo.a_reset] with
  | [l1; l2] =>
      log_reset l2 = true /\
      log_emitted l1 + log_survivors l1 = 1 /\
      log_occupancy l2 = 0 /\
      log_occupancy l2 <> log_emitted l1 + log_survivors l1
  | _ => False
  end.
Proof. vm_compute. repeat split. discriminate. Qed.

(** The same frame of [s0]: buffer 1 is read, buffer 0 written. *)
Lemma double_buffer_witness :
  wf Demo.s0 /\
  render Demo.env Demo.s0 Demo.a_low = Some (Demo.s_low, Demo.l_low) /\
  log_read_slot Demo.l_low <> log_write_slot Demo.l_low /\
  particles_vbo_p Demo.s_low = log_write_slot Demo.l_low.
Proof.
  split; [exact demo_s0_wf|]. split; [exact demo_render_low|].
  destruct (double_buffer Demo.env Demo.s0 Demo.s_low Demo.a_low Demo.l_low
              demo_s0_wf demo_render_low)
    as (H1 & _ & _ & H4 & _).
  exact (conj H1 H4).
Defined.

(** Two reset frames in a row from [init]: the first writes buffer 1, the
    second reads buffer 0. *)
Lemma read_slot_differs_at_reset :
  match Demo.logs (init Demo.env Demo.mem) [Demo.a_reset; Demo.a_reset] with
  | [l1; l2] =>
      log_reset l2 = true /\
      log_write_slot l1 = 1 /\
      log_read_slot l2 = 0 /\
      log_read_slot l2 <> log_write_slot l1
  | _ => False
  end.
Proof. vm_compute. repeat split. discriminate. Qed.

(** A frame of [s0] at a high rate: 250 becomes 2525. *)
Lemma threshold_growth_witness :
  wf Demo.s0 /\
  render Demo.env Demo.s0 Demo.a_high = Some (Demo.s_high, Demo.l_high) /\
  flow_high (particles_per_sec (log_emitted Demo.l_high) (arg_dt Demo.a_high)) = true /\
  threshold Demo.s_high = Z.min threshold_max (101 * log_threshold_used Demo.l_high / 10).
Proof.
  assert (Hh : flow_high (particles_per_sec (log_emitted Demo.l_high) (arg_dt Demo.a_high))
               = true) by (vm_compute; reflexivity).
  split; [exact demo_s0_wf|]. split; [exact demo_render_high|]. split; [exact Hh|].
  exact (proj1 threshold_growth Demo.env Demo.s0 Demo.s_high Demo.a_high Demo.l_high
           demo_s0_wf demo_render_high Hh).
Defined.

(** The third frame of a run from [init] starts from threshold 125 at a
    high rate and ends with 1262, where rounding up gives 1263. *)
Lemma threshold_growth_not_ceil :
  match Demo.logs (init Demo.env Demo.mem) [Demo.a_reset; Demo.a_low; Demo.a_high] with
  | [_; _; l3] =>
      flow_high (particles_per_sec (log_emitted l3) (arg_dt Demo.a_high)) = true /\
      log_threshold_used l3 = 125 /\
      log_threshold l3 = 1262 /\
      Z.min threshold_max (spec_ceil_10p1 (log_threshold_used l3)) = 1263 /\
      log_threshold l3 <> Z.min threshold_max (spec_ceil_10p1 (log_threshold_used l3))
  | _ => False
  end.
Proof. vm_compute. repeat split. discriminate. Qed.

(** Frames of [s0] at a low and at a medium rate: 250 becomes 125, and
    250 stays. *)
Lemma threshold_decay_and_hold_witness :
  wf Demo.s0 /\
  render Demo.env Demo.s0 Demo.a_low = Some (Demo.s_low, Demo.l_low) /\
  render Demo.env Demo.s0 Demo.a_mid = Some (Demo.s_mid, Demo.l_mid) /\
  threshold Demo.s_low = Z.max 1 (log_threshold_used Demo.l_low / 2) /\
  threshold Demo.s_mid = log_threshold_used Demo.l_mid.
Proof.
  split; [exact demo_s0_wf|]. split; [exact demo_render_low|].
  split; [exact demo_render_mid|]. split.
  - apply (proj1 threshold_decay_and_hold Demo.env Demo.s0 Demo.s_low Demo.a_low Demo.l_low
             demo_s0_wf demo_render_low).
    vm_compute. reflexivity.
  - apply (proj1 threshold_decay_and_hold Demo.env Demo.s0 Demo.s_mid Demo.a_mid Demo.l_mid
             demo_s0_wf demo_render_mid); vm_compute; reflexivity.
Defined.

(** Sixty particles in a frame of [dt = 1/65] from threshold 500: the
    exact rate 60 / dt is below 3900, the quotient the code rounds to a
    [float] is 3900, and the threshold stays 500 where halving gives
    250. *)
Lemma threshold_held_below_3900 :
  wf Demo.s_500 /\
  render Demo.env_sixty Demo.s_500 Demo.a_65 = Some (Demo.s_held, Demo.l_held) /\
  log_emitted Demo.l_held = 60 /\
  log_threshold_used Demo.l_held = 500 /\
  Exact.spec_rate_low (log_emitted Demo.l_held) (arg_dt Demo.a_65) /\
  particles_per_sec (log_emitted Demo.l_held) (arg_dt Demo.a_65)
    = f32_of_Z (particle_flow - 100) /\
  threshold Demo.s_held = 500 /\
  threshold Demo.s_held <> Z.max 1 (log_threshold_used Demo.l_held / 2).
Proof.
  split.
  { split.
    - reflexivity.
    - cbn. repeat constructor.
    - cbn. lia.
    - cbn. lia.
    - left. reflexivity.
    - cbn. unfold threshold_max. lia. }
  vm_compute. repeat split. discriminate.
Qed.

Lemma demo_run3_defined :
  Demo.defined (run Demo.env (init Demo.env Demo.mem)
                  [Demo.a_reset; Demo.a_low; Demo.a_high]) = true.
Proof. vm_compute. reflexivity. Qed.

(** A run of three frames from [init]. *)
Lemma threshold_invariant_witness :
  exists s ls,
    run Demo.env (init Demo.env Demo.mem) [Demo.a_reset; Demo.a_low; Demo.a_high]
      = Some (s, ls) /\
    Forall (fun l => 1 <= log_threshold_used l <= 100000 /\
                     1 <= log_threshold l <= 100000) ls /\
    1 <= threshold s <= 100000.
Proof.
  destruct (demo_run_defined _ _ demo_run3_defined) as (s & ls & H).
  exists s, ls. split; [exact H|].
  destruct (threshold_invariant Demo.env Demo.mem _ s ls H) as (_ & H2 & H3 & _).
  exact (conj H2 H3).
Defined.

(** A frame of [s0]: 1500 vertices do not fit in 1000, the capacity becomes
    1650. *)
Lemma triangle_buffer_growth_witness :
  render Demo.env Demo.s0 Demo.a_low = Some (Demo.s_low, Demo.l_low) /\
  mc_tri_vbo_N Demo.s0 < log_N Demo.l_low /\
  static_cast_int (f32_mul lit_1p1f (f32_of_Z (log_N Demo.l_low)))
    = Some (mc_tri_vbo_N Demo.s_low) /\
  mc_tri_vbo_N Demo.s0 <= mc_tri_vbo_N Demo.s_low.
Proof.
  assert (Hlt : mc_tri_vbo_N Demo.s0 < log_N Demo.l_low) by (vm_compute; reflexivity).
  split; [exact demo_render_low|]. split; [exact Hlt|].
  destruct (proj1 triangle_buffer_growth Demo.env Demo.s0 Demo.s_low Demo.a_low Demo.l_low
              demo_render_low) as (H1 & _ & H3 & _).
  exact (conj (H1 Hlt) H3).
Defined.

(** 3003 vertices in a buffer of 3000: the capacity becomes 3303, where
    rounding 1.1 * 3003 up gives 3304. *)
Lemma resize_not_ceil :
  resize_mc_tri_vbo 3000 3003 = Some 3303 /\
  spec_ceil_1p1 3003 = 3304 /\
  resize_mc_tri_vbo 3000 3003 <> Some (spec_ceil_1p1 3003).
Proof. vm_compute. repeat split. discriminate. Qed.

(** A reset frame in [s0], whose occupancy is 1 and whose threshold is
    250. *)
Lemma reset_event_resets_together_witness :
  reset_event (arg_t Demo.a_reset) = true /\
  render Demo.env Demo.s0 Demo.a_reset = Some (Demo.s_reset, Demo.l_reset) /\
  log_occupancy Demo.l_reset = 0 /\
  log_survivors Demo.l_reset = 0 /\
  log_threshold_used Demo.l_reset = 500.
Proof.
  assert (Hr : reset_event (arg_t Demo.a_reset) = true) by (vm_compute; reflexivity).
  split; [exact Hr|]. split; [exact demo_render_reset|].
  destruct (reset_event_resets_together Demo.env Demo.s0 Demo.a_reset Hr)
    as (_ & _ & _ & _ & H).
  destruct (H Demo.s_reset Demo.l_reset demo_render_reset) as (_ & H2 & H3 & H4 & _).
  exact (conj H2 (conj H3 H4)).
Defined.





(** A reset frame in [s0], whose active buffer is 1. *)
Lemma reset_selects_slot_0_witness :
  reset_event (arg_t Demo.a_reset) = true /\
  render Demo.env Demo.s0 Demo.a_reset = Some (Demo.s_reset, Demo.l_reset) /\
  particles_vbo_p Demo.s0 = 1 /\
  log_read_slot Demo.l_reset = 0 /\
  log_write_slot Demo.l_reset = 1.
Proof.
  assert (Hr : reset_event (arg_t Demo.a_reset) = true) by (vm_compute; reflexivity).
  split; [exact Hr|]. split; [exact demo_render_reset|]. split; [reflexivity|].
  destruct (reset_selects_slot_0 Demo.env Demo.s0 Demo.s_reset Demo.a_reset Demo.l_reset
              Hr demo_render_reset) as (_ & H2 & H3 & _).
  exact (conj H2 H3).
Defined.

(** * Further properties of the program *)

(** ** Signs and special values of the arithmetic *)

Lemma shr_nonneg (r : shr_record) (e n : Z) :
  0 <= shr_m r -> 0 <= shr_m (fst (shr r e n)).
Proof.
  intros H. unfold shr. destruct n as [|p|p]; cbn [fst]; try exact H.
  rewrite shr_m_iter by exact H. apply Z.div_pos; lia.
Qed.

Lemma shr_fexp_nonneg (prec emax m e : Z) (l : location) :
  0 <= m -> 0 <= shr_m (fst (shr_fexp prec emax m e l)).
Proof.
  intros H. unfold shr_fexp. apply shr_nonneg. rewrite shr_m_of_loc. exact H.
Qed.

(** Rounding a non-negative mantissa never gives NaN, and keeps the sign. *)
Lemma binary_round_aux_sign (prec emax : Z) (s : bool) (m e : Z) (l : location) :
  0 <= m -> has_sign s (binary_round_aux prec emax s m e l) = true.
Proof.
  intros Hm. unfold binary_round_aux.
  pose proof (shr_fexp_nonneg prec emax m e l Hm) as H1.
  destruct (shr_fexp prec emax m e l) as [r1 e1]. cbn [fst] in H1.
  assert (H2 : 0 <= round_nearest_even (shr_m r1) (loc_of_shr_record r1))
    by (destruct (round_nearest_even_cases (shr_m r1) (loc_of_shr_record r1)) as [-> | ->]; lia).
  pose proof (shr_fexp_nonneg prec emax _ e1 loc_Exact H2) as H3.
  destruct (shr_fexp prec emax _ e1 loc_Exact) as [r2 e2]. cbn [fst] in H3.
  destruct (shr_m r2) as [|p|p]; [| |lia].
  - cbn. apply eqb_reflx.
  - destruct (e2 <=? emax - prec); cbn; apply eqb_reflx.
Qed.

Lemma binary_round_sign (prec emax : Z) (s : bool) (m : positive) (e : Z) :
  has_sign s (binary_round prec emax s m e) = true.
Proof.
  unfold binary_round. destruct (shl_align _ _ _) as [mz ez].
  apply binary_round_aux_sign. lia.
Qed.

Lemma SFdiv_core_nonneg (prec emax : Z) (m1 m2 : positive) (e1 e2 : Z) :
  0 <= fst (fst (SFdiv_core_binary prec emax (Zpos m1) e1 (Zpos m2) e2)).
Proof.
  unfold SFdiv_core_binary.
  set (s := e1 - e2 - _).
  set (m' := match s with Z0 => Zpos m1 | Zpos _ => Z.shiftl (Zpos m1) s | Zneg _ => 0 end).
  assert (Hm : 0 <= m') by (subst m'; destruct s; try lia; apply Z.shiftl_nonneg; lia).
  destruct (Z.div_eucl m' (Zpos m2)) as [q r] eqn:D. cbn [fst].
  assert (Hq : q = m' / Zpos m2) by (unfold Z.div; rewrite D; reflexivity).
  rewrite Hq. apply Z.div_pos; lia.
Qed.

(** A quotient of finite values is never NaN and has the sign of the
    operands. *)
Lemma SFdiv_finite_sign (prec emax : Z) (sx sy : bool) (mx my : positive) (ex ey : Z) :
  has_sign (xorb sx sy)
    (SFdiv prec emax (S754_finite sx mx ex) (S754_finite sy my ey)) = true.
Proof.
  cbn [SFdiv].
  pose proof (SFdiv_core_nonneg prec emax mx my ex ey) as H.
  destruct (SFdiv_core_binary prec emax (Zpos mx) ex (Zpos my) ey) as [[mz ez] lz].
  cbn [fst] in H. apply binary_round_aux_sign. exact H.
Qed.

(** The conversion of an unsigned 32-bit count to [float]. *)
Lemma f32_of_GLuint (n : Z) :
  0 <= n < 2 ^ 32 ->
  f32_of_Z n = S754_zero false \/ exists m e, f32_of_Z n = S754_finite false m e.
Proof.
  intros Hn. destruct n as [|p|p]; [left; reflexivity| |lia].
  right. destruct (f32_of_Z_normal p) as (mx & ex & E & Hex & _).
  pose proof (digits2_bounds p) as [Dlo _].
  assert (Hd : Zpos (digits2_pos p) <= 32).
  { destruct (Z_lt_le_dec 32 (Zpos (digits2_pos p))) as [C|C]; [|lia].
    assert (2 ^ 32 <= 2 ^ (Zpos (digits2_pos p) - 1)) by (apply Z.pow_le_mono_r; lia).
    lia. }
  exists mx, ex. rewrite E.
  replace (ex <=? 104) with true by (symmetry; apply Z.leb_le; lia). reflexivity.
Qed.

(** The divisor of line 543 is a positive number, whatever [dt] is. *)
Lemma max_dt_positive (dt : spec_float) :
  std_max lit_1em5f dt = S754_infinity false \/
  exists m e, std_max lit_1em5f dt = S754_finite false m e.
Proof.
  unfold std_max. destruct (SFltb lit_1em5f dt) eqn:C.
  - unfold SFltb, lit_1em5f in C.
    destruct dt as [s|s| |s m e]; cbn [SFcompare] in C; try discriminate C;
      destruct s; try discriminate C.
    + left. reflexivity.
    + right. eexists _, _. reflexivity.
  - right. eexists _, _. reflexivity.
Qed.

Lemma SFleb_of_not_ltb (x y : spec_float) :
  x <> S754_nan -> y <> S754_nan -> SFltb x y = false -> SFleb y x = true.
Proof.
  intros Hx Hy. unfold SFleb, SFltb. rewrite (SFcompare_antisym x y).
  destruct x as [sx|sx| |sx mx ex], y as [sy|sy| |sy my ey]; try congruence;
    destruct (SFcompare _ _) as [[| |]|] eqn:C; cbn [CompOpp]; try reflexivity;
    try discriminate;
    cbn [SFcompare] in C; repeat match type of C with
      | context [if ?b then _ else _] => destruct b
      | context [match ?c with Eq => _ | Lt => _ | Gt => _ end] => destruct c
      end; discriminate C.
Qed.

Lemma has_sign_not_nan (s : bool) (x : spec_float) : has_sign s x = true -> x <> S754_nan.
Proof. intros H ->. discriminate H. Qed.

Lemma pps_sign (emitter_result : Z) (dt : spec_float) :
  0 <= emitter_result < 2 ^ 32 ->
  has_sign false (particles_per_sec emitter_result dt) = true.
Proof.
  intros He. unfold particles_per_sec, f32_div.
  destruct (f32_of_GLuint emitter_result He) as [-> | (mx & ex & ->)];
    destruct (max_dt_positive dt) as [-> | (my & ey & ->)]; try reflexivity.
  apply (SFdiv_finite_sign prec32 emax32 false false).
Qed.

(** A frame that emits nothing measures the rate [+0]. *)
Lemma pps_zero (dt : spec_float) : particles_per_sec 0 dt = S754_zero false.
Proof.
  unfold particles_per_sec, f32_div. change (f32_of_Z 0) with (S754_zero false).
  destruct (max_dt_positive dt) as [-> | (my & ey & ->)]; reflexivity.
Qed.

(** ** The particle store *)

Lemma reachable_capacity (E : Env) (s : State) : reachable E s -> particles_vbo_N s = 20000.
Proof.
  induction 1 as [mem H2 Hall|s s1 a l Hs IH Hr]; [reflexivity|].
  destruct (render_effect E s s1 a l (reachable_wf E s Hs) Hr) as (CC & rbuf & wbuf & F & _).
  rewrite (fe_capacity _ _ _ _ _ _ _ _ _ F). destruct (reset_event _); exact IH.
Qed.

(** X1.  In every state the program reaches from [init], each of the two
    particle buffers holds 20000 records (they are never reallocated),
    the occupancy is between 0 and 40000, and the active index is 0 or
    1. *)
Theorem particle_store_invariant (E : Env) (s : State) :
  reachable E s ->
  particles_vbo_N s = 20000 /\
  0 <= particles_vbo_n s <= 40000 /\
  (particles_vbo_p s = 0 \/ particles_vbo_p s = 1) /\
  exists b0 b1,
    particles_vbo s = [b0; b1] /\
    Z.of_nat (length b0) = 20000 /\ Z.of_nat (length b1) = 20000.
Proof.
  intros R. pose proof (reachable_wf E s R) as W.
  pose proof (reachable_capacity E s R) as HN.
  destruct (wf_buffers s W) as (b0 & b1 & Hvbo & H0 & H1).
  pose proof (wf_n s W) as Hn. rewrite HN in *.
  split; [reflexivity|]. split; [lia|]. split; [exact (wf_p s W)|].
  exists b0, b1. split; [exact Hvbo|]. lia.
Qed.

Lemma trace_mem_reachable : reachable Demo.env (init Demo.env Demo.mem).
Proof.
  apply reachable_init; [reflexivity|].
  repeat constructor; vm_compute; reflexivity.
Qed.

Lemma trace_reset_defined :
  Demo.defined (render Demo.env (init Demo.env Demo.mem) Demo.a_reset) = true.
Proof. vm_compute. reflexivity. Qed.

(** The state after the first frame of a run from [init]. *)
Lemma particle_store_invariant_witness :
  exists s l,
    render Demo.env (init Demo.env Demo.mem) Demo.a_reset = Some (s, l) /\
    particles_vbo_N s = 20000 /\ 0 <= particles_vbo_n s <= 40000.
Proof.
  destruct (render Demo.env (init Demo.env Demo.mem) Demo.a_reset) as [[s l]|] eqn:H;
    [|exact (False_ind _ (Bool.diff_false_true
               (eq_trans (f_equal Demo.defined (eq_sym H)) trace_reset_defined)))].
  exists s, l. split; [reflexivity|].
  destruct (particle_store_invariant Demo.env s
              (reachable_render Demo.env _ s Demo.a_reset l trace_mem_reachable H))
    as (H1 & H2 & _).
  exact (conj H1 H2).
Defined.

(** X2.  A frame changes only the buffer it writes: the buffer it reads
    is left as it was, and the buffer written keeps its length.  When the
    emitter leaves room, only the records below the new occupancy change:
    they are the emitted particles followed by the survivors, and the
    records above keep what the buffer held before.  When the emitter
    fills the buffer, the range for the survivors is empty, the binding
    of the whole buffer stays, and the survivors overwrite the first of
    the emitted particles. *)
Theorem frame_writes_one_buffer (E : Env) (s s1 : State) (a : FrameArgs) (l : FrameLog) :
  wf s -> render E s a = Some (s1, l) ->
  particles_vbo s1 !! Z.to_nat (log_read_slot l)
    = particles_vbo s !! Z.to_nat (log_read_slot l) /\
  exists wbuf buf,
    particles_vbo s !! Z.to_nat (log_write_slot l) = Some wbuf /\
    particles_vbo s1 !! Z.to_nat (log_write_slot l) = Some buf /\
    length buf = length wbuf /\
    (log_emitted l < particles_vbo_N s ->
     take (Z.to_nat (particles_vbo_n s1)) buf = log_new l ++ log_kept l /\
     drop (Z.to_nat (particles_vbo_n s1)) buf = drop (Z.to_nat (particles_vbo_n s1)) wbuf) /\
    (log_emitted l = particles_vbo_N s ->
     log_survivor_offset l = 0 /\
     buf = log_kept l ++ drop (length (log_kept l)) (log_new l)).
Proof.
  intros W H.
  destruct (render_effect E s s1 a l W H) as (CC & rbuf & wbuf & F & Hlr & Hlw).
  set (su := if reset_event (arg_t a) then reset E s else s) in *.
  assert (Wu : wf su) by (subst su; destruct (reset_event _); [apply wf_reset|]; exact W).
  assert (Hvbo : particles_vbo su = particles_vbo s)
    by (subst su; destruct (reset_event _); reflexivity).
  assert (HNu : particles_vbo_N su = particles_vbo_N s)
    by (subst su; destruct (reset_event _); reflexivity).
  pose proof (wf_p su Wu) as Hp. pose proof (wf_slots s W) as Hs.
  pose proof (wf_N s W) as HN.
  destruct (frame_effect_sizes E _ su s1 a CC rbuf wbuf l (proj1 (wf_N su Wu)) F)
    as (He & Ho & Hsv & Hroom & Hfull).
  pose proof (fe_vbo _ _ _ _ _ _ _ _ _ F) as Fvbo.
  pose proof (fe_wbuf _ _ _ _ _ _ _ _ _ F) as Fw.
  pose proof (fe_emitted _ _ _ _ _ _ _ _ _ F) as Fe.
  pose proof (fe_survivors _ _ _ _ _ _ _ _ _ F) as Fsu.
  rewrite (fe_read_slot _ _ _ _ _ _ _ _ _ F), (fe_write_slot _ _ _ _ _ _ _ _ _ F),
    (fe_n _ _ _ _ _ _ _ _ _ F).
  rewrite Hvbo in Fvbo, Fw. rewrite HNu in *.
  rewrite Fvbo. split.
  - apply list_lookup_insert_ne. destruct Hp as [-> | ->]; discriminate.
  - exists wbuf. eexists. split; [exact Fw|]. split.
    + apply list_lookup_insert_eq. rewrite Hs. destruct Hp as [-> | ->]; cbn; lia.
    + split; [apply length_written; lia|]. split.
      * intros Hlt. rewrite (Hroom Hlt), Fe, Nat2Z.id, written_room, Fsu.
        replace (Z.to_nat (Z.of_nat (length (log_new l)) + Z.of_nat (length (log_kept l))))
          with (length (log_new l) + length (log_kept l))%nat by lia.
        rewrite app_assoc. split.
        -- rewrite take_app_length'; [reflexivity|]. rewrite length_app. reflexivity.
        -- rewrite drop_app_length'; [reflexivity|]. rewrite length_app. reflexivity.
      * intros Heq. split; [exact (Hfull Heq)|].
        rewrite (Hfull Heq). change (Z.to_nat 0) with 0%nat.
        apply written_full. lia.
Qed.

(** A frame of [s0]: buffer 1 is read and kept, buffer 0 receives two
    new particles and one survivor; and a frame of [s_one], in which the
    emitter fills buffer 0 and the survivor is written over the first
    emitted particle. *)
Lemma frame_writes_one_buffer_witness :
  wf Demo.s0 /\
  render Demo.env Demo.s0 Demo.a_low = Some (Demo.s_low, Demo.l_low) /\
  particles_vbo Demo.s_low !! 1%nat = particles_vbo Demo.s0 !! 1%nat /\
  wf Demo.s_one /\
  render Demo.env Demo.s_one Demo.a_low = Some (Demo.s_full, Demo.l_full) /\
  log_emitted Demo.l_full = particles_vbo_N Demo.s_one /\
  log_survivor_offset Demo.l_full = 0 /\
  particles_vbo Demo.s_full !! 0%nat = Some (Demo.aged :: replicate 7 Demo.fresh).
Proof.
  assert (W1 : wf Demo.s_one).
  { split.
    - reflexivity.
    - cbn. repeat constructor.
    - cbn. lia.
    - cbn. lia.
    - right. reflexivity.
    - cbn. unfold threshold_max. lia. }
  assert (R1 : render Demo.env Demo.s_one Demo.a_low = Some (Demo.s_full, Demo.l_full))
    by (vm_compute; reflexivity).
  assert (E1 : log_emitted Demo.l_full = particles_vbo_N Demo.s_one) by reflexivity.
  split; [exact demo_s0_wf|]. split; [exact demo_render_low|].
  split; [exact (proj1 (frame_writes_one_buffer Demo.env Demo.s0 Demo.s_low Demo.a_low
                          Demo.l_low demo_s0_wf demo_render_low))|].
  split; [exact W1|]. split; [exact R1|]. split; [exact E1|].
  destruct (frame_writes_one_buffer Demo.env Demo.s_one Demo.s_full Demo.a_low Demo.l_full
              W1 R1) as (_ & wbuf & buf & _ & Hb & _ & _ & Hfull).
  destruct (Hfull E1) as [H0 Hbuf].
  split; [exact H0|]. rewrite Hbuf in Hb. exact Hb.
Defined.

(** X3.  Transform feedback drops a particle only for lack of room.  In
    every frame the particles stored from the emitter are the first that
    fit in the buffer, the survivors are written from the end of the
    emitted particles when these leave room and from the start of the
    buffer when they do not, and their number is the smaller of the
    number of particles the animation keeps alive and the room from that
    offset; whatever fits is stored. *)
Theorem particles_dropped_only_when_full (E : Env) (s s1 : State) (a : FrameArgs)
    (l : FrameLog) :
  wf s -> render E s a = Some (s1, l) ->
  exists CC rbuf,
    shape_at E (arg_t a) = Some CC /\
    particles_vbo s !! Z.to_nat (log_read_slot l) = Some rbuf /\
    let out := emitter_gs E (arg_P a) (log_threshold_used l) (log_offset l)
                 (triangles (hpmc_extract E CC iso a)) in
    let alive := animate E CC a iso_uniform (drawn E (log_occupancy l) rbuf) in
    log_emitted l = Z.min (Z.of_nat (length out)) (particles_vbo_N s) /\
    (Z.of_nat (length out) <= particles_vbo_N s -> log_new l = out) /\
    log_survivor_offset l
      = (if log_emitted l <? particles_vbo_N s then log_emitted l else 0) /\
    log_survivors l
      = Z.min (Z.of_nat (length alive)) (particles_vbo_N s - log_survivor_offset l) /\
    (Z.of_nat (length alive) <= particles_vbo_N s - log_survivor_offset l ->
     log_kept l = alive).
Proof.
  intros W H.
  destruct (render_effect E s s1 a l W H) as (CC & rbuf & wbuf & F & Hlr & Hlw).
  set (su := if reset_event (arg_t a) then reset E s else s) in *.
  assert (Wu : wf su) by (subst su; destruct (reset_event _); [apply wf_reset|]; exact W).
  assert (Hvbo : particles_vbo su = particles_vbo s)
    by (subst su; destruct (reset_event _); reflexivity).
  assert (HNu : particles_vbo_N su = particles_vbo_N s)
    by (subst su; destruct (reset_event _); reflexivity).
  pose proof (wf_N s W) as HN.
  destruct (frame_effect_sizes E _ su s1 a CC rbuf wbuf l (proj1 (wf_N su Wu)) F)
    as (He & Ho & Hsv & _ & _).
  pose proof (fe_rbuf _ _ _ _ _ _ _ _ _ F) as Fr.
  pose proof (fe_new _ _ _ _ _ _ _ _ _ F) as Fnew.
  pose proof (fe_kept _ _ _ _ _ _ _ _ _ F) as Fkept.
  pose proof (fe_survivor_offset _ _ _ _ _ _ _ _ _ F) as Fso.
  pose proof (fe_emitted _ _ _ _ _ _ _ _ _ F) as Fe.
  pose proof (fe_survivors _ _ _ _ _ _ _ _ _ F) as Fs.
  rewrite (fe_read_slot _ _ _ _ _ _ _ _ _ F), (fe_threshold_used _ _ _ _ _ _ _ _ _ F),
    (fe_occupancy _ _ _ _ _ _ _ _ _ F).
  rewrite Hvbo in Fr. rewrite HNu in *.
  exists CC, rbuf. split; [exact (fe_shape _ _ _ _ _ _ _ _ _ F)|]. split; [exact Fr|].
  cbv zeta.
  set (out := emitter_gs E _ _ _ _) in *.
  set (alive := animate E _ _ _ _) in *.
  split; [rewrite Fe, Fnew, length_take; lia|].
  split; [intros Hfit; rewrite Fnew; apply take_ge; lia|].
  split; [exact Fso|].
  split; [rewrite Fs, Fkept, length_take; lia|].
  intros Hfit. rewrite Fkept. apply take_ge. lia.
Qed.

(** A frame of [s0]: the single live particle survives, with room for
    six. *)
Lemma particles_dropped_only_when_full_witness :
  wf Demo.s0 /\
  render Demo.env Demo.s0 Demo.a_low = Some (Demo.s_low, Demo.l_low) /\
  log_emitted Demo.l_low = 2 /\
  log_survivors Demo.l_low = 1 /\
  exists CC rbuf,
    shape_at Demo.env (arg_t Demo.a_low) = Some CC /\
    particles_vbo Demo.s0 !! Z.to_nat (log_read_slot Demo.l_low) = Some rbuf /\
    log_survivors Demo.l_low =
      Z.min (Z.of_nat (length (animate Demo.env CC Demo.a_low iso_uniform
                                 (drawn Demo.env (log_occupancy Demo.l_low) rbuf))))
            (particles_vbo_N Demo.s0 - log_survivor_offset Demo.l_low).
Proof.
  split; [exact demo_s0_wf|]. split; [exact demo_render_low|].
  split; [reflexivity|]. split; [reflexivity|].
  destruct (particles_dropped_only_when_full Demo.env Demo.s0 Demo.s_low Demo.a_low
              Demo.l_low demo_s0_wf demo_render_low)
    as (CC & rbuf & H1 & H2 & _ & _ & _ & H4 & _).
  exists CC, rbuf. exact (conj H1 (conj H2 H4)).
Defined.

(** ** The triangle buffer *)

Lemma render_frame_triangles (E : Env) (b : bool) (s s1 : State) (a : FrameArgs)
    (l : FrameLog) :
  render_frame E b s a = Some (s1, l) ->
  exists CC,
    shape_at E (arg_t a) = Some CC /\
    mc_tri_vbo s1 = take (Z.to_nat (mc_tri_vbo_N s1)) (hpmc_extract E CC iso a) /\
    log_N l = Z.of_nat (length (hpmc_extract E CC iso a)) /\
    anim_result s1 = log_survivors l.
Proof.
  unfold render_frame. intros H.
  destruct (shape_at E (arg_t a)) as [CC|]; [|discriminate H].
  exists CC. split; [reflexivity|].
  frame_cases H. injection H as <- <-. proj_simpl. auto.
Qed.

Lemma shiftl_floor (m : positive) (e : Z) :
  -23 <= e -> Z.shiftl (Zpos m) e * 2 ^ 23 <= Zpos m * 2 ^ (e + 23).
Proof.
  intros He.
  destruct (Z_lt_le_dec e 0) as [Hneg|Hpos].
  - rewrite Z.shiftl_div_pow2 by lia.
    assert (HB : 0 < 2 ^ (- e)) by (apply Z.pow_pos_nonneg; lia).
    assert (HA : 0 <= 2 ^ (e + 23)) by (apply Z.pow_nonneg; lia).
    assert (HAB : 2 ^ (- e) * 2 ^ (e + 23) = 2 ^ 23)
      by (rewrite <- Z.pow_add_r by lia; f_equal; lia).
    rewrite <- HAB, Z.mul_assoc.
    apply Z.mul_le_mono_nonneg_r; [exact HA|].
    rewrite Z.mul_comm. apply Z.mul_div_le. exact HB.
  - rewrite Z.shiftl_mul_pow2, Z.pow_add_r by lia. lia.
Qed.

(** Line 481 yields at most 9227472/8388608 = 1.1000004 times [N]. *)
Lemma resize_cast_upper (N c : Z) :
  0 < N -> static_cast_int (f32_mul lit_1p1f (f32_of_Z N)) = Some c ->
  8388608 * c <= 9227472 * N.
Proof.
  intros HN. destruct N as [|n|n]; try lia.
  destruct (mul_1p1f_normal n) as [(mz & ez & E & Hez & Hlo & Hhi)|[E _]]; rewrite E.
  - unfold static_cast_int. cbn [Ztrunc cond_Zopp].
    destruct (_ && _); [|discriminate]. intros [= <-].
    pose proof (shiftl_floor mz ez Hez) as H. change (2 ^ 23) with 8388608 in H. lia.
  - discriminate.
Qed.

(** X4.  After every frame the triangle buffer holds exactly the vertices
    extracted in that frame, none cut off: its capacity is at least their
    number; and a frame that grows the buffer allocates at most
    9227472/8388608 (about 1.1000004) times the number of vertices. *)
Theorem triangle_buffer_holds_surface (E : Env) (s s1 : State) (a : FrameArgs)
    (l : FrameLog) :
  render E s a = Some (s1, l) ->
  exists CC,
    shape_at E (arg_t a) = Some CC /\
    mc_tri_vbo s1 = hpmc_extract E CC iso a /\
    log_N l = Z.of_nat (length (mc_tri_vbo s1)) /\
    log_N l <= mc_tri_vbo_N s1 /\
    (mc_tri_vbo_N s < log_N l -> 8388608 * mc_tri_vbo_N s1 <= 9227472 * log_N l).
Proof.
  intros H.
  destruct (render_resize E s s1 a l H) as [HN Hres].
  destruct (resize_fits _ _ _ HN Hres) as [Hfit _].
  assert (Hf : exists b su, render_frame E b su a = Some (s1, l))
    by (unfold render in H; destruct (reset_event _); eauto).
  destruct Hf as (b & su & Hf).
  destruct (render_frame_triangles E b su s1 a l Hf) as (CC & Hshape & Htri & HlN & _).
  exists CC. split; [exact Hshape|].
  assert (Hall : mc_tri_vbo s1 = hpmc_extract E CC iso a)
    by (rewrite Htri; apply take_ge; lia).
  split; [exact Hall|]. split; [rewrite Hall; exact HlN|]. split; [exact Hfit|].
  intros Hgrow. unfold resize_mc_tri_vbo in Hres.
  replace (mc_tri_vbo_N s <? log_N l) with true in Hres by (symmetry; apply Z.ltb_lt; lia).
  destruct (Z.eq_dec (log_N l) 0) as [H0|H0].
  - assert (Hc : static_cast_int (f32_mul lit_1p1f (f32_of_Z 0)) = Some 0)
      by (vm_compute; reflexivity).
    rewrite H0, Hc in Hres. injection Hres as Hres. lia.
  - apply resize_cast_upper; [lia|exact Hres].
Qed.

(** A frame of [s0]: the 1500 vertices of the surface are all kept and
    the buffer grows from 1000 to 1650. *)
Lemma triangle_buffer_holds_surface_witness :
  render Demo.env Demo.s0 Demo.a_low = Some (Demo.s_low, Demo.l_low) /\
  length (mc_tri_vbo Demo.s_low) = 1500%nat /\
  mc_tri_vbo_N Demo.s_low = 1650 /\
  exists CC,
    shape_at Demo.env (arg_t Demo.a_low) = Some CC /\
    mc_tri_vbo Demo.s_low = hpmc_extract Demo.env CC iso Demo.a_low.
Proof.
  split; [exact demo_render_low|]. split; [reflexivity|]. split; [reflexivity|].
  destruct (triangle_buffer_holds_surface Demo.env Demo.s0 Demo.s_low Demo.a_low Demo.l_low
              demo_render_low) as (CC & H1 & H2 & _).
  exists CC. exact (conj H1 H2).
Defined.

(** ** When a frame is defined *)



(** ** The measured rate and the controller *)

(** X6.  The rate [emitter_result/max(1e-5f,dt)] is never NaN and never
    negative, whatever [dt] is (zero, negative, infinite or NaN): the
    divisor is a positive number.  So a frame keeps the threshold only
    when the rate is a number [r] with [3900 <= r <= 4100]. *)
Theorem rate_is_never_nan (emitter_result : Z) (dt : spec_float) :
  0 <= emitter_result < 2 ^ 32 ->
  has_sign false (particles_per_sec emitter_result dt) = true /\
  has_sign false (std_max lit_1em5f dt) = true /\
  SFltb (std_max lit_1em5f dt) lit_1em5f = false /\
  (flow_low (particles_per_sec emitter_result dt) = false ->
   flow_high (particles_per_sec emitter_result dt) = false ->
   SFleb (f32_of_Z (particle_flow - 100)) (particles_per_sec emitter_result dt) = true /\
   SFleb (particles_per_sec emitter_result dt) (f32_of_Z (particle_flow + 100)) = true).
Proof.
  intros He. pose proof (pps_sign emitter_result dt He) as Hs.
  split; [exact Hs|].
  split; [destruct (max_dt_positive dt) as [-> | (m & e & ->)]; reflexivity|].
  split.
  - unfold std_max. destruct (SFltb lit_1em5f dt) eqn:C.
    + apply SFleb_not_ltb. unfold SFleb. unfold SFltb in C.
      destruct (SFcompare lit_1em5f dt) as [[| |]|]; try discriminate C. reflexivity.
    + reflexivity.
  - unfold flow_low, flow_high. intros Hl Hh.
    pose proof (has_sign_not_nan _ _ Hs) as Hn.
    split; apply SFleb_of_not_ltb; try assumption; discriminate.
Qed.

(** Two particles in a sixtieth of a second: 120 per second. *)
Lemma rate_is_never_nan_witness :
  has_sign false (particles_per_sec 2 Demo.dt60) = true /\
  has_sign false (particles_per_sec 2 S754_nan) = true /\
  has_sign false (particles_per_sec 2 (S754_zero false)) = true.
Proof.
  assert (H : 0 <= 2 < 2 ^ 32) by (split; [lia|reflexivity]).
  exact (conj (proj1 (rate_is_never_nan 2 Demo.dt60 H))
           (conj (proj1 (rate_is_never_nan 2 S754_nan H))
                 (proj1 (rate_is_never_nan 2 (S754_zero false) H)))).
Defined.

(** X7.  A frame in which the emitter stores no particle halves the
    threshold (down to 1), whatever [dt] is. *)
Theorem no_emission_halves_threshold (E : Env) (s s1 : State) (a : FrameArgs)
    (l : FrameLog) :
  wf s -> render E s a = Some (s1, l) -> log_emitted l = 0 ->
  threshold s1 = Z.max 1 (log_threshold_used l / 2).
Proof.
  intros W H He.
  pose proof (threshold_used_bounds E s s1 a l (wf_threshold s W) H) as Hu.
  destruct (render_threshold E s s1 a l H) as (_ & Hadj & _).
  rewrite He, pps_zero, (adjust_low _ _ Hu) in Hadj by reflexivity.
  injection Hadj as <-. reflexivity.
Qed.

Lemma trace_render_quiet :
  render Trace.env_quiet Demo.s0 Demo.a_high = Some (Trace.s_quiet, Trace.l_quiet).
Proof. vm_compute. reflexivity. Qed.

(** A frame with [dt = 1e-5] and no emission: 250 becomes 125. *)
Lemma no_emission_halves_threshold_witness :
  wf Demo.s0 /\
  render Trace.env_quiet Demo.s0 Demo.a_high = Some (Trace.s_quiet, Trace.l_quiet) /\
  log_emitted Trace.l_quiet = 0 /\
  threshold Trace.s_quiet = 125.
Proof.
  split; [exact demo_s0_wf|]. split; [exact trace_render_quiet|]. split; [reflexivity|].
  exact (no_emission_halves_threshold Trace.env_quiet Demo.s0 Trace.s_quiet Demo.a_high
           Trace.l_quiet demo_s0_wf trace_render_quiet eq_refl).
Defined.

(** X8.  The controller moves the threshold in one direction per frame
    and by a bounded factor: at a rate below 3900 the threshold does not
    grow, and shrinks unless it is 1; at a rate above 4100 it does not
    shrink, and grows unless it is 100000; and in every frame the new
    threshold [t'] and the threshold used [t] satisfy [t <= 2 t' + 1] and
    [10 t' <= 101 t]. *)
Theorem threshold_step_bounded (E : Env) (s s1 : State) (a : FrameArgs) (l : FrameLog) :
  wf s -> render E s a = Some (s1, l) ->
  (flow_low (particles_per_sec (log_emitted l) (arg_dt a)) = true ->
   threshold s1 <= log_threshold_used l /\
   (2 <= log_threshold_used l -> threshold s1 < log_threshold_used l)) /\
  (flow_high (particles_per_sec (log_emitted l) (arg_dt a)) = true ->
   log_threshold_used l <= threshold s1 /\
   (log_threshold_used l < 100000 -> log_threshold_used l < threshold s1)) /\
  log_threshold_used l <= 2 * threshold s1 + 1 /\
  10 * threshold s1 <= 101 * log_threshold_used l.
Proof.
  intros W H.
  pose proof (threshold_used_bounds E s s1 a l (wf_threshold s W) H) as Hu.
  destruct (render_threshold E s s1 a l H) as (_ & Hadj & _).
  set (t := log_threshold_used l) in *.
  set (r := particles_per_sec (log_emitted l) (arg_dt a)) in *.
  unfold threshold_max in Hu.
  assert (H2 : t / 2 <= t) by (apply Z.div_le_upper_bound; lia).
  assert (H2' : 2 * (t / 2) <= t) by (apply Z.mul_div_le; lia).
  assert (H2'' : t < 2 * Z.succ (t / 2)) by (apply Z.mul_succ_div_gt; lia).
  assert (H10 : 10 * (101 * t / 10) <= 101 * t) by (apply Z.mul_div_le; lia).
  assert (H10' : 101 * t < 10 * Z.succ (101 * t / 10)) by (apply Z.mul_succ_div_gt; lia).
  destruct (flow_low r) eqn:L.
  - rewrite (adjust_low t r Hu L) in Hadj. injection Hadj as <-.
    assert (U : flow_high r = false).
    { destruct (flow_high r) eqn:U; [|reflexivity].
      rewrite (flow_high_not_low r U) in L. discriminate L. }
    rewrite U.
    split; [intros _; lia|]. split; [discriminate|]. lia.
  - destruct (flow_high r) eqn:U.
    + rewrite (adjust_high t r Hu U) in Hadj. injection Hadj as <-.
      unfold threshold_max.
      split; [discriminate|]. split; [intros _; lia|]. lia.
    + rewrite (adjust_mid t r L U) in Hadj. injection Hadj as <-.
      split; [discriminate|]. split; [discriminate|]. lia.
Qed.

(** A frame of [s0] at a high rate: 250 becomes 2525. *)
Lemma threshold_step_bounded_witness :
  wf Demo.s0 /\
  render Demo.env Demo.s0 Demo.a_high = Some (Demo.s_high, Demo.l_high) /\
  log_threshold_used Demo.l_high <= 2 * threshold Demo.s_high + 1 /\
  10 * threshold Demo.s_high <= 101 * log_threshold_used Demo.l_high.
Proof.
  split; [exact demo_s0_wf|]. split; [exact demo_render_high|].
  exact (proj2 (proj2 (threshold_step_bounded Demo.env Demo.s0 Demo.s_high Demo.a_high
                         Demo.l_high demo_s0_wf demo_render_high))).
Defined.

(** ** The controller over several frames *)

Lemma halve_again (t n : Z) :
  1 <= t -> 0 <= n -> Z.max 1 (Z.max 1 (t / 2) / 2 ^ n) = Z.max 1 (t / 2 ^ (n + 1)).
Proof.
  intros Ht Hn.
  assert (HP : 0 < 2 ^ n) by (apply Z.pow_pos_nonneg; lia).
  rewrite Z.pow_add_r by lia. change (2 ^ 1) with 2.
  rewrite (Z.mul_comm (2 ^ n) 2), <- Z.div_div by lia.
  destruct (Z_lt_le_dec t 2) as [H1|H2].
  - replace t with 1 by lia. change (1 / 2) with 0. rewrite Z.div_0_l by lia.
    change (Z.max 1 0) with 1.
    assert (1 / 2 ^ n <= 1) by (apply Z.div_le_upper_bound; lia). lia.
  - assert (1 <= t / 2) by (apply Z.div_le_lower_bound; lia).
    rewrite (Z.max_r 1 (t / 2)) by lia. reflexivity.
Qed.

(** X9.  Over consecutive frames without reset whose rates are all below
    3900, the threshold is halved once per frame: after [n] such frames
    it is [max(1, t / 2^n)] for the threshold [t] before them, and after
    17 or more it is 1. *)
Theorem low_rate_run_halves (E : Env) (frames : list FrameArgs) :
  forall (s s1 : State) (ls : list FrameLog),
    wf s -> run E s frames = Some (s1, ls) ->
    Forall (fun a => reset_event (arg_t a) = false) frames ->
    Forall2 (fun a l => flow_low (particles_per_sec (log_emitted l) (arg_dt a)) = true)
      frames ls ->
    threshold s1 = Z.max 1 (threshold s / 2 ^ Z.of_nat (length frames)) /\
    (17 <= Z.of_nat (length frames) -> threshold s1 = 1).
Proof.
  assert (Main : forall (s s1 : State) (ls : list FrameLog),
    wf s -> run E s frames = Some (s1, ls) ->
    Forall (fun a => reset_event (arg_t a) = false) frames ->
    Forall2 (fun a l => flow_low (particles_per_sec (log_emitted l) (arg_dt a)) = true)
      frames ls ->
    threshold s1 = Z.max 1 (threshold s / 2 ^ Z.of_nat (length frames))).
  { induction frames as [|a rest IH]; intros s s1 ls W H Hno Hlow; cbn [run] in H.
    - injection H as <- <-. pose proof (wf_threshold s W) as Ht.
      cbn [length]. change (2 ^ Z.of_nat 0) with 1. rewrite Z.div_1_r. lia.
    - destruct (render E s a) as [[s2 l]|] eqn:Hr; [|discriminate H].
      destruct (run E s2 rest) as [[s3 ls3]|] eqn:Hrun; [|discriminate H].
      injection H as <- <-.
      inversion Hno as [|? ? Ha Hno']; subst.
      inversion Hlow as [|? ? ? ? Hl Hlow']; subst.
      pose proof (wf_threshold s W) as Ht.
      destruct (render_threshold E s s2 a l Hr) as (Hu & Hadj & _).
      rewrite Ha in Hu. rewrite Hu, (adjust_low _ _ Ht Hl) in Hadj.
      injection Hadj as Hadj.
      rewrite (IH s2 s3 ls3 (render_wf E s s2 a l W Hr) Hrun Hno' Hlow'), <- Hadj.
      cbn [length]. rewrite Nat2Z.inj_succ, <- Z.add_1_r.
      apply halve_again; lia. }
  intros s s1 ls W H Hno Hlow.
  pose proof (Main s s1 ls W H Hno Hlow) as HM. split; [exact HM|].
  intros Hlen. rewrite HM. pose proof (wf_threshold s W) as Ht. unfold threshold_max in Ht.
  assert (HP : 2 ^ 17 <= 2 ^ Z.of_nat (length frames)) by (apply Z.pow_le_mono_r; lia).
  change (2 ^ 17) with 131072 in HP.
  rewrite Z.div_small by lia. reflexivity.
Qed.

Lemma trace_run_low2 : run Demo.env Demo.s0 Trace.low2 = Some (Trace.s_low2, Trace.ls_low2).
Proof. vm_compute. reflexivity. Qed.

(** Two frames of [s0] at a low rate: 250, 125, 62. *)
Lemma low_rate_run_halves_witness :
  wf Demo.s0 /\
  run Demo.env Demo.s0 Trace.low2 = Some (Trace.s_low2, Trace.ls_low2) /\
  threshold Demo.s0 = 250 /\
  threshold Trace.s_low2 = Z.max 1 (250 / 2 ^ 2).
Proof.
  split; [exact demo_s0_wf|]. split; [exact trace_run_low2|]. split; [reflexivity|].
  apply (low_rate_run_halves Demo.env Trace.low2 Demo.s0 Trace.s_low2 Trace.ls_low2
           demo_s0_wf trace_run_low2).
  - constructor; [vm_compute; reflexivity|].
    constructor; [vm_compute; reflexivity|]. constructor.
  - constructor; [vm_compute; reflexivity|].
    constructor; [vm_compute; reflexivity|]. constructor.
Defined.

(** X10.  Over consecutive frames without reset whose rates are all
    above 4100, the threshold grows at least tenfold per frame until it
    reaches 100000, where it stays: after [n] such frames it is at least
    [min(100000, t * 10^n)], and after 5 or more it is 100000. *)
Theorem high_rate_run_saturates (E : Env) (frames : list FrameArgs) :
  forall (s s1 : State) (ls : list FrameLog),
    wf s -> run E s frames = Some (s1, ls) ->
    Forall (fun a => reset_event (arg_t a) = false) frames ->
    Forall2 (fun a l => flow_high (particles_per_sec (log_emitted l) (arg_dt a)) = true)
      frames ls ->
    Z.min 100000 (threshold s * 10 ^ Z.of_nat (length frames)) <= threshold s1 <= 100000 /\
    (5 <= Z.of_nat (length frames) -> threshold s1 = 100000).
Proof.
  assert (Main : forall (s s1 : State) (ls : list FrameLog),
    wf s -> run E s frames = Some (s1, ls) ->
    Forall (fun a => reset_event (arg_t a) = false) frames ->
    Forall2 (fun a l => flow_high (particles_per_sec (log_emitted l) (arg_dt a)) = true)
      frames ls ->
    Z.min 100000 (threshold s * 10 ^ Z.of_nat (length frames)) <= threshold s1 <= 100000).
  { induction frames as [|a rest IH]; intros s s1 ls W H Hno Hhigh; cbn [run] in H.
    - injection H as <- <-. pose proof (wf_threshold s W) as Ht. unfold threshold_max in Ht.
      cbn [length]. change (10 ^ Z.of_nat 0) with 1. lia.
    - destruct (render E s a) as [[s2 l]|] eqn:Hr; [|discriminate H].
      destruct (run E s2 rest) as [[s3 ls3]|] eqn:Hrun; [|discriminate H].
      injection H as <- <-.
      inversion Hno as [|? ? Ha Hno']; subst.
      inversion Hhigh as [|? ? ? ? Hh Hhigh']; subst.
      pose proof (wf_threshold s W) as Ht.
      destruct (render_threshold E s s2 a l Hr) as (Hu & Hadj & _).
      rewrite Ha in Hu. rewrite Hu, (adjust_high _ _ Ht Hh) in Hadj.
      injection Hadj as Hadj.
      pose proof (IH s2 s3 ls3 (render_wf E s s2 a l W Hr) Hrun Hno' Hhigh') as [I1 I2].
      split; [|exact I2].
      cbn [length]. rewrite Nat2Z.inj_succ, Z.pow_succ_r by lia.
      set (P := 10 ^ Z.of_nat (length rest)) in *.
      assert (HP : 0 < P) by (subst P; apply Z.pow_pos_nonneg; lia).
      unfold threshold_max in *.
      assert (H10 : 10 * threshold s <= 101 * threshold s / 10)
        by (apply Z.div_le_lower_bound; lia).
      destruct (Z_lt_le_dec (101 * threshold s / 10) 100000) as [C|C].
      + rewrite Z.min_r in Hadj by lia.
        assert (threshold s * (10 * P) <= threshold s2 * P) by nia. lia.
      + rewrite Z.min_l in Hadj by lia.
        assert (100000 <= threshold s2 * P) by nia. lia. }
  intros s s1 ls W H Hno Hhigh.
  pose proof (Main s s1 ls W H Hno Hhigh) as HM. split; [exact HM|].
  intros Hlen. pose proof (wf_threshold s W) as Ht.
  assert (HP : 10 ^ 5 <= 10 ^ Z.of_nat (length frames)) by (apply Z.pow_le_mono_r; lia).
  change (10 ^ 5) with 100000 in HP.
  assert (100000 <= threshold s * 10 ^ Z.of_nat (length frames)) by nia. lia.
Qed.

Lemma trace_run_high5 :
  run Trace.env_steady Demo.s0 Trace.high5 = Some (Trace.s_high5, Trace.ls_high5).
Proof. vm_compute. reflexivity. Qed.

(** Five frames of [s0] at a high rate: 250, 2525, 25502, 100000, 100000,
    100000. *)
Lemma high_rate_run_saturates_witness :
  wf Demo.s0 /\
  run Trace.env_steady Demo.s0 Trace.high5 = Some (Trace.s_high5, Trace.ls_high5) /\
  map log_threshold Trace.ls_high5 = [2525; 25502; 100000; 100000; 100000] /\
  threshold Trace.s_high5 = 100000.
Proof.
  split; [exact demo_s0_wf|]. split; [exact trace_run_high5|]. split; [reflexivity|].
  apply (high_rate_run_saturates Trace.env_steady Trace.high5 Demo.s0 Trace.s_high5
           Trace.ls_high5 demo_s0_wf trace_run_high5).
  - repeat (constructor; [vm_compute; reflexivity|]). constructor.
  - repeat (constructor; [vm_compute; reflexivity|]). constructor.
  - vm_compute. discriminate.
Defined.

(** ** The reset event at the edges of [float] *)

(** X11.  The test [t < 1e-6] of the reset block holds for every [t]
    that is a zero of either sign, a negative number or minus infinity,
    and fails for NaN and for plus infinity: a negative time resets the
    program in every frame, an undefined one never does. *)
Theorem reset_event_edge_cases :
  (forall s, reset_event (S754_zero s) = true) /\
  (forall m e, reset_event (S754_finite true m e) = true) /\
  reset_event (S754_infinity true) = true /\
  reset_event (S754_infinity false) = false /\
  reset_event S754_nan = false.
Proof.
  split; [intros s; reflexivity|]. split; [|repeat split].
  intros m e. unfold reset_event, f64_of_f32, convert.
  change (cond_Zopp true (Zpos m)) with (Zneg m). cbn [binary_normalize].
  pose proof (binary_round_sign prec64 emax64 true m e) as H.
  destruct (binary_round prec64 emax64 true m e) as [s|s| |s m' e']; cbn [has_sign] in H;
    try discriminate H; apply eqb_prop in H; subst s; reflexivity.
Qed.

(** ** [init] and the arguments of the program *)

(** X12.  [init] goes on to set up HPMC exactly when the target is at
    least OpenGL 3.2 and each of the three sizes is at least 4, where the
    x size is [argv[1]] if there is one (else the global) and the y and z
    sizes are [argv[2]] and [argv[3]] only when all three are given (else
    the x size); HPMC then receives a lattice of these sizes and a grid
    of one less in each direction, so at least 3 cells. *)
Theorem init_arguments_accepts (atoi : string -> Z) (target GL32 : Z) (v v' : Volume)
    (argv : list string) :
  init_arguments atoi target GL32 v argv = Returns v' <->
  GL32 <= target /\
  volume_size_x v' =
    (if 1 <? Z.of_nat (length argv) then atoi (argv_at argv 1) else volume_size_x v) /\
  volume_size_y v' =
    (if 3 <? Z.of_nat (length argv) then atoi (argv_at argv 2) else volume_size_x v') /\
  volume_size_z v' =
    (if 3 <? Z.of_nat (length argv) then atoi (argv_at argv 3) else volume_size_x v') /\
  4 <= volume_size_x v' /\ 4 <= volume_size_y v' /\ 4 <= volume_size_z v' /\
  grid_size v' = (volume_size_x v' - 1, volume_size_y v' - 1, volume_size_z v' - 1) /\
  3 <= fst (fst (grid_size v')) /\ 3 <= snd (fst (grid_size v')) /\ 3 <= snd (grid_size v').
Proof.
  unfold init_arguments, grid_size. cbn [fst snd].
  set (x := if 1 <? Z.of_nat (length argv) then atoi (argv_at argv 1) else volume_size_x v).
  set (c := 3 <? Z.of_nat (length argv)).
  split.
  - intros H.
    destruct (target <? GL32) eqn:T; [discriminate H|]. apply Z.ltb_ge in T.
    destruct (x <? 4) eqn:X; [discriminate H|]. apply Z.ltb_ge in X.
    destruct ((if c then atoi (argv_at argv 2) else x) <? 4) eqn:Y; [discriminate H|].
    apply Z.ltb_ge in Y.
    destruct ((if c then atoi (argv_at argv 3) else x) <? 4) eqn:Zc; [discriminate H|].
    apply Z.ltb_ge in Zc.
    injection H as <-. cbn [volume_size_x volume_size_y volume_size_z].
    repeat split; try assumption; try reflexivity; lia.
  - intros (T & Hx & Hy & Hz & X & Y & Zc & _).
    destruct v' as [x' y' z']. cbn [volume_size_x volume_size_y volume_size_z] in *.
    subst x'.
    replace (target <? GL32) with false by (symmetry; apply Z.ltb_ge; exact T).
    replace (x <? 4) with false by (symmetry; apply Z.ltb_ge; exact X).
    rewrite <- Hy, <- Hz.
    replace (y' <? 4) with false by (symmetry; apply Z.ltb_ge; exact Y).
    replace (z' <? 4) with false by (symmetry; apply Z.ltb_ge; exact Zc).
    reflexivity.
Qed.

(** The program run as [particles 64 128 64] on a target that is the
    required one. *)
Lemma init_arguments_accepts_witness :
  init_arguments Trace.atoi 4 4 volume_initial Trace.argv3
    = Returns {| volume_size_x := 64; volume_size_y := 128; volume_size_z := 64 |} /\
  grid_size {| volume_size_x := 64; volume_size_y := 128; volume_size_z := 64 |}
    = (63, 127, 63).
Proof.
  split; [reflexivity|].
  exact (proj1 (proj2 (proj2 (proj2 (proj2 (proj2 (proj2 (proj2
           (proj1 (init_arguments_accepts Trace.atoi 4 4 volume_initial
                     {| volume_size_x := 64; volume_size_y := 128; volume_size_z := 64 |}
                     Trace.argv3) eq_refl))))))))).
Defined.

(** X13.  A second size without a third is ignored: run with two sizes
    the program does what it does with the first alone, [argv[2]] is not
    even converted; and whenever fewer than three sizes are given the
    volume is a cube of the x size, whatever the globals for y and z
    held. *)
Theorem init_arguments_two_sizes (atoi : string -> Z) (target GL32 : Z) (v : Volume) :
  (forall prog a b : string,
     init_arguments atoi target GL32 v [prog; a; b]
     = init_arguments atoi target GL32 v [prog; a]) /\
  (forall (argv : list string) (v' : Volume),
     (length argv <= 3)%nat ->
     init_arguments atoi target GL32 v argv = Returns v' ->
     volume_size_y v' = volume_size_x v' /\ volume_size_z v' = volume_size_x v').
Proof.
  split; [reflexivity|].
  intros argv v' Hlen H.
  apply init_arguments_accepts in H. destruct H as (_ & _ & Hy & Hz & _).
  replace (3 <? Z.of_nat (length argv)) with false in Hy, Hz
    by (symmetry; apply Z.ltb_ge; lia).
  split; assumption.
Qed.

(** The program run as [particles 64 128]: a cube of 64. *)
Lemma init_arguments_two_sizes_witness :
  init_arguments Trace.atoi 4 4 volume_initial Trace.argv2
    = Returns {| volume_size_x := 64; volume_size_y := 64; volume_size_z := 64 |} /\
  volume_size_y {| volume_size_x := 64; volume_size_y := 64; volume_size_z := 64 |} = 64.
Proof.
  split; [reflexivity|].
  exact (proj1 (proj2 (init_arguments_two_sizes Trace.atoi 4 4 volume_initial)
                  Trace.argv2 _ (le_n 3) eq_refl)).
Defined.



(** ** [infoString] after a frame *)

Lemma length_triangles_bound (n : nat) :
  forall vs : list Vertex,
    (length vs < n)%nat -> Z.of_nat (length (triangles vs)) = Z.of_nat (length vs) / 3.
Proof.
  induction n as [|n IH]; intros vs Hn; [lia|].
  destruct vs as [|a [|b [|c rest]]]; try reflexivity.
  cbn [triangles length] in *. rewrite Nat2Z.inj_succ, IH by lia.
  replace (Z.of_nat (S (S (S (length rest))))) with (1 * 3 + Z.of_nat (length rest)) by lia.
  rewrite Z.div_add_l by lia. lia.
Qed.

(** [glDrawArrays( GL_TRIANGLES, 0, N )] draws [N/3] triangles. *)
Lemma length_triangles (vs : list Vertex) :
  Z.of_nat (length (triangles vs)) = Z.of_nat (length vs) / 3.
Proof. apply (length_triangles_bound (S (length vs))). lia. Qed.

Lemma render_anim_result (E : Env) (s s1 : State) (a : FrameArgs) (l : FrameLog) :
  render E s a = Some (s1, l) -> anim_result s1 = log_survivors l.
Proof.
  unfold render. intros H.
  destruct (reset_event (arg_t a));
    apply render_frame_triangles in H; destruct H as (CC & _ & _ & _ & H); exact H.
Qed.

Lemma string_app_assoc (s1 s2 s3 : string) : s1 +:+ (s2 +:+ s3) = (s1 +:+ s2) +:+ s3.
Proof.
  induction s1 as [|c s1 IH]; [reflexivity|].
  change (String c (s1 +:+ (s2 +:+ s3)) = String c ((s1 +:+ s2) +:+ s3)).
  rewrite IH. reflexivity.
Qed.

(** X15.  The number of particles [infoString] reports after a frame is
    the number of survivors of that frame, not the occupancy: it leaves
    out the particles emitted in the frame, which the billboard pass
    draws as well. *)
Theorem info_particles_are_survivors (E : Env) (s s1 : State) (a : FrameArgs)
    (l : FrameLog) :
  wf s -> render E s a = Some (s1, l) ->
  info_particles s1 = log_survivors l /\
  info_particles s1 = particles_vbo_n s1 - log_emitted l /\
  (forall (show_float : spec_float -> string) (v : Volume) (N : Z) (fps : spec_float)
          (text : string),
     infoString show_float v N s1 fps = Some text ->
     exists front,
       text = front +:+ pretty (particles_vbo_n s1 - log_emitted l) +:+ " particles").
Proof.
  intros W H. pose proof (render_anim_result E s s1 a l H) as Ha.
  destruct (render_effect E s s1 a l W H) as (CC & rbuf & wbuf & F & _).
  pose proof (fe_n _ _ _ _ _ _ _ _ _ F) as Fn.
  assert (Hp : info_particles s1 = particles_vbo_n s1 - log_emitted l)
    by (unfold info_particles; lia).
  split; [exact Ha|]. split; [exact Hp|].
  intros show_float v N fps text. unfold infoString.
  destruct (MVPS v fps) as [mvps|]; [|discriminate].
  intros [= <-]. rewrite Hp.
  exists (show_float fps +:+ " fps, "
          +:+ pretty (volume_size_x v) +:+ "x"
          +:+ pretty (volume_size_y v) +:+ "x"
          +:+ pretty (volume_size_z v) +:+ " samples, "
          +:+ pretty mvps +:+ " MVPS, "
          +:+ pretty (info_triangles N) +:+ " triangles, ").
  rewrite <- !string_app_assoc. reflexivity.
Qed.

(** A frame of [s0]: three particles are stored, one is reported. *)
Lemma info_particles_are_survivors_witness :
  wf Demo.s0 /\
  render Demo.env Demo.s0 Demo.a_low = Some (Demo.s_low, Demo.l_low) /\
  particles_vbo_n Demo.s_low = 3 /\
  info_particles Demo.s_low = 1 /\
  info_particles Demo.s_low = log_survivors Demo.l_low.
Proof.
  split; [exact demo_s0_wf|]. split; [exact demo_render_low|].
  split; [reflexivity|]. split; [reflexivity|].
  exact (proj1 (info_particles_are_survivors Demo.env Demo.s0 Demo.s_low Demo.a_low
                  Demo.l_low demo_s0_wf demo_render_low)).
Defined.

(** X16.  The number of triangles [infoString] reports for the surface
    of the last frame is the number of triangles the emitter pass of
    that frame drew from the triangle buffer. *)
Theorem info_triangles_are_drawn (E : Env) (s s1 : State) (a : FrameArgs) (l : FrameLog) :
  render E s a = Some (s1, l) ->
  info_triangles (log_N l) = Z.of_nat (length (triangles (mc_tri_vbo s1))) /\
  info_triangles (log_N l) =
    Z.of_nat (length (triangles (take (Z.to_nat (log_N l)) (mc_tri_vbo s1)))).
Proof.
  intros H.
  destruct (render_resize E s s1 a l H) as [HN Hres].
  destruct (resize_fits _ _ _ HN Hres) as [Hfit _].
  assert (Hf : exists b su, render_frame E b su a = Some (s1, l))
    by (unfold render in H; destruct (reset_event _); eauto).
  destruct Hf as (b & su & Hf).
  destruct (render_frame_triangles E b su s1 a l Hf) as (CC & _ & Htri & HlN & _).
  assert (Hall : mc_tri_vbo s1 = hpmc_extract E CC iso a)
    by (rewrite Htri; apply take_ge; lia).
  assert (H1 : info_triangles (log_N l) = Z.of_nat (length (triangles (mc_tri_vbo s1)))).
  { unfold info_triangles. rewrite length_triangles, Hall, <- HlN.
    apply Z.quot_div_nonneg; lia. }
  split; [exact H1|].
  rewrite take_ge; [exact H1|]. rewrite Hall. lia.
Qed.

(** A frame of [s0]: 1500 vertices, 500 triangles. *)
Lemma info_triangles_are_drawn_witness :
  render Demo.env Demo.s0 Demo.a_low = Some (Demo.s_low, Demo.l_low) /\
  log_N Demo.l_low = 1500 /\
  info_triangles (log_N Demo.l_low) = 500 /\
  info_triangles (log_N Demo.l_low)
    = Z.of_nat (length (triangles (mc_tri_vbo Demo.s_low))).
Proof.
  split; [exact demo_render_low|]. split; [reflexivity|]. split; [reflexivity|].
  exact (proj1 (info_triangles_are_drawn Demo.env Demo.s0 Demo.s_low Demo.a_low Demo.l_low
                  demo_render_low)).
Defined.

Lemma f32_of_Z_not_nan (n : Z) : f32_of_Z n <> S754_nan.
Proof.
  unfold f32_of_Z, binary_normalize. destruct n as [|p|p]; [discriminate| |].
  - apply (has_sign_not_nan false). apply binary_round_sign.
  - apply (has_sign_not_nan true). apply binary_round_sign.
Qed.

(** X17.  The throughput [infoString] reports is computed in [int] and
    converted back to [int]: for a volume [init] accepts whose sizes are
    all at most 1291 the product of the cell counts is exact; when all
    sizes are 1292 or more the product overflows, though [init] accepts
    the volume; and for [fps] infinite or NaN the conversion of the
    quotient to [int] is undefined. *)
Theorem mvps_defined_range (v : Volume) :
  (4 <= volume_size_x v <= 1291 -> 4 <= volume_size_y v <= 1291 ->
   4 <= volume_size_z v <= 1291 ->
   voxels v = Some ((volume_size_x v - 1) * (volume_size_y v - 1) * (volume_size_z v - 1))) /\
  (1292 <= volume_size_x v -> 1292 <= volume_size_y v -> 1292 <= volume_size_z v ->
   voxels v = None /\ forall fps, MVPS v fps = None) /\
  (forall s, MVPS v (S754_infinity s) = None) /\
  MVPS v S754_nan = None.
Proof.
  assert (In : forall z, INT_MIN <= z <= INT_MAX -> int_result z = Some z).
  { intros z Hz. unfold int_result.
    replace (_ && _) with true; [reflexivity|].
    symmetry. apply andb_true_iff. split; apply Z.leb_le; lia. }
  assert (Out : forall z, INT_MAX < z -> int_result z = None).
  { intros z Hz. unfold int_result.
    replace (z <=? INT_MAX) with false by (symmetry; apply Z.leb_gt; exact Hz).
    rewrite andb_false_r. reflexivity. }
  unfold INT_MIN, INT_MAX in In, Out.
  change (- 2 ^ 31) with (-2147483648) in In. change (2 ^ 31 - 1) with 2147483647 in In, Out.
  split; [|split; [|split]].
  - intros Hx Hy Hz. unfold voxels.
    rewrite !In by lia. rewrite In by nia. apply In.
    assert ((volume_size_x v - 1) * (volume_size_y v - 1) <= 1290 * 1290) by nia.
    assert (0 <= (volume_size_x v - 1) * (volume_size_y v - 1)) by nia.
    nia.
  - intros Hx Hy Hz.
    assert (Hv : voxels v = None).
    { unfold voxels.
      destruct (int_result (volume_size_x v - 1)) as [x|] eqn:X; [|reflexivity].
      destruct (int_result (volume_size_y v - 1)) as [y|] eqn:Y; [|reflexivity].
      destruct (int_result (volume_size_z v - 1)) as [z|] eqn:Zc; [|reflexivity].
      unfold int_result in X, Y, Zc.
      destruct (_ && _) in X; [|discriminate X]. injection X as <-.
      destruct (_ && _) in Y; [|discriminate Y]. injection Y as <-.
      destruct (_ && _) in Zc; [|discriminate Zc]. injection Zc as <-.
      destruct (int_result ((volume_size_x v - 1) * (volume_size_y v - 1))) as [xy|] eqn:XY;
        [|reflexivity].
      unfold int_result in XY. destruct (_ && _) in XY; [|discriminate XY].
      injection XY as <-. apply Out.
      assert (1291 * 1291 <= (volume_size_x v - 1) * (volume_size_y v - 1)) by nia.
      nia. }
    split; [exact Hv|]. intros fps. unfold MVPS. rewrite Hv. reflexivity.
  - intros s. unfold MVPS. destruct (voxels v) as [n|]; [|reflexivity].
    pose proof (f32_of_Z_not_nan n) as Hn.
    destruct (f32_of_Z n) as [s'|s'| |s' m e]; try congruence; reflexivity.
  - unfold MVPS. destruct (voxels v) as [n|]; [|reflexivity].
    pose proof (f32_of_Z_not_nan n) as Hn.
    destruct (f32_of_Z n) as [s'|s'| |s' m e]; try congruence; reflexivity.
Qed.

(** The volume of 64 samples in each direction has 63^3 cells. *)
Lemma mvps_defined_range_witness : voxels volume_initial = Some 250047.
Proof.
  apply (proj1 (mvps_defined_range volume_initial)); cbn; lia.
Defined.

(** ** The offset of the emitter, line 514 *)

Lemma digits2_le (p : positive) (k : Z) :
  0 <= k -> Zpos p < 2 ^ k -> Zpos (digits2_pos p) <= k.
Proof.
  intros Hk Hp. pose proof (digits2_bounds p) as [Dlo _].
  destruct (Z_lt_le_dec k (Zpos (digits2_pos p))) as [C|C]; [|exact C].
  assert (2 ^ k <= 2 ^ (Zpos (digits2_pos p) - 1)) by (apply Z.pow_le_mono_r; lia).
  lia.
Qed.

(** Dividing a normal number by a power of two only moves the exponent. *)
Lemma f32_div_pow2 (mx : positive) (ex ek : Z) :
  2 ^ 23 <= Zpos mx < 2 ^ 24 -> -148 <= ex - ek - 23 <= 104 ->
  f32_div (S754_finite false mx ex) (S754_finite false 8388608 ek)
  = S754_finite false mx (ex - ek - 23).
Proof.
  intros Hm He.
  assert (D : Zpos (digits2_pos mx) = 24) by (apply digits2_unique; exact Hm).
  change (2 ^ 23) with 8388608 in Hm. change (2 ^ 24) with 16777216 in Hm.
  unfold f32_div. cbn [SFdiv xorb]. unfold SFdiv_core_binary. cbn [Zdigits2].
  rewrite D. change (Zpos (digits2_pos 8388608)) with 24.
  unfold fexp, emin, prec32, emax32. change (3 - 128 - 24) with (-149).
  rewrite (Z.max_l (24 + ex - (24 + ek) - 24)) by lia.
  rewrite Z.min_l by lia.
  replace (ex - ek - (24 + ex - (24 + ek) - 24)) with 24 by lia.
  cbv beta iota. rewrite Z.shiftl_mul_pow2 by lia. change (2 ^ 24) with 16777216.
  pose proof (Z_div_mod (Zpos mx * 16777216) 8388608 eq_refl) as Hdiv.
  destruct (Z.div_eucl (Zpos mx * 16777216) 8388608) as [q r].
  assert (Hq : q = Zpos (xO mx)) by lia. assert (Hr : r = 0) by lia. subst q r.
  change (new_location 8388608 0) with loc_Exact.
  unfold binary_round_aux, shr_fexp. cbn [Zdigits2 digits2_pos shr_record_of_loc].
  rewrite Pos2Z.inj_succ, D.
  unfold fexp, emin. change (3 - 128 - 24) with (-149).
  rewrite (Z.max_l (Z.succ 24 + (24 + ex - (24 + ek) - 24) - 24)) by lia.
  replace (Z.succ 24 + (24 + ex - (24 + ek) - 24) - 24 - (24 + ex - (24 + ek) - 24))
    with 1 by lia.
  cbn [shr SpecFloat.iter_pos shr_1 orb shr_m loc_of_shr_record round_nearest_even
       Zdigits2 shr_record_of_loc].
  rewrite D.
  rewrite (Z.max_l (24 + (24 + ex - (24 + ek) - 24 + 1) - 24)) by lia.
  replace (24 + (24 + ex - (24 + ek) - 24 + 1) - 24 - (24 + ex - (24 + ek) - 24 + 1))
    with 0 by lia.
  cbn [shr shr_m].
  replace (24 + ex - (24 + ek) - 24 + 1 <=? 128 - 24) with true
    by (symmetry; apply Z.leb_le; lia).
  f_equal. lia.
Qed.

(** The product of two normal numbers. *)
Lemma f32_mul_normal (ma mb : positive) (ea eb : Z) :
  2 ^ 23 <= Zpos ma < 2 ^ 24 -> 2 ^ 23 <= Zpos mb < 2 ^ 24 -> -149 <= ea + eb + 23 ->
  exists mz ez,
    f32_mul (S754_finite false ma ea) (S754_finite false mb eb) =
      (if ez <=? 104 then S754_finite false mz ez else S754_infinity false) /\
    ea + eb + 23 <= ez <= ea + eb + 25 /\
    2 ^ 23 * (Zpos mz * 2 ^ (ez - (ea + eb))) <= (2 ^ 23 + 1) * (Zpos ma * Zpos mb).
Proof.
  intros Ha Hb He. unfold f32_mul. cbn [SFmul xorb].
  set (p := (ma * mb)%positive).
  assert (Hp : Zpos p = Zpos ma * Zpos mb) by (subst p; apply Pos2Z.inj_mul).
  pose proof (digits2_bounds p) as [Dlo Dhi].
  change (2 ^ 23) with 8388608 in *. change (2 ^ 24) with 16777216 in *.
  assert (Hlo : 8388608 * 8388608 <= Zpos p) by nia.
  assert (Hhi : Zpos p < 16777216 * 16777216) by nia.
  assert (Hd : 47 <= Zpos (digits2_pos p) <= 48).
  { split.
    - destruct (Z_lt_le_dec (Zpos (digits2_pos p)) 47) as [C|C]; [|exact C].
      assert (2 ^ Zpos (digits2_pos p) <= 2 ^ 46) by (apply Z.pow_le_mono_r; lia).
      change (2 ^ 46) with 70368744177664 in *. lia.
    - destruct (Z_lt_le_dec 48 (Zpos (digits2_pos p))) as [C|C]; [|exact C].
      assert (2 ^ 48 <= 2 ^ (Zpos (digits2_pos p) - 1)) by (apply Z.pow_le_mono_r; lia).
      change (2 ^ 48) with 281474976710656 in *. lia. }
  destruct (f32_round_normal false p (ea + eb) loc_Exact)
    as (mz & ez & E & Hez & Hmz & Hbz); [lia|lia|].
  exists mz, ez. split; [exact E|]. split; [lia|].
  change (2 ^ 23) with 8388608 in Hbz. rewrite Hp in Hbz. lia.
Qed.

(** Truncation of a positive finite value, against an integer, at any
    scale. *)
Lemma shiftl_below (m : positive) (e n K : Z) :
  0 <= K -> 0 <= e + K -> Zpos m * 2 ^ (e + K) < n * 2 ^ K -> Z.shiftl (Zpos m) e < n.
Proof.
  intros HK HeK H.
  assert (HPK : 0 < 2 ^ K) by (apply Z.pow_pos_nonneg; lia).
  destruct (Z_lt_le_dec e 0) as [Hneg|Hpos].
  - rewrite Z.shiftl_div_pow2 by lia.
    assert (HB : 0 < 2 ^ (- e)) by (apply Z.pow_pos_nonneg; lia).
    assert (HA : 0 < 2 ^ (e + K)) by (apply Z.pow_pos_nonneg; lia).
    assert (HAB : 2 ^ (- e) * 2 ^ (e + K) = 2 ^ K)
      by (rewrite <- Z.pow_add_r by lia; f_equal; lia).
    apply Z.div_lt_upper_bound; [exact HB|].
    apply (Z.mul_lt_mono_pos_r (2 ^ (e + K))); [exact HA|].
    rewrite <- HAB in H. lia.
  - rewrite Z.shiftl_mul_pow2 by lia.
    rewrite Z.pow_add_r in H by lia.
    apply (Z.mul_lt_mono_pos_r (2 ^ K)); [exact HPK|]. lia.
Qed.

(** Line 514 when [RAND_MAX+1.0f] is the power of two [2^(23+ek)]. *)
Lemma emitter_offset_pow2 (RM ek B thr r : Z) :
  f32_add (f32_of_Z RM) lit_1p0f = S754_finite false 8388608 ek ->
  -23 <= ek <= 8 ->
  1 <= thr <= 100000 -> 0 <= r < 2 ^ 31 -> 0 < B <= 100001 ->
  8388609 * (8388609 * thr) * (8388609 * r) < B * 2 ^ (ek + 92) ->
  exists off, emitter_offset RM thr r = Some off /\ 0 <= off < B.
Proof.
  intros HD Hek Ht Hr HB Hbound. unfold emitter_offset. rewrite HD.
  destruct thr as [|t|t]; try lia.
  destruct (f32_of_Z_normal t) as (mt & et & Et & Het & Hmt & Hbt).
  assert (Dt : Zpos (digits2_pos t) <= 17)
    by (apply digits2_le; [lia|change (2 ^ 17) with 131072; lia]).
  rewrite Et. replace (et <=? 104) with true by (symmetry; apply Z.leb_le; lia).
  destruct r as [|p|p]; [| |lia].
  { exists 0. split; [reflexivity|lia]. }
  destruct (f32_of_Z_normal p) as (mx & ex & Ex & Hex & Hmx & Hbx).
  assert (Dp : Zpos (digits2_pos p) <= 31) by (apply digits2_le; lia).
  rewrite Ex. replace (ex <=? 104) with true by (symmetry; apply Z.leb_le; lia).
  rewrite (f32_div_pow2 mx ex ek Hmx) by lia.
  destruct (f32_mul_normal mt mx et (ex - ek - 23) Hmt Hmx)
    as (mz & ez & Ez & Hez & Hbz); [lia|].
  rewrite Ez. replace (ez <=? 104) with true by (symmetry; apply Z.leb_le; lia).
  unfold static_cast_int. cbn [Ztrunc cond_Zopp].
  assert (Hnn : 0 <= Z.shiftl (Zpos mz) ez) by (apply Z.shiftl_nonneg; lia).
  assert (Hlt : Z.shiftl (Zpos mz) ez < B).
  { apply (shiftl_below mz ez B (ek + 92)); [lia|lia|].
    eapply Z.le_lt_trans; [|exact Hbound].
    set (a := et + 23) in *. set (b := ex + 23) in *.
    set (c := ez - (et + (ex - ek - 23))) in *.
    assert (Ha : 0 <= a) by (subst a; lia).
    assert (Hb : 0 <= b) by (subst b; lia).
    assert (Hc : 0 <= c) by (subst c; lia).
    replace (ez + (ek + 92)) with (c + 23 + a + b) by (subst a b c; lia).
    rewrite !Z.pow_add_r by lia.
    change (2 ^ 23) with 8388608 in *.
    assert (PA : 0 <= 2 ^ a) by (apply Z.pow_nonneg; lia).
    assert (PB : 0 <= 2 ^ b) by (apply Z.pow_nonneg; lia).
    destruct Hbt as [_ Hbt]. destruct Hbx as [_ Hbx].
    change (8388608 + 1) with 8388609 in *.
    set (T := Zpos mt * 2 ^ a) in *. set (R := Zpos mx * 2 ^ b) in *.
    assert (HT : 0 <= T) by (subst T; apply Z.mul_nonneg_nonneg; lia).
    assert (HR : 0 <= R) by (subst R; apply Z.mul_nonneg_nonneg; lia).
    apply Z.le_trans with (8388609 * (T * R)).
    - replace (Zpos mz * (2 ^ c * 8388608 * 2 ^ a * 2 ^ b))
        with (8388608 * (Zpos mz * 2 ^ c) * (2 ^ a * 2 ^ b)) by ring.
      replace (8388609 * (T * R))
        with (8388609 * (Zpos mt * Zpos mx) * (2 ^ a * 2 ^ b)) by (subst T R; ring).
      apply Z.mul_le_mono_nonneg_r; [apply Z.mul_nonneg_nonneg; assumption|exact Hbz].
    - rewrite <- Z.mul_assoc. apply Z.mul_le_mono_nonneg_l; [lia|].
      apply Z.mul_le_mono_nonneg; lia. }
  replace (_ && _) with true.
  - exists (Z.shiftl (Zpos mz) ez). split; [reflexivity|lia].
  - symmetry. apply andb_true_iff. unfold INT_MIN, INT_MAX.
    change (- 2 ^ 31) with (-2147483648). change (2 ^ 31 - 1) with 2147483647.
    split; apply Z.leb_le; lia.
Qed.

(** X18.  The offset handed to the emitter is defined and never
    negative.  With [RAND_MAX = 2147483647] (glibc) it is at most the
    threshold, for every value [rand()] can return and every threshold
    of the controller; with [RAND_MAX = 32767] it is below the
    threshold. *)
Theorem emitter_offset_bounds (thr r : Z) :
  1 <= thr <= 100000 ->
  (0 <= r <= 2147483647 ->
   exists off, emitter_offset 2147483647 thr r = Some off /\ 0 <= off <= thr) /\
  (0 <= r <= 32767 ->
   exists off, emitter_offset 32767 thr r = Some off /\ 0 <= off < thr).
Proof.
  intros Ht. split; intros Hr.
  - destruct (emitter_offset_pow2 2147483647 8 (thr + 1) thr r) as (off & H & Ho);
      [vm_compute; reflexivity|lia|exact Ht|change (2 ^ 31) with 2147483648; lia|lia| |].
    + change (2 ^ (8 + 92)) with 1267650600228229401496703205376.
      assert (8388609 * (8388609 * thr) * (8388609 * r)
              <= 8388609 * (8388609 * thr) * (8388609 * 2147483647))
        by (apply Z.mul_le_mono_nonneg_l; lia).
      lia.
    + exists off. split; [exact H|lia].
  - destruct (emitter_offset_pow2 32767 (-8) thr thr r) as (off & H & Ho);
      [vm_compute; reflexivity|lia|exact Ht|change (2 ^ 31) with 2147483648; lia|lia| |].
    + change (2 ^ (-8 + 92)) with 19342813113834066795298816.
      assert (8388609 * (8388609 * thr) * (8388609 * r)
              <= 8388609 * (8388609 * thr) * (8388609 * 32767))
        by (apply Z.mul_le_mono_nonneg_l; lia).
      lia.
    + exists off. split; [exact H|exact Ho].
Qed.

(** The largest value of [rand()] and the default threshold. *)
Lemma emitter_offset_bounds_witness :
  (exists off, emitter_offset 2147483647 500 2147483647 = Some off /\ 0 <= off <= 500) /\
  (exists off, emitter_offset 32767 500 32767 = Some off /\ 0 <= off < 500).
Proof.
  assert (Ht : 1 <= 500 <= 100000) by lia.
  split.
  - apply (proj1 (emitter_offset_bounds 500 2147483647 Ht)). lia.
  - apply (proj2 (emitter_offset_bounds 500 32767 Ht)). lia.
Defined.

(** ** Magnitudes through rounding *)

Lemma Zdigits2_le (m k : Z) : 0 <= m -> 0 <= k -> m < 2 ^ k -> Zdigits2 m <= k.
Proof.
  intros Hm Hk H. destruct m as [|p|p]; [exact Hk| |lia].
  cbn [Zdigits2]. apply digits2_le; assumption.
Qed.

Lemma pow2_pos_exp (a m : Z) : 0 <= m -> m + 1 <= 2 ^ a -> 0 <= a.
Proof.
  intros Hm H. destruct (Z_lt_le_dec a 0) as [C|C]; [|exact C].
  rewrite Z.pow_neg_r in H by exact C. lia.
Qed.

(** One step of [shr_fexp] on a mantissa below [2^(B-e)]. *)
Lemma shr_fexp_below (prec emax m e B : Z) (l : location) :
  0 < prec -> 3 - emax - prec <= B -> 0 <= m -> m + 1 <= 2 ^ (B - e) ->
  0 <= shr_m (fst (shr_fexp prec emax m e l)) /\
  snd (shr_fexp prec emax m e l) <= B /\
  shr_m (fst (shr_fexp prec emax m e l)) + 1 <= 2 ^ (B - snd (shr_fexp prec emax m e l)).
Proof.
  intros Hprec HB Hm H.
  pose proof (pow2_pos_exp _ _ Hm H) as Ha.
  assert (Hd : Zdigits2 m <= B - e) by (apply Zdigits2_le; lia).
  unfold shr_fexp, shr, fexp, emin.
  destruct (Z.max (Zdigits2 m + e - prec) (3 - emax - prec) - e) as [|k|k] eqn:K;
    cbn [fst snd]; rewrite ?shr_m_of_loc; try (split; [exact Hm|split; [lia|exact H]]).
  rewrite shr_m_iter by (rewrite shr_m_of_loc; exact Hm). rewrite shr_m_of_loc.
  assert (He1 : e + Zpos k <= B) by lia.
  split; [apply Z.div_pos; lia|]. split; [exact He1|].
  assert (HP : 0 < 2 ^ Zpos k) by (apply Z.pow_pos_nonneg; lia).
  assert (Hsplit : 2 ^ (B - e) = 2 ^ Zpos k * 2 ^ (B - (e + Zpos k)))
    by (rewrite <- Z.pow_add_r by lia; f_equal; lia).
  assert (m / 2 ^ Zpos k < 2 ^ (B - (e + Zpos k)))
    by (apply Z.div_lt_upper_bound; [exact HP|]; lia).
  lia.
Qed.

(** The same step on an exact mantissa of at most [2^(B-e)]. *)
Lemma shr_fexp_upto (prec emax m e B : Z) :
  0 < prec -> 3 - emax - prec <= B -> 0 <= m -> e <= B -> m <= 2 ^ (B - e) ->
  0 <= shr_m (fst (shr_fexp prec emax m e loc_Exact)) /\
  snd (shr_fexp prec emax m e loc_Exact) <= B /\
  shr_m (fst (shr_fexp prec emax m e loc_Exact))
    <= 2 ^ (B - snd (shr_fexp prec emax m e loc_Exact)).
Proof.
  intros Hprec HB Hm He H.
  assert (Hd : Zdigits2 m <= B - e + 1).
  { apply Zdigits2_le; [exact Hm|lia|].
    rewrite Z.pow_add_r by lia. change (2 ^ 1) with 2.
    assert (0 < 2 ^ (B - e)) by (apply Z.pow_pos_nonneg; lia). lia. }
  unfold shr_fexp, shr, fexp, emin.
  destruct (Z.max (Zdigits2 m + e - prec) (3 - emax - prec) - e) as [|k|k] eqn:K;
    cbn [fst snd]; rewrite ?shr_m_of_loc; try (split; [exact Hm|split; [lia|exact H]]).
  rewrite shr_m_iter by (rewrite shr_m_of_loc; exact Hm). rewrite shr_m_of_loc.
  assert (He1 : e + Zpos k <= B) by lia.
  split; [apply Z.div_pos; lia|]. split; [exact He1|].
  assert (HP : 0 < 2 ^ Zpos k) by (apply Z.pow_pos_nonneg; lia).
  assert (Hsplit : 2 ^ (B - e) = 2 ^ Zpos k * 2 ^ (B - (e + Zpos k)))
    by (rewrite <- Z.pow_add_r by lia; f_equal; lia).
  apply Z.div_le_upper_bound; [exact HP|]. lia.
Qed.

Lemma binary_round_aux_below (prec emax : Z) (s : bool) (m e B : Z) (l : location) :
  0 < prec -> 3 - emax - prec <= B -> 0 <= m -> m + 1 <= 2 ^ (B - e) ->
  upto_pow2 prec emax B s (binary_round_aux prec emax s m e l).
Proof.
  intros Hprec HB Hm H. unfold binary_round_aux.
  destruct (shr_fexp_below prec emax m e B l Hprec HB Hm H) as (H1 & H2 & H3).
  destruct (shr_fexp prec emax m e l) as [r1 e1]. cbn [fst snd] in H1, H2, H3.
  set (m2 := round_nearest_even (shr_m r1) (loc_of_shr_record r1)).
  assert (Hm2 : 0 <= m2 <= 2 ^ (B - e1))
    by (subst m2; destruct (round_nearest_even_cases (shr_m r1) (loc_of_shr_record r1))
          as [-> | ->]; lia).
  destruct (shr_fexp_upto prec emax m2 e1 B Hprec HB (proj1 Hm2) H2 (proj2 Hm2))
    as (H4 & H5 & H6).
  destruct (shr_fexp prec emax m2 e1 loc_Exact) as [r3 e3]. cbn [fst snd] in H4, H5, H6.
  destruct (shr_m r3) as [|p|p]; [left; reflexivity| |lia].
  right. exists p, e3. split; [reflexivity|]. split; assumption.
Qed.

Lemma shl_align_value (m : positive) (e e' : Z) :
  snd (shl_align m e e') <= e /\
  Zpos (fst (shl_align m e e')) = Zpos m * 2 ^ (e - snd (shl_align m e e')).
Proof.
  unfold shl_align. destruct (e' - e) as [|k|k] eqn:K; cbn [fst snd].
  - rewrite Z.sub_diag. lia.
  - rewrite Z.sub_diag. lia.
  - rewrite Zpos_iter_xO. split; [lia|]. f_equal. f_equal. lia.
Qed.

Lemma binary_round_below (prec emax : Z) (s : bool) (m : positive) (e B : Z) :
  0 < prec -> 3 - emax - prec <= B -> Zpos m + 1 <= 2 ^ (B - e) ->
  upto_pow2 prec emax B s (binary_round prec emax s m e).
Proof.
  intros Hprec HB H. unfold binary_round.
  pose proof (shl_align_value m e (fexp prec emax (Zpos (digits2_pos m) + e))) as [H1 H2].
  destruct (shl_align m e _) as [mz ez]. cbn [fst snd] in H1, H2.
  apply binary_round_aux_below; try assumption; [lia|].
  pose proof (pow2_pos_exp _ _ (Pos2Z.is_nonneg m) H) as Ha.
  rewrite H2.
  assert (HP : 0 < 2 ^ (e - ez)) by (apply Z.pow_pos_nonneg; lia).
  replace (B - ez) with ((B - e) + (e - ez)) by lia. rewrite Z.pow_add_r by lia.
  nia.
Qed.

(** The quotient of [SFdiv_core_binary], from the sizes of the operands. *)
Lemma SFdiv_core_below (prec emax : Z) (m1 m2 : positive) (e1 e2 B : Z) :
  0 < prec -> 3 - emax - prec <= B ->
  Zpos (digits2_pos m1) + e1 - (Zpos (digits2_pos m2) + e2) + 1 <= B ->
  0 <= fst (fst (SFdiv_core_binary prec emax (Zpos m1) e1 (Zpos m2) e2)) /\
  fst (fst (SFdiv_core_binary prec emax (Zpos m1) e1 (Zpos m2) e2)) + 1
    <= 2 ^ (B - snd (fst (SFdiv_core_binary prec emax (Zpos m1) e1 (Zpos m2) e2))).
Proof.
  intros Hprec HB Hmag.
  pose proof (SFdiv_core_nonneg prec emax m1 m2 e1 e2) as Hq0.
  split; [exact Hq0|]. clear Hq0.
  unfold SFdiv_core_binary. cbn [Zdigits2].
  pose proof (digits2_bounds m1) as [_ D1]. pose proof (digits2_bounds m2) as [D2 _].
  set (d1 := Zpos (digits2_pos m1)) in *. set (d2 := Zpos (digits2_pos m2)) in *.
  assert (Hd1 : 0 < d1) by (subst d1; lia). assert (Hd2 : 0 < d2) by (subst d2; lia).
  set (e' := Z.min (fexp prec emax (d1 + e1 - (d2 + e2))) (e1 - e2)).
  assert (He' : e' <= e1 - e2) by (subst e'; lia).
  assert (He'B : e' <= B) by (subst e'; unfold fexp, emin; lia).
  set (s := e1 - e2 - e').
  assert (Hs : 0 <= s) by (subst s; lia).
  set (m' := match s with Z0 => Zpos m1 | Zpos _ => Z.shiftl (Zpos m1) s | Zneg _ => 0 end).
  assert (Hm' : m' = Zpos m1 * 2 ^ s).
  { subst m'. destruct s as [|p|p] eqn:S; [rewrite Z.pow_0_r; lia| |lia].
    rewrite Z.shiftl_mul_pow2 by lia. reflexivity. }
  clearbody m'.
  destruct (Z.div_eucl m' (Zpos m2)) as [q r] eqn:D. cbn [fst snd].
  assert (Hq : q = m' / Zpos m2) by (unfold Z.div; rewrite D; reflexivity).
  assert (HPs : 0 < 2 ^ s) by (apply Z.pow_pos_nonneg; lia).
  assert (HPd : 0 < 2 ^ (d2 - 1)) by (apply Z.pow_pos_nonneg; lia).
  assert (Hm'lt : m' < 2 ^ (d1 + s))
    by (rewrite Hm', Z.pow_add_r by lia; apply Z.mul_lt_mono_pos_r; lia).
  set (D' := d1 - d2 + 1 + s).
  assert (HD'B : D' <= B - e') by (subst D' s; lia).
  assert (Hq0 : 0 <= q) by (rewrite Hq; apply Z.div_pos; [rewrite Hm'|]; lia).
  destruct (Z_lt_le_dec D' 0) as [Cn|Cp].
  - assert (Hsmall : m' < Zpos m2).
    { assert (2 ^ (d1 + s) <= 2 ^ (d2 - 1)) by (apply Z.pow_le_mono_r; subst D'; lia). lia. }
    assert (q = 0) by (rewrite Hq; apply Z.div_small; rewrite Hm' in *; lia).
    assert (1 <= 2 ^ (B - e')) by (apply (Z.pow_le_mono_r 2 0); lia). lia.
  - assert (Hqlt : q < 2 ^ D').
    { rewrite Hq. apply Z.div_lt_upper_bound; [lia|].
      assert (E : 2 ^ (d1 + s) = 2 ^ (d2 - 1) * 2 ^ D')
        by (rewrite <- Z.pow_add_r by lia; f_equal; subst D'; lia).
      assert (0 < 2 ^ D') by (apply Z.pow_pos_nonneg; lia).
      nia. }
    assert (2 ^ D' <= 2 ^ (B - e')) by (apply Z.pow_le_mono_r; lia). lia.
Qed.

(** The quotient of two positive finite numbers, from their sizes. *)
Lemma SFdiv_below (prec emax : Z) (m1 m2 : positive) (e1 e2 B : Z) :
  0 < prec -> 3 - emax - prec <= B ->
  Zpos (digits2_pos m1) + e1 - (Zpos (digits2_pos m2) + e2) + 1 <= B ->
  upto_pow2 prec emax B false
    (SFdiv prec emax (S754_finite false m1 e1) (S754_finite false m2 e2)).
Proof.
  intros Hprec HB Hmag. cbn [SFdiv xorb].
  destruct (SFdiv_core_below prec emax m1 m2 e1 e2 B Hprec HB Hmag) as [H1 H2].
  destruct (SFdiv_core_binary prec emax (Zpos m1) e1 (Zpos m2) e2) as [[q e'] lz].
  cbn [fst snd] in H1, H2.
  apply binary_round_aux_below; assumption.
Qed.

(** The size of a number that rounding returned. *)
Lemma upto_pow2_digits (prec emax B : Z) (s : bool) (m : positive) (e : Z) :
  upto_pow2 prec emax B s (S754_finite s m e) -> Zpos (digits2_pos m) + e <= B + 1.
Proof.
  intros [H|(m' & e' & H & He & Hm)]; [discriminate H|].
  destruct (e' <=? emax - prec); [|discriminate H]. injection H as -> ->.
  assert (Zpos (digits2_pos m') <= B - e' + 1); [|lia].
  apply digits2_le; [lia|].
  rewrite Z.pow_add_r by lia. change (2 ^ 1) with 2.
  assert (0 < 2 ^ (B - e')) by (apply Z.pow_pos_nonneg; lia). lia.
Qed.

(** The conversion to [int] of a number of at most [2^30]. *)
Lemma cast_upto (prec emax B : Z) (x : spec_float) :
  0 <= B <= 30 -> B <= emax - prec -> upto_pow2 prec emax B false x ->
  exists k, static_cast_int x = Some k /\ 0 <= k <= 2 ^ 30.
Proof.
  intros HB Hfin [->|(m & e & -> & He & Hm)].
  - exists 0. split; [reflexivity|]. lia.
  - replace (e <=? emax - prec) with true by (symmetry; apply Z.leb_le; lia).
    unfold static_cast_int. cbn [Ztrunc cond_Zopp].
    assert (H0 : 0 <= Z.shiftl (Zpos m) e) by (apply Z.shiftl_nonneg; lia).
    assert (H1 : Z.shiftl (Zpos m) e <= 2 ^ B).
    { destruct (Z_lt_le_dec e 0) as [Cn|Cp].
      - rewrite Z.shiftl_div_pow2 by lia.
        assert (HP : 0 < 2 ^ (- e)) by (apply Z.pow_pos_nonneg; lia).
        apply Z.div_le_upper_bound; [exact HP|].
        replace (B - e) with (- e + B) in Hm by lia.
        rewrite Z.pow_add_r in Hm by lia. exact Hm.
      - rewrite Z.shiftl_mul_pow2 by lia.
        assert (HP : 0 < 2 ^ e) by (apply Z.pow_pos_nonneg; lia).
        assert (E : 2 ^ B = 2 ^ (B - e) * 2 ^ e)
          by (rewrite <- Z.pow_add_r by lia; f_equal; lia).
        rewrite E. apply Z.mul_le_mono_nonneg_r; lia. }
    assert (H2 : 2 ^ B <= 2 ^ 30) by (apply Z.pow_le_mono_r; lia).
    exists (Z.shiftl (Zpos m) e). split; [|lia].
    replace (_ && _) with true; [reflexivity|].
    symmetry. apply andb_true_iff. unfold INT_MIN, INT_MAX.
    change (2 ^ 30) with 1073741824 in H2.
    change (- 2 ^ 31) with (-2147483648). change (2 ^ 31 - 1) with 2147483647.
    split; apply Z.leb_le; lia.
Qed.

Lemma shl_align_le (m : positive) (e e' : Z) :
  e' <= e -> Zpos (fst (shl_align m e e')) = Zpos m * 2 ^ (e - e').
Proof.
  intros H. unfold shl_align. destruct (e' - e) as [|k|k] eqn:K; cbn [fst]; try lia.
  - replace (e - e') with 0 by lia. rewrite Z.pow_0_r. lia.
  - rewrite Zpos_iter_xO. f_equal. f_equal. lia.
Qed.

(** A sum of two positive numbers of at most [2^B] and [2^0]. *)
Lemma SFadd_below (prec emax : Z) (mx my : positive) (ex ey B : Z) :
  0 < prec -> 3 - emax - prec <= B -> 0 <= B ->
  ex <= B -> Zpos mx <= 2 ^ (B - ex) -> ey <= 0 -> Zpos my <= 2 ^ (0 - ey) ->
  upto_pow2 prec emax (B + 2) false
    (SFadd prec emax (S754_finite false mx ex) (S754_finite false my ey)).
Proof.
  intros Hprec Hmin HB Hex Hmx Hey Hmy. cbn [SFadd cond_Zopp].
  set (ez := Z.min ex ey).
  assert (Hez1 : ez <= ex) by (subst ez; lia). assert (Hez2 : ez <= ey) by (subst ez; lia).
  pose proof (shl_align_le mx ex ez Hez1) as Ha.
  pose proof (shl_align_le my ey ez Hez2) as Hb.
  set (a := fst (shl_align mx ex ez)) in *. set (b := fst (shl_align my ey ez)) in *.
  change (Zpos a + Zpos b) with (Zpos (a + b)). cbn [binary_normalize].
  apply binary_round_below; [exact Hprec|lia|].
  rewrite Pos2Z.inj_add, Ha, Hb.
  assert (P1 : 0 < 2 ^ (ex - ez)) by (apply Z.pow_pos_nonneg; lia).
  assert (P2 : 0 < 2 ^ (ey - ez)) by (apply Z.pow_pos_nonneg; lia).
  assert (E1 : 2 ^ (B - ez) = 2 ^ (B - ex) * 2 ^ (ex - ez))
    by (rewrite <- Z.pow_add_r by lia; f_equal; lia).
  assert (E2 : 2 ^ (0 - ez) = 2 ^ (0 - ey) * 2 ^ (ey - ez))
    by (rewrite <- Z.pow_add_r by lia; f_equal; lia).
  assert (E3 : 2 ^ (B - ez) = 2 ^ B * 2 ^ (0 - ez))
    by (rewrite <- Z.pow_add_r by lia; f_equal; lia).
  assert (E4 : 2 ^ (B + 2 - ez) = 4 * 2 ^ (B - ez))
    by (replace (B + 2 - ez) with (2 + (B - ez)) by lia; rewrite Z.pow_add_r by lia;
        reflexivity).
  assert (P3 : 1 <= 2 ^ (0 - ez)) by (apply (Z.pow_le_mono_r 2 0); lia).
  assert (P4 : 1 <= 2 ^ B) by (apply (Z.pow_le_mono_r 2 0); lia).
  assert (A1 : Zpos mx * 2 ^ (ex - ez) <= 2 ^ (B - ez))
    by (rewrite E1; apply Z.mul_le_mono_nonneg_r; lia).
  assert (A2 : Zpos my * 2 ^ (ey - ez) <= 2 ^ (0 - ez))
    by (rewrite E2; apply Z.mul_le_mono_nonneg_r; lia).
  assert (A3 : 2 ^ (0 - ez) <= 2 ^ (B - ez)) by (rewrite E3; nia).
  rewrite E4. lia.
Qed.

(** ** The coefficients of the shape, lines 443-466 *)

(** The literals of the table are the correctly rounded values of
    their decimal text. *)
Lemma shape_literals_nearest :
  nearest_literal prec32 13631488 (-20) 13 1 = true /\
  nearest_literal prec32 11744051 (-23) 14 10 = true /\
  nearest_literal prec32 10066330 (-25) 3 10 = true /\
  nearest_literal prec32 15938355 (-24) 95 100 = true /\
  nearest_literal prec32 8482980 (-23) 101125 100000 = true /\
  nearest_literal prec32 15917384 (-24) 94875 100000 = true /\
  nearest_literal prec32 15101642 (-26) 225032 1000000 = true /\
  nearest_literal prec64 8589934592000000 (-33) 1000000 1 = true.
Proof. repeat split; vm_compute; reflexivity. Qed.

Lemma below_pow2_bound (k : Z) (m : positive) (e : Z) :
  Zpos (digits2_pos m) + e <= k -> Zpos m + 1 <= 2 ^ (k - e).
Proof.
  intros H. pose proof (digits2_bounds m) as [_ D].
  assert (2 ^ Zpos (digits2_pos m) <= 2 ^ (k - e)) by (apply Z.pow_le_mono_r; lia). lia.
Qed.

Lemma shape1_in_range (t : spec_float) :
  below_pow2 30 t = true -> exists i, shape1 t = Some i /\ 0 <= i < 7.
Proof.
  unfold shape1. destruct t as [s|s| |s m e]; try discriminate.
  - intros _. exists 0. destruct s; split; try reflexivity; lia.
  - destruct s; [discriminate|]. cbn [below_pow2]. intros H. apply Z.leb_le in H.
    destruct (cast_upto prec32 emax32 27 (f32_div (S754_finite false m e) lit_13p0f))
      as (k & -> & Hk); [lia|unfold prec32, emax32; lia| |].
    + apply SFdiv_below; [reflexivity|unfold prec32, emax32; lia|].
      change (Zpos (digits2_pos 13631488)) with 24. lia.
    + exists (Z.rem k 7). split; [reflexivity|]. apply Z.rem_bound_pos; lia.
Qed.

Lemma shape2_finite (mx : positive) (ex : Z) :
  ex <= 30 -> Zpos mx <= 2 ^ (30 - ex) ->
  exists k,
    static_cast_int (f64_div (f64_add (S754_finite false mx ex) lit_1p0)
                       (f64_of_f32 lit_13p0f)) = Some k /\ 0 <= k.
Proof.
  intros Hex Hmx.
  assert (Hadd : upto_pow2 prec64 emax64 (30 + 2) false
                   (SFadd prec64 emax64 (S754_finite false mx ex)
                      (S754_finite false 4503599627370496 (-52)))).
  { apply SFadd_below;
      [reflexivity|unfold prec64, emax64; lia|lia|exact Hex|exact Hmx|lia|].
    change (2 ^ (0 - -52)) with 4503599627370496. lia. }
  unfold f64_add, lit_1p0.
  destruct Hadd as [E|(m2 & e2 & E & He2 & Hm2)].
  - rewrite E. exists 0. split; [reflexivity|lia].
  - rewrite E. change (30 + 2) with 32 in *.
    replace (e2 <=? emax64 - prec64) with true
      by (symmetry; apply Z.leb_le; unfold prec64, emax64; lia).
    assert (Hd : Zpos (digits2_pos m2) + e2 <= 33).
    { apply (upto_pow2_digits prec64 emax64 32 false). right. exists m2, e2.
      replace (e2 <=? emax64 - prec64) with true
        by (symmetry; apply Z.leb_le; unfold prec64, emax64; lia).
      auto. }
    change (f64_of_f32 lit_13p0f) with (S754_finite false 7318349394477056 (-49)).
    destruct (cast_upto prec64 emax64 30
                (f64_div (S754_finite false m2 e2) (S754_finite false 7318349394477056 (-49))))
      as (k & Hk & Hk0); [lia|unfold prec64, emax64; lia| |].
    + apply SFdiv_below; [reflexivity|unfold prec64, emax64; lia|].
      change (Zpos (digits2_pos 7318349394477056)) with 53. lia.
    + exists k. split; [exact Hk|lia].
Qed.

Lemma shape2_in_range (t : spec_float) :
  below_pow2 30 t = true -> exists i, shape2 t = Some i /\ 0 <= i < 7.
Proof.
  unfold shape2. destruct t as [s|s| |s m e]; try discriminate.
  - intros _. exists 0. destruct s; split; try reflexivity; lia.
  - destruct s; [discriminate|]. cbn [below_pow2]. intros H. apply Z.leb_le in H.
    assert (Hk : exists k,
               static_cast_int (f64_div (f64_add (f64_of_f32 (S754_finite false m e)) lit_1p0)
                                  (f64_of_f32 lit_13p0f)) = Some k /\ 0 <= k).
    { unfold f64_of_f32 at 1, convert. cbn [cond_Zopp binary_normalize].
      destruct (binary_round_below prec64 emax64 false m e 30)
        as [E|(mx & ex & E & Hex & Hmx)];
        [reflexivity|unfold prec64, emax64; lia|apply below_pow2_bound; exact H| |].
      - rewrite E. exists 0. split; [reflexivity|lia].
      - rewrite E.
        replace (ex <=? emax64 - prec64) with true
          by (symmetry; apply Z.leb_le; unfold prec64, emax64; lia).
        apply shape2_finite; assumption. }
    destruct Hk as (k & -> & Hk).
    exists (Z.rem k 7). split; [reflexivity|]. apply Z.rem_bound_pos; lia.
Qed.

Lemma C_row_in_range (i : Z) :
  0 <= i < 7 -> exists row, C_row i = Some row /\ length row = 12%nat.
Proof.
  intros Hi.
  assert (H : i = 0 \/ i = 1 \/ i = 2 \/ i = 3 \/ i = 4 \/ i = 5 \/ i = 6) by lia.
  destruct H as [-> | [-> | [-> | [-> | [-> | [-> | ->]]]]]];
    eexists; split; reflexivity.
Qed.

Lemma C_row_length (i : Z) (row : list spec_float) :
  C_row i = Some row -> length row = 12%nat.
Proof.
  unfold C_row. destruct (i <? 0); [discriminate|].
  destruct (Z.to_nat i) as [|[|[|[|[|[|[|n]]]]]]]; cbn; intros [= <-]; reflexivity.
Qed.

(** X19.  For every time [t] with [0 <= t < 2^30] (the zeros of both
    signs included) the two conversions to [int] of lines 461-462 are
    defined and both shape indices lie in 0..6, so the table [C] is read
    within its bounds and the twelve coefficients [CC] are defined. *)
Theorem shape_defined_in_range (t : spec_float) :
  below_pow2 30 t = true ->
  exists i1 i2 CC,
    shape1 t = Some i1 /\ shape2 t = Some i2 /\
    0 <= i1 < 7 /\ 0 <= i2 < 7 /\
    shape_coefficients t = Some CC /\ length CC = 12%nat.
Proof.
  intros Ht.
  destruct (shape1_in_range t Ht) as (i1 & H1 & Hi1).
  destruct (shape2_in_range t Ht) as (i2 & H2 & Hi2).
  destruct (C_row_in_range i1 Hi1) as (r1 & Hr1 & L1).
  destruct (C_row_in_range i2 Hi2) as (r2 & Hr2 & L2).
  exists i1, i2. eexists. split; [exact H1|]. split; [exact H2|].
  split; [exact Hi1|]. split; [exact Hi2|].
  unfold shape_coefficients. rewrite H1, H2, Hr1, Hr2. split; [reflexivity|].
  rewrite length_zip_with, L1, L2. reflexivity.
Qed.

(** The time [t = 100]: the shapes are 7 mod 7 = 0 and 7 mod 7 = 0. *)
Lemma shape_defined_in_range_witness :
  below_pow2 30 (S754_finite false 13107200 (-17)) = true /\
  exists i1 i2 CC,
    shape1 (S754_finite false 13107200 (-17)) = Some i1 /\
    shape2 (S754_finite false 13107200 (-17)) = Some i2 /\
    shape_coefficients (S754_finite false 13107200 (-17)) = Some CC.
Proof.
  split; [reflexivity|].
  destruct (shape_defined_in_range (S754_finite false 13107200 (-17)) eq_refl)
    as (i1 & i2 & CC & H1 & H2 & _ & _ & H3 & _).
  exists i1, i2, CC. exact (conj H1 (conj H2 H3)).
Defined.

(** X20.  Whenever the coefficients are defined there are twelve of
    them.  They are undefined for every time whose quotient by 13
    truncates to a negative integer that is not a multiple of 7: the
    index [shape1] is then negative and [C] is read before its first
    row.  [t = -13] is such a time, and the reset event fires for it. *)
Theorem shape_index_negative :
  (forall t CC, shape_coefficients t = Some CC -> length CC = 12%nat) /\
  (forall t k, static_cast_int (f32_div t lit_13p0f) = Some k ->
     k < 0 -> Z.rem k 7 <> 0 ->
     shape1 t = Some (Z.rem k 7) /\ Z.rem k 7 < 0 /\ shape_coefficients t = None) /\
  shape1 (S754_finite true 13631488 (-20)) = Some (-1) /\
  shape_coefficients (S754_finite true 13631488 (-20)) = None /\
  reset_event (S754_finite true 13631488 (-20)) = true.
Proof.
  split; [|split; [|repeat split]].
  - intros t CC. unfold shape_coefficients.
    destruct (shape1 t) as [i1|]; [|discriminate].
    destruct (shape2 t) as [i2|]; [|discriminate].
    destruct (C_row i1) as [r1|] eqn:R1; [|discriminate].
    destruct (C_row i2) as [r2|] eqn:R2; [|discriminate].
    intros [= <-].
    rewrite length_zip_with, (C_row_length _ _ R1), (C_row_length _ _ R2). reflexivity.
  - intros t k Hk Hneg Hrem.
    assert (Hi : Z.rem k 7 < 0).
    { pose proof (Z.rem_bound_pos_neg k 7) as Hb. lia. }
    unfold shape_coefficients, shape1. rewrite Hk.
    split; [reflexivity|]. split; [exact Hi|].
    destruct (shape2 t); [|reflexivity].
    unfold C_row. replace (Z.rem k 7 <? 0) with true by (symmetry; apply Z.ltb_lt; exact Hi).
    reflexivity.
Qed.

(** [t = -26]: the quotient truncates to -2, and row -2 of [C] is read. *)
Lemma shape_index_negative_witness :
  static_cast_int (f32_div (S754_finite true 13631488 (-19)) lit_13p0f) = Some (-2) /\
  shape1 (S754_finite true 13631488 (-19)) = Some (-2) /\
  shape_coefficients (S754_finite true 13631488 (-19)) = None.
Proof.
  assert (H : static_cast_int (f32_div (S754_finite true 13631488 (-19)) lit_13p0f)
              = Some (-2)) by (vm_compute; reflexivity).
  assert (Hneg : -2 < 0) by reflexivity.
  assert (Hrem : Z.rem (-2) 7 <> 0) by (cbv; discriminate).
  split; [exact H|].
  destruct (proj1 (proj2 shape_index_negative) (S754_finite true 13631488 (-19)) (-2)
              H Hneg Hrem) as (H1 & _ & H3).
  exact (conj H1 H3).
Defined.

(** ** The throughput of [infoString], line 615 *)

(** A product of a number of at most [2^Ba] and a number below [2^Bb]. *)
Lemma SFmul_below (prec emax : Z) (ma mb : positive) (ea eb Ba Bb : Z) :
  0 < prec -> 3 - emax - prec <= Ba + Bb ->
  ea <= Ba -> Zpos ma <= 2 ^ (Ba - ea) -> Zpos mb + 1 <= 2 ^ (Bb - eb) ->
  upto_pow2 prec emax (Ba + Bb) false
    (SFmul prec emax (S754_finite false ma ea) (S754_finite false mb eb)).
Proof.
  intros Hprec Hmin Hea Hma Hmb. cbn [SFmul xorb].
  pose proof (pow2_pos_exp _ _ (Pos2Z.is_nonneg mb) Hmb) as Hb.
  apply binary_round_aux_below; [exact Hprec|exact Hmin|lia|].
  rewrite Pos2Z.inj_mul.
  replace (Ba + Bb - (ea + eb)) with ((Ba - ea) + (Bb - eb)) by lia.
  rewrite Z.pow_add_r by lia.
  assert (0 < 2 ^ (Ba - ea)) by (apply Z.pow_pos_nonneg; lia).
  nia.
Qed.

(** X21.  For every volume whose sizes are between 4 and 1291 and every
    frame rate [fps] with [0 <= fps < 65536], the throughput that
    [infoString] prints is defined (no integer overflows and the
    conversion to [int] is in range) and not negative, and [infoString]
    returns a text. *)
Theorem mvps_defined (v : Volume) (fps : spec_float) :
  4 <= volume_size_x v <= 1291 -> 4 <= volume_size_y v <= 1291 ->
  4 <= volume_size_z v <= 1291 ->
  below_pow2 16 fps = true ->
  (exists k, MVPS v fps = Some k /\ 0 <= k) /\
  (forall (show_float : spec_float -> string) (N : Z) (s : State),
     exists text, infoString show_float v N s fps = Some text).
Proof.
  intros Hx Hy Hz Hfps.
  assert (Hk : exists k, MVPS v fps = Some k /\ 0 <= k).
  { unfold MVPS.
    assert (Hv : voxels v
                 = Some ((volume_size_x v - 1) * (volume_size_y v - 1) * (volume_size_z v - 1))).
    { unfold voxels, int_result, INT_MIN, INT_MAX.
      change (- 2 ^ 31) with (-2147483648). change (2 ^ 31 - 1) with 2147483647.
      assert (0 <= (volume_size_x v - 1) * (volume_size_y v - 1) <= 1290 * 1290) by nia.
      assert (0 <= (volume_size_x v - 1) * (volume_size_y v - 1) * (volume_size_z v - 1)
              <= 1290 * 1290 * 1290) by nia.
      repeat (match goal with
              | |- context [(?a <=? ?b) && (?c <=? ?d)] =>
                  replace ((a <=? b) && (c <=? d)) with true
                    by (symmetry; apply andb_true_iff; split; apply Z.leb_le; lia)
              end; cbv beta iota).
      reflexivity. }
    rewrite Hv.
    set (n := (volume_size_x v - 1) * (volume_size_y v - 1) * (volume_size_z v - 1)).
    assert (Hn : 0 < n < 2 ^ 31).
    { subst n. change (2 ^ 31) with 2147483648.
      assert (9 <= (volume_size_x v - 1) * (volume_size_y v - 1) <= 1290 * 1290) by nia.
      nia. }
    clearbody n. destruct n as [|p|p]; try lia.
    assert (Hnf : upto_pow2 prec32 emax32 31 false (f32_of_Z (Zpos p))).
    { unfold f32_of_Z. cbn [binary_normalize].
      apply binary_round_below; [reflexivity|unfold prec32, emax32; lia|].
      rewrite Z.sub_0_r. lia. }
    assert (Hfin32 : forall e, e <= 31 -> (e <=? emax32 - prec32) = true)
      by (intros e He; apply Z.leb_le; unfold prec32, emax32; lia).
    destruct fps as [s|s| |s mf ef]; try discriminate Hfps.
    { exists 0. split; [|lia].
      destruct Hnf as [->|(mn & en & -> & Hen & Hmn)]; [destruct s; reflexivity|].
      rewrite (Hfin32 en Hen). destruct s; reflexivity. }
    destruct s; [discriminate Hfps|]. cbn [below_pow2] in Hfps. apply Z.leb_le in Hfps.
    assert (Hprod : upto_pow2 prec32 emax32 (31 + 16) false
                      (f32_mul (f32_of_Z (Zpos p)) (S754_finite false mf ef))).
    { destruct Hnf as [->|(mn & en & -> & Hen & Hmn)]; [left; reflexivity|].
      rewrite (Hfin32 en Hen).
      apply SFmul_below;
        [reflexivity|unfold prec32, emax32; lia|exact Hen|exact Hmn|].
      apply below_pow2_bound. exact Hfps. }
    change (31 + 16) with 47 in Hprod.
    assert (Hconv : upto_pow2 prec64 emax64 48 false
                      (f64_of_f32 (f32_mul (f32_of_Z (Zpos p)) (S754_finite false mf ef)))).
    { destruct Hprod as [->|(mp & ep & -> & Hep & Hmp)]; [left; reflexivity|].
      replace (ep <=? emax32 - prec32) with true
        by (symmetry; apply Z.leb_le; unfold prec32, emax32; lia).
      unfold f64_of_f32, convert. cbn [cond_Zopp binary_normalize].
      apply binary_round_below; [reflexivity|unfold prec64, emax64; lia|].
      replace (48 - ep) with (1 + (47 - ep)) by lia. rewrite Z.pow_add_r by lia.
      change (2 ^ 1) with 2.
      assert (0 < 2 ^ (47 - ep)) by (apply Z.pow_pos_nonneg; lia). lia. }
    destruct Hconv as [->|(mc & ec & -> & Hec & Hmc)].
    - exists 0. split; [reflexivity|lia].
    - assert (Hfin : (ec <=? emax64 - prec64) = true)
        by (apply Z.leb_le; unfold prec64, emax64; lia).
      assert (Hd : Zpos (digits2_pos mc) + ec <= 49).
      { apply (upto_pow2_digits prec64 emax64 48 false). right. exists mc, ec.
        rewrite Hfin. auto. }
      rewrite Hfin. unfold lit_1e6.
      destruct (cast_upto prec64 emax64 30
                  (f64_div (S754_finite false mc ec)
                     (S754_finite false 8589934592000000 (-33))))
        as (k & Hk & Hk0); [lia|unfold prec64, emax64; lia| |].
      + apply SFdiv_below; [reflexivity|unfold prec64, emax64; lia|].
        change (Zpos (digits2_pos 8589934592000000)) with 53. lia.
      + exists k. split; [exact Hk|lia]. }
  split; [exact Hk|].
  intros show_float N s. unfold infoString.
  destruct Hk as (k & -> & _). eexists. reflexivity.
Qed.

(** The volume of 64 samples in each direction at 60 frames per second:
    15 million cells per second. *)
Lemma mvps_defined_witness :
  MVPS volume_initial (S754_finite false 15728640 (-18)) = Some 15 /\
  exists k, MVPS volume_initial (S754_finite false 15728640 (-18)) = Some k /\ 0 <= k.
Proof.
  split; [vm_compute; reflexivity|].
  apply (mvps_defined volume_initial (S754_finite false 15728640 (-18))); cbn; try lia.
  reflexivity.
Defined.

(** ** Conversions between [float] and [double] *)

Lemma iter_shr_xO (k : positive) :
  forall m : positive,
    SpecFloat.iter_pos shr_1 k (Build_shr_record (Zpos (Pos.iter xO m k)) false false)
    = Build_shr_record (Zpos m) false false.
Proof.
  induction k as [k IH|k IH|]; intros m; cbn [SpecFloat.iter_pos Pos.iter shr_1 orb].
  - rewrite IH, IH. reflexivity.
  - rewrite IH, IH. reflexivity.
  - reflexivity.
Qed.

Lemma digits2_iter_xO (m k : positive) :
  Zpos (digits2_pos (Pos.iter xO m k)) = Zpos (digits2_pos m) + Zpos k.
Proof.
  apply digits2_unique. rewrite Zpos_iter_xO.
  pose proof (digits2_bounds m) as [Dlo Dhi].
  assert (HP : 0 < 2 ^ Zpos k) by (apply Z.pow_pos_nonneg; lia).
  replace (Zpos (digits2_pos m) + Zpos k - 1) with ((Zpos (digits2_pos m) - 1) + Zpos k) by lia.
  rewrite !Z.pow_add_r by lia.
  split; [apply Z.mul_le_mono_nonneg_r|apply Z.mul_lt_mono_pos_r]; lia.
Qed.

(** Rounding a mantissa that fits the format returns it. *)
Lemma binary_round_aux_fits (prec emax : Z) (s : bool) (m : positive) (e : Z) :
  fexp prec emax (Zpos (digits2_pos m) + e) = e -> e <= emax - prec ->
  binary_round_aux prec emax s (Zpos m) e loc_Exact = S754_finite s m e.
Proof.
  intros Hc He. unfold binary_round_aux, shr_fexp. cbn [Zdigits2 shr_record_of_loc].
  rewrite Hc, Z.sub_diag.
  cbn [shr shr_m loc_of_shr_record round_nearest_even Zdigits2 shr_record_of_loc].
  rewrite Hc, Z.sub_diag. cbn [shr shr_m].
  replace (e <=? emax - prec) with true by (symmetry; apply Z.leb_le; exact He).
  reflexivity.
Qed.

(** Rounding a mantissa that ends in the [k] zeros the format drops. *)
Lemma binary_round_aux_zeros (prec emax : Z) (s : bool) (m k : positive) (e : Z) :
  fexp prec emax (Zpos (digits2_pos m) + Zpos k + e) = e + Zpos k ->
  e + Zpos k <= emax - prec ->
  binary_round_aux prec emax s (Zpos (Pos.iter xO m k)) e loc_Exact
  = S754_finite s m (e + Zpos k).
Proof.
  intros Hc He. unfold binary_round_aux, shr_fexp. cbn [Zdigits2 shr_record_of_loc].
  rewrite digits2_iter_xO, Hc.
  replace (e + Zpos k - e) with (Zpos k) by lia. cbn [shr].
  rewrite iter_shr_xO.
  cbn [shr_m loc_of_shr_record round_nearest_even Zdigits2 shr_record_of_loc].
  replace (Zpos (digits2_pos m) + (e + Zpos k)) with (Zpos (digits2_pos m) + Zpos k + e)
    by lia.
  rewrite Hc, Z.sub_diag. cbn [shr shr_m].
  replace (e + Zpos k <=? emax - prec) with true by (symmetry; apply Z.leb_le; exact He).
  reflexivity.
Qed.

Lemma valid_binary32 (s : bool) (m : positive) (e : Z) :
  valid_binary prec32 emax32 (S754_finite s m e) = true ->
  Zpos (digits2_pos m) <= 24 /\ -149 <= e <= 104 /\
  (Zpos (digits2_pos m) = 24 \/ e = -149).
Proof.
  cbn [valid_binary]. unfold bounded, canonical_mantissa, fexp, emin, prec32, emax32.
  intros H. apply andb_true_iff in H as [H1 H2].
  apply Z.eqb_eq in H1. apply Z.leb_le in H2. lia.
Qed.

(** The conversion of a [float] to [double] is exact: the mantissa is
    extended to 53 digits. *)
Lemma f64_of_f32_exact (s : bool) (m : positive) (e : Z) :
  valid_binary prec32 emax32 (S754_finite s m e) = true ->
  exists k : positive,
    Zpos k = 53 - Zpos (digits2_pos m) /\
    f64_of_f32 (S754_finite s m e) = S754_finite s (Pos.iter xO m k) (e - Zpos k).
Proof.
  intros V. destruct (valid_binary32 s m e V) as (Hd & He & _).
  assert (Hk : exists k : positive, Zpos k = 53 - Zpos (digits2_pos m))
    by (exists (Z.to_pos (53 - Zpos (digits2_pos m))); rewrite Z2Pos.id; lia).
  destruct Hk as (k & Hk). exists k. split; [exact Hk|].
  assert (Hr : binary_round prec64 emax64 s m e = S754_finite s (Pos.iter xO m k) (e - Zpos k)).
  { unfold binary_round, shl_align, fexp, emin, prec64, emax64.
    rewrite Z.max_l by lia.
    replace (Zpos (digits2_pos m) + e - 53 - e) with (Zneg k) by lia.
    replace (Zpos (digits2_pos m) + e - 53) with (e - Zpos k) by lia.
    apply binary_round_aux_fits; [|lia].
    rewrite digits2_iter_xO. unfold fexp, emin. lia. }
  unfold f64_of_f32, convert. destruct s; cbn [cond_Zopp Z.opp binary_normalize]; exact Hr.
Qed.

(** X22.  A [float] that is stored in a [double] and converted back is
    unchanged, for every [float] (finite, infinite or NaN): so the iso
    value [double iso = 0.001f] reaches the animation shader, through
    [glUniform1f], as the [float] 0.001f it was written as. *)
Theorem float_double_round_trip (x : spec_float) :
  valid_binary prec32 emax32 x = true -> f32_of_f64 (f64_of_f32 x) = x.
Proof.
  destruct x as [s|s| |s m e]; try reflexivity.
  intros V. destruct (f64_of_f32_exact s m e V) as (k & Hk & ->).
  destruct (valid_binary32 s m e V) as (Hd & He & Hc).
  assert (Hr : binary_round prec32 emax32 s (Pos.iter xO m k) (e - Zpos k)
               = S754_finite s m e).
  { unfold binary_round, shl_align. rewrite digits2_iter_xO.
    assert (Hf : fexp prec32 emax32 (Zpos (digits2_pos m) + Zpos k + (e - Zpos k)) = e)
      by (unfold fexp, emin, prec32, emax32; lia).
    rewrite Hf. replace (e - (e - Zpos k)) with (Zpos k) by lia.
    replace e with ((e - Zpos k) + Zpos k) at 2 by lia.
    apply binary_round_aux_zeros; [|unfold prec32, emax32; lia].
    rewrite Hf. lia. }
  unfold f32_of_f64, convert. destruct s; cbn [cond_Zopp Z.opp binary_normalize]; exact Hr.
Qed.

(** The iso value 0.001f. *)
Lemma float_double_round_trip_witness :
  valid_binary prec32 emax32 lit_0p001f = true /\ iso_uniform = lit_0p001f.
Proof.
  split; [reflexivity|].
  exact (float_double_round_trip lit_0p001f eq_refl).
Defined.

(** X23.  The test [t < 1e-6] compares the exact value of [t]: for every
    positive finite [float] [t = m * 2^e] the reset event fires exactly
    when [m * 2^e] is less than the [double] nearest to 1e-6, which is
    [4722366482869645 * 2^-72]; the conversion of [t] to [double] loses
    nothing. *)
Theorem reset_event_exact (m : positive) (e : Z) :
  valid_binary prec32 emax32 (S754_finite false m e) = true ->
  reset_event (S754_finite false m e)
  = (Zpos m * 2 ^ (e + 149) <? 4722366482869645 * 2 ^ 77).
Proof.
  intros V. destruct (f64_of_f32_exact false m e V) as (k & Hk & E).
  destruct (valid_binary32 false m e V) as (Hd & He & _).
  unfold reset_event. rewrite E. unfold SFltb, lit_1em6. cbn [SFcompare].
  pose proof (digits2_bounds (Pos.iter xO m k)) as [Dlo Dhi].
  rewrite digits2_iter_xO in Dlo, Dhi.
  replace (Zpos (digits2_pos m) + Zpos k - 1) with 52 in Dlo by lia.
  replace (Zpos (digits2_pos m) + Zpos k) with 53 in Dhi by lia.
  pose proof (Zpos_iter_xO m k) as Hz.
  set (mz := Pos.iter xO m k) in *.
  change (2 ^ 52) with 4503599627370496 in Dlo.
  change (2 ^ 53) with 9007199254740992 in Dhi.
  assert (HPk : 0 < 2 ^ Zpos k) by (apply Z.pow_pos_nonneg; lia).
  symmetry.
  destruct (e - Zpos k ?= -72) eqn:Cmp.
  - apply Z.compare_eq in Cmp.
    replace (e + 149) with (Zpos k + 77) by lia.
    rewrite Z.pow_add_r, Z.mul_assoc, <- Hz by lia.
    assert (HP : 0 < 2 ^ 77) by (apply Z.pow_pos_nonneg; lia).
    assert (Hm : forall p q : positive,
               match PosDef.Pos.compare_cont Eq p q with Lt => true | _ => false end
               = (Zpos p <? Zpos q)) by (intros p q; reflexivity).
    rewrite Hm.
    destruct (Z.ltb_spec (Zpos mz) 4722366482869645) as [Cm|Cm].
    + apply Z.ltb_lt. apply Z.mul_lt_mono_pos_r; [exact HP|exact Cm].
    + apply Z.ltb_ge. apply Z.mul_le_mono_nonneg_r; [apply Z.lt_le_incl; exact HP|exact Cm].
  - rewrite Z.compare_lt_iff in Cmp. apply Z.ltb_lt.
    set (j := -72 - (e - Zpos k)) in *.
    assert (Hj : 0 < j) by (subst j; lia).
    assert (E2 : 2 ^ (e + 149) * 2 ^ j = 2 ^ Zpos k * 2 ^ 77)
      by (rewrite <- !Z.pow_add_r by lia; f_equal; subst j; lia).
    assert (HP : 0 < 2 ^ 77) by (apply Z.pow_pos_nonneg; lia).
    assert (HPj : 2 <= 2 ^ j) by (apply (Z.pow_le_mono_r 2 1); lia).
    apply (Z.mul_lt_mono_pos_r (2 ^ j)); [lia|].
    replace (Zpos m * 2 ^ (e + 149) * 2 ^ j) with (Zpos mz * 2 ^ 77)
      by (rewrite Hz, <- !Z.mul_assoc, E2; reflexivity).
    apply Z.lt_le_trans with (9007199254740992 * 2 ^ 77);
      [apply Z.mul_lt_mono_pos_r; lia|].
    replace (4722366482869645 * 2 ^ 77 * 2 ^ j) with (4722366482869645 * 2 ^ j * 2 ^ 77)
      by ring.
    apply Z.mul_le_mono_nonneg_r; lia.
  - rewrite Z.compare_gt_iff in Cmp. apply Z.ltb_ge.
    set (j := (e - Zpos k) - -72) in *.
    assert (Hj : 0 < j) by (subst j; lia).
    assert (E2 : 2 ^ (e + 149) = 2 ^ Zpos k * 2 ^ 77 * 2 ^ j)
      by (rewrite <- !Z.pow_add_r by lia; f_equal; subst j; lia).
    assert (HP : 0 < 2 ^ 77) by (apply Z.pow_pos_nonneg; lia).
    assert (HPj : 2 <= 2 ^ j) by (apply (Z.pow_le_mono_r 2 1); lia).
    rewrite E2.
    replace (Zpos m * (2 ^ Zpos k * 2 ^ 77 * 2 ^ j)) with (Zpos mz * 2 ^ j * 2 ^ 77)
      by (rewrite Hz; ring).
    apply Z.mul_le_mono_nonneg_r; [lia|]. nia.
Qed.

(** The largest [float] below 1e-6 resets, its successor does not. *)
Lemma reset_event_exact_witness :
  reset_event (S754_finite false 8796093 (-43)) = true /\
  reset_event (S754_finite false 8796094 (-43)) = false.
Proof.
  split.
  - rewrite (reset_event_exact 8796093 (-43) eq_refl). reflexivity.
  - rewrite (reset_event_exact 8796094 (-43) eq_refl). reflexivity.
Defined.
